(** * ask-randy memory_rag: the retrieval core, embedded and verified

    A shallow embedding of [tools/memory_rag/core] (chunker.py, embedder.py,
    indexer.py, searcher.py, intelligence.py) and the properties the
    specification states about it.

    Conventions of the embedding:
    - a Python [str] is the list of its Unicode code points ([pystr]);
    - a Python [int] is a [Z], [len] is [Z.of_nat (length _)];
    - a Python [float] score or multiplier is an exact rational ([Q]):
      rounding is not modelled;
    - a [dict] is a [gmap]; where the insertion order is observable (the
      fusion map of the searcher) it is an association list;
    - objects that are mutated through references (search results) live in
      an explicit store and are named by locations;
    - a [while] loop is a fixpoint on fuel; [None] means the fuel ran out;
    - the collaborators outside the repository (MD5, the sentence
      transformer, the tokenizer, ChromaDB, the regular expressions of the
      configuration, the file system) are variables of the section. *)

From Stdlib Require Import ZArith QArith Lia Lqa.
From stdpp Require Import gmap list strings pretty fin_maps.

(** ** Python strings *)

Abbreviation pystr := (list N).

(** A string literal of the source, as code points (ASCII literals only). *)
Definition py (s : string) : pystr :=
  Ascii.N_of_ascii <$> String.list_ascii_of_string s.

(** [str(n)] for an integer. *)
Definition py_str_of_Z (n : Z) : pystr := py (pretty n).

(** [len(x)] *)
Definition len {A} (l : list A) : Z := Z.of_nat (length l).

(** The code points [str.isspace] accepts; [str.split()] and [str.strip()]
    cut on exactly these. *)
Definition isspace (c : N) : bool :=
  ((9 <=? c) && (c <=? 13) || (28 <=? c) && (c <=? 32)
   || (c =? 133) || (c =? 160) || (c =? 5760)
   || (8192 <=? c) && (c <=? 8202)
   || (c =? 8232) || (c =? 8233) || (c =? 8239) || (c =? 8287)
   || (c =? 12288))%N.

Definition newline : N := 10%N.
Definition space : N := 32%N.
Definition hyphen : N := 45%N.
Definition hash_sign : N := 35%N.

(** [s.split('\n')]: never empty, [''.split('\n') == ['']]. *)
Fixpoint split_lines (s : pystr) : list pystr :=
  match s with
  | [] => [[]]
  | c :: t =>
      if (c =? newline)%N then [] :: split_lines t
      else match split_lines t with
           | l :: ls => (c :: l) :: ls
           | [] => [[c]]
           end
  end.

(** [sep.join(parts)] *)
Fixpoint join (sep : pystr) (parts : list pystr) : pystr :=
  match parts with
  | [] => []
  | [x] => x
  | x :: rest => x ++ sep ++ join sep rest
  end.

(** [s.split()]: the maximal runs of non-whitespace code points. *)
Fixpoint split_ws (s : pystr) : list pystr :=
  match s with
  | [] => []
  | c :: t =>
      if isspace c then split_ws t
      else match t with
           | [] => [[c]]
           | c' :: _ =>
               if isspace c' then [c] :: split_ws t
               else match split_ws t with
                    | w :: ws => (c :: w) :: ws
                    | [] => [[c]]
                    end
           end
  end.

Fixpoint lstrip (s : pystr) : pystr :=
  match s with
  | c :: t => if isspace c then lstrip t else s
  | [] => []
  end.

Definition rstrip (s : pystr) : pystr := reverse (lstrip (reverse s)).

(** [s.strip()] *)
Definition strip (s : pystr) : pystr := rstrip (lstrip s).

(** Truth value of a string: [if s] *)
Definition truthy (s : pystr) : bool :=
  match s with [] => false | _ => true end.

(** [s.startswith(p)] *)
Fixpoint startswith (s p : pystr) {struct p} : bool :=
  match p, s with
  | [], _ => true
  | _ :: _, [] => false
  | a :: p', b :: s' => (a =? b)%N && startswith s' p'
  end.

(** [s.replace(old, new)], leftmost non-overlapping occurrences.
    [skip] counts the code points of a match that are still to be dropped. *)
Fixpoint replace_from (old new : pystr) (skip : nat) (s : pystr) : pystr :=
  match s with
  | [] => []
  | c :: t =>
      match skip with
      | S k => replace_from old new k t
      | O =>
          if startswith s old
          then new ++ replace_from old new (length old - 1) t
          else c :: replace_from old new 0 t
      end
  end.

Definition replace (old new s : pystr) : pystr :=
  match old with
  | [] => new ++ concat ((λ c, c :: new) <$> s)
  | _ => replace_from old new 0 s
  end.

(** [l[start:stop]] with Python's treatment of negative and overlong
    indices. *)
Definition slice_index {A} (l : list A) (i : Z) : Z :=
  if (i <? 0)%Z then Z.max 0 (i + len l) else Z.min i (len l).

Definition py_slice {A} (l : list A) (start stop : Z) : list A :=
  let lo := slice_index l start in
  let hi := slice_index l stop in
  take (Z.to_nat (hi - lo)) (drop (Z.to_nat lo) l).

(** [min(a, b)] and [max(a, b)] of Python: the first argument wins a tie. *)
Definition py_minZ (a b : Z) : Z := if (b <? a)%Z then b else a.
Definition py_maxZ (a b : Z) : Z := if (a <? b)%Z then b else a.

(** ** chunker.py: data *)

(** The three size tiers, written as coloured circles in the source. *)
Inductive SizeCategory := Red | Yellow | Green.

Definition size_category_str (c : SizeCategory) : pystr :=
  match c with
  | Red => [128308%N]
  | Yellow => [128993%N]
  | Green => [128994%N]
  end.

(** Values of the metadata bags ([Dict[str, Any]]). *)
Inductive MetaVal :=
| MStr (s : pystr)
| MInt (n : Z)
| MNum (q : Q).

Module Document.
Record t := mk {
  file_path : pystr;
  content : pystr;
  size_category : SizeCategory;
  line_count : Z;
  metadata : gmap pystr MetaVal
}.
End Document.

Record Chunk := mkChunk {
  chunk_id : pystr;
  document_path : pystr;
  section_header : pystr;
  content : pystr;
  navigation_path : pystr;
  start_line : Z;
  end_line : Z;
  metadata : gmap pystr MetaVal
}.

(** The dictionaries [_extract_sections] builds. *)
Module Sec.
Record t := mk {
  header : pystr;
  content : pystr;
  start_line : Z;
  end_line : Z
}.
End Sec.

(** [config['chunking']]; the optional keys are read with [.get]. *)
Module ChunkingConfig.
Record t := mk {
  chunk_size : Z;
  chunk_overlap : Z;
  small_file_lines : Z;
  medium_file_lines : Z;
  use_token_based : option bool;
  max_tokens_per_chunk : option Z;
  executive_summary_lines : option Z;
  section_preview_lines : option Z
}.
End ChunkingConfig.

(** The two methods of the Hugging Face tokenizer the chunker calls. *)
Record Tokenizer := mkTokenizer {
  tokenize : pystr → list pystr;
  convert_tokens_to_string : list pystr → pystr
}.

(** The attributes of a [MemoryBankChunker] instance. *)
Record MemoryBankChunker := mkChunker {
  chunk_size : Z;
  chunk_overlap : Z;
  small_threshold : Z;
  medium_threshold : Z;
  use_token_based : bool;
  max_tokens_per_chunk : Z;
  executive_summary_lines : Z;
  section_preview_lines : Z;
  tokenizer : option Tokenizer
}.

(** [Chunk.generate_citation]; [lower] is [str.lower]. *)
Definition generate_citation (lower : pystr → pystr) (self : Chunk) : pystr :=
  let section_slug :=
    replace (py "#") (py "") (replace (py " ") (py "-") (lower (section_header self))) in
  document_path self ++ py "#" ++ section_slug.

(** The sliding window of [_chunk_text_by_words] and
    [_chunk_text_by_tokens]: the list of slices [items[start:end]] the
    [while] loop appends. *)
Fixpoint window_loop {A} (fuel : nat) (items : list A)
    (max_chunk_size overlap start : Z) : option (list (list A)) :=
  match fuel with
  | O => if (start <? len items)%Z then None else Some []
  | S fuel' =>
      if (start <? len items)%Z then
        let end_ := py_minZ (start + max_chunk_size) (len items) in
        let chunk := py_slice items start end_ in
        let start' := if (end_ <? len items)%Z then (end_ - overlap)%Z else end_ in
        (λ chunks, chunk :: chunks) <$> window_loop fuel' items max_chunk_size overlap start'
      else Some []
  end.

(** One pass of the body of the loop: the next value of [start]. *)
Definition window_next {A} (items : list A) (max_chunk_size overlap start : Z) : Z :=
  let end_ := py_minZ (start + max_chunk_size) (len items) in
  if (end_ <? len items)%Z then (end_ - overlap)%Z else end_.

(** [enumerate] *)
Definition enumerate {A} (l : list A) : list (Z * A) :=
  imap (λ i x, (Z.of_nat i, x)) l.

(** The longest prefix on which [p] holds: a [for] loop left by [break]. *)
Fixpoint take_until {A} (stop : A → bool) (l : list A) : list A :=
  match l with
  | [] => []
  | x :: t => if stop x then [] else x :: take_until stop t
  end.

(** ** chunker.py: [MemoryBankChunker] *)

Section Chunker.

(** [self.section_regex.match(line)] for the configured pattern. *)
Variable section_regex_match : pystr → bool.
(** [hashlib.md5(s.encode()).hexdigest()] *)
Variable md5_hexdigest : pystr → pystr.
(** [AutoTokenizer.from_pretrained(model_name)]; [None] when the
    transformers package is missing or the load raises. *)
Variable load_tokenizer : option Tokenizer.

Definition MemoryBankChunker_init (config : ChunkingConfig.t) : MemoryBankChunker :=
  let want_tokens := default false (ChunkingConfig.use_token_based config) in
  let tok := if want_tokens then load_tokenizer else None in
  {| chunk_size := ChunkingConfig.chunk_size config;
     chunk_overlap := ChunkingConfig.chunk_overlap config;
     small_threshold := ChunkingConfig.small_file_lines config;
     medium_threshold := ChunkingConfig.medium_file_lines config;
     use_token_based := want_tokens && bool_decide (is_Some tok);
     max_tokens_per_chunk := default 512%Z (ChunkingConfig.max_tokens_per_chunk config);
     executive_summary_lines :=
       py_maxZ 10 (py_minZ (default 100%Z (ChunkingConfig.executive_summary_lines config)) 1000);
     section_preview_lines :=
       py_maxZ 1 (py_minZ (default 5%Z (ChunkingConfig.section_preview_lines config)) 50);
     tokenizer := tok |}.

Definition categorize_document (self : MemoryBankChunker) (content : pystr)
    : SizeCategory * Z :=
  let lines := split_lines content in
  let line_count := len lines in
  if (line_count >? medium_threshold self)%Z then (Red, line_count)
  else if (line_count >? small_threshold self)%Z then (Yellow, line_count)
  else (Green, line_count).

Definition _build_navigation_path (file_path section_header : pystr) : pystr :=
  if bool_decide (section_header = py "Executive Summary")
  then file_path ++ [32; 8594; 32]%N ++ py "Executive Summary"
  else file_path ++ [32; 8594; 32]%N ++ section_header.

Definition _create_chunk (doc : Document.t) (content section_header : pystr)
    (start_line end_line : Z) : Chunk :=
  let chunk_id :=
    py_slice
      (md5_hexdigest (Document.file_path doc ++ py ":" ++ section_header
                      ++ py ":" ++ py_str_of_Z start_line))
      0 12 in
  let navigation_path := _build_navigation_path (Document.file_path doc) section_header in
  {| chunk_id := chunk_id;
     document_path := Document.file_path doc;
     section_header := section_header;
     content := content;
     navigation_path := navigation_path;
     start_line := start_line;
     end_line := end_line;
     metadata :=
       <[py "size_category" := MStr (size_category_str (Document.size_category doc))]>
       (<[py "line_count" := MInt (Document.line_count doc)]>
       (<[py "file_path" := MStr (Document.file_path doc)]> ∅)) |}.

(** The [for] loop of [_extract_sections]: the sections closed so far,
    the open section (header and start line) and its lines. *)
Fixpoint extract_sections_loop (lines : list pystr) (i : Z)
    (sections : list Sec.t) (current_section : option (pystr * Z))
    (current_content : list pystr)
    : list Sec.t * option (pystr * Z) * list pystr :=
  match lines with
  | [] => (sections, current_section, current_content)
  | line :: rest =>
      if section_regex_match line then
        let sections' :=
          match current_section with
          | Some (hd, st) =>
              sections ++ [Sec.mk hd (join [newline] current_content) st (i - 1)]
          | None => sections
          end in
        extract_sections_loop rest (i + 1) sections' (Some (strip line, i)) [line]
      else
        match current_section with
        | Some _ =>
            extract_sections_loop rest (i + 1) sections current_section
              (current_content ++ [line])
        | None =>
            extract_sections_loop rest (i + 1) sections None current_content
        end
  end.

Definition _extract_sections (content : pystr) : list Sec.t :=
  let lines := split_lines content in
  let '(sections, current_section, current_content) :=
    extract_sections_loop lines 0 [] None [] in
  match current_section with
  | Some (hd, st) =>
      sections ++ [Sec.mk hd (join [newline] current_content) st (len lines - 1)]
  | None => sections
  end.

Definition _chunk_text_by_words (text : pystr) (max_chunk_size overlap : Z)
    : option (list pystr) :=
  if negb (truthy text) || negb (truthy (strip text)) then Some []
  else
    let words := split_ws text in
    if (len words <=? max_chunk_size)%Z then Some [text]
    else
      (λ chunks : list (list pystr), join (py " ") <$> chunks)
        <$> window_loop (length words) words max_chunk_size overlap 0.

Definition _chunk_text_by_tokens (tok : Tokenizer) (text : pystr)
    (max_chunk_size overlap : Z) : option (list pystr) :=
  if negb (truthy text) || negb (truthy (strip text)) then Some []
  else
    let tokens := tokenize tok text in
    if (len tokens <=? max_chunk_size)%Z then Some [text]
    else
      (λ chunks : list (list pystr), convert_tokens_to_string tok <$> chunks)
        <$> window_loop (length tokens) tokens max_chunk_size overlap 0.

Definition _chunk_text (self : MemoryBankChunker) (text : pystr)
    (max_chunk_size overlap : Z) : option (list pystr) :=
  match use_token_based self, tokenizer self with
  | true, Some tok => _chunk_text_by_tokens tok text max_chunk_size overlap
  | _, _ => _chunk_text_by_words text max_chunk_size overlap
  end.

(** The chunks of one section (medium and small files alike): the
    windows of its content, labelled with a part index when there are
    several. *)
Definition section_part_chunks (doc : Document.t) (section : Sec.t)
    (section_chunks : list pystr) : list Chunk :=
  (λ '(i, chunk_content),
     let chunk_header :=
       if (len section_chunks >? 1)%Z
       then Sec.header section ++ py " (Part " ++ py_str_of_Z (i + 1) ++ py "/"
            ++ py_str_of_Z (len section_chunks) ++ py ")"
       else Sec.header section in
     _create_chunk doc chunk_content chunk_header
       (Sec.start_line section) (Sec.end_line section))
  <$> enumerate section_chunks.

(** Chunks of a list of sections, in order; [None] as soon as one
    windowing does not return. *)
Fixpoint chunk_sections (self : MemoryBankChunker) (doc : Document.t)
    (sections : list Sec.t) : option (list Chunk) :=
  match sections with
  | [] => Some []
  | section :: rest =>
      section_chunks ← _chunk_text self (Sec.content section)
                         (chunk_size self) (chunk_overlap self);
      chunks ← chunk_sections self doc rest;
      Some (section_part_chunks doc section section_chunks ++ chunks)
  end.

Definition _chunk_large_file (self : MemoryBankChunker) (doc : Document.t)
    : list Chunk :=
  let lines := split_lines (Document.content doc) in
  let exec_summary_lines :=
    take_until (λ line, startswith line (py "## "))
      (py_slice lines 0 (executive_summary_lines self)) in
  let summary :=
    match exec_summary_lines with
    | [] => []
    | _ => [_create_chunk doc (join [newline] exec_summary_lines)
              (py "Executive Summary") 0 (len exec_summary_lines)]
    end in
  let sections := _extract_sections (Document.content doc) in
  summary ++
  ((λ section,
      let section_lines :=
        py_slice (split_lines (Sec.content section)) 0 (section_preview_lines self) in
      let section_content :=
        (Sec.header section ++ [newline]) ++ join [newline] section_lines in
      _create_chunk doc section_content (Sec.header section)
        (Sec.start_line section) (Sec.start_line section + 5))
   <$> sections).

Definition _chunk_medium_file (self : MemoryBankChunker) (doc : Document.t)
    : option (list Chunk) :=
  chunk_sections self doc (_extract_sections (Document.content doc)).

Definition _chunk_small_file (self : MemoryBankChunker) (doc : Document.t)
    : option (list Chunk) :=
  let sections := _extract_sections (Document.content doc) in
  match sections with
  | [] =>
      text_chunks ← _chunk_text self (Document.content doc)
                      (chunk_size self) (chunk_overlap self);
      Some ((λ '(i, chunk_content),
               _create_chunk doc chunk_content
                 (py "Content Part " ++ py_str_of_Z (i + 1))
                 0 (Document.line_count doc))
            <$> enumerate text_chunks)
  | _ => chunk_sections self doc sections
  end.

Definition chunk_document (self : MemoryBankChunker) (file_path content : pystr)
    : option (list Chunk) :=
  let '(size_category, line_count) := categorize_document self content in
  let doc :=
    Document.mk file_path content size_category line_count
      (<[py "file_path" := MStr file_path]> ∅) in
  match size_category with
  | Red => Some (_chunk_large_file self doc)
  | Yellow => _chunk_medium_file self doc
  | Green => _chunk_small_file self doc
  end.

End Chunker.

(** ** embedder.py: [LocalEmbedder] *)

(** An embedding is a list of floats. *)
Abbreviation Embedding := (list Q).

(** The attributes of a [LocalEmbedder] that [embed_chunks] reads and
    writes, and the batches handed to [self.model.encode] so far (the
    trace of the calls to the embedding provider, oldest first). *)
Record LocalEmbedder := mkEmbedder {
  batch_size : Z;
  embedding_cache : gmap pystr Embedding;
  encoded_batches : list (list pystr)
}.

(** [zip(a, b, c)]: as long as the shortest. *)
Fixpoint zip3 {A B C} (a : list A) (b : list B) (c : list C) : list (A * B * C) :=
  match a, b, c with
  | x :: a', y :: b', z :: c' => (x, y, z) :: zip3 a' b' c'
  | _, _, _ => []
  end.

Section Embedder.

Variable md5_hexdigest : pystr → pystr.
(** [self.model.encode(batch, ...)] followed by [tolist] on each row. *)
Variable model_encode : list pystr → list Embedding.

Definition _get_content_hash (content : pystr) : pystr := md5_hexdigest content.

(** The first loop of [embed_chunks], from index [i] on: the embeddings
    found in the cache (a placeholder [None] for a miss), the chunks to
    embed and their indices. *)
Fixpoint check_cache (cache : gmap pystr Embedding) (chunks : list Chunk) (i : nat)
    : list (option Embedding) * list Chunk * list nat :=
  match chunks with
  | [] => ([], [], [])
  | chunk :: rest =>
      let '(embeddings, chunks_to_embed, chunk_indices) :=
        check_cache cache rest (S i) in
      match cache !! _get_content_hash (content chunk) with
      | Some e => (Some e :: embeddings, chunks_to_embed, chunk_indices)
      | None => (None :: embeddings, chunk :: chunks_to_embed, i :: chunk_indices)
      end
  end.

(** [for i in range(0, len(texts), batch_size)]: the batches
    [texts[i:i + batch_size]], for a positive [batch_size]. *)
Fixpoint batch_loop (fuel : nat) (texts : list pystr) (i batch_size : Z)
    : list (list pystr) :=
  match fuel with
  | O => []
  | S fuel' =>
      if (i <? len texts)%Z
      then py_slice texts i (i + batch_size)
           :: batch_loop fuel' texts (i + batch_size) batch_size
      else []
  end.

(** [_batch_encode]: the embeddings and the batches encoded; [None]
    when [range] raises for a zero step. A negative step gives an empty
    range. *)
Definition _batch_encode (self : LocalEmbedder) (texts : list pystr)
    : option (list Embedding * list (list pystr)) :=
  if (batch_size self =? 0)%Z then None
  else
    let batches :=
      if (batch_size self <? 0)%Z then []
      else batch_loop (length texts) texts 0 (batch_size self) in
    Some (concat (model_encode <$> batches), batches).

(** The second loop of [embed_chunks]: commit the new embeddings. *)
Definition commit_embedding
    (acc : gmap pystr Embedding * list (option Embedding))
    (item : Chunk * Embedding * nat)
    : gmap pystr Embedding * list (option Embedding) :=
  let '(chunk, embedding, idx) := item in
  (<[_get_content_hash (content chunk) := embedding]> acc.1,
   <[idx := Some embedding]> acc.2).

Definition embed_chunks (self : LocalEmbedder) (chunks : list Chunk)
    : option (list (option Embedding) * LocalEmbedder) :=
  let '(embeddings, chunks_to_embed, chunk_indices) :=
    check_cache (embedding_cache self) chunks 0 in
  match chunks_to_embed with
  | [] => Some (embeddings, self)
  | _ =>
      let texts := content <$> chunks_to_embed in
      '(new_embeddings, batches) ← _batch_encode self texts;
      let '(cache', embeddings') :=
        foldl commit_embedding (embedding_cache self, embeddings)
          (zip3 chunks_to_embed new_embeddings chunk_indices) in
      Some (embeddings',
            {| batch_size := batch_size self;
               embedding_cache := cache';
               encoded_batches := encoded_batches self ++ batches |})
  end.

(** [clear_cache] *)
Definition clear_cache (self : LocalEmbedder) : LocalEmbedder :=
  {| batch_size := batch_size self;
     embedding_cache := ∅;
     encoded_batches := encoded_batches self |}.

(** A sequence of [embed_chunks] calls on one embedder. *)
Fixpoint embed_calls (self : LocalEmbedder) (calls : list (list Chunk))
    : option LocalEmbedder :=
  match calls with
  | [] => Some self
  | chunks :: rest =>
      '(_, self') ← embed_chunks self chunks;
      embed_calls self' rest
  end.

(** How often the provider has been given [text] to encode. *)
Definition times_encoded (self : LocalEmbedder) (text : pystr) : nat :=
  length (filter (λ t, t = text) (concat (encoded_batches self))).

End Embedder.

(** ** intelligence.py: the relevance boost *)

Local Open Scope Q_scope.

(** [min(a, b)] on floats. *)
Definition py_minQ (a b : Q) : Q := if Qle_bool a b then a else b.

(** [max] of a non-empty sequence: the first maximal element. *)
Definition py_max_list (first : Q) (rest : list Q) : Q :=
  foldl (λ m x, if Qle_bool x m then m else x) first rest.

Inductive StatusType := COMPLETED | IN_PROGRESS | PENDING | PLANNING | UNKNOWN.

Definition StatusType_value (s : StatusType) : pystr :=
  match s with
  | COMPLETED => py "completed"
  | IN_PROGRESS => py "in_progress"
  | PENDING => py "pending"
  | PLANNING => py "planning"
  | UNKNOWN => py "unknown"
  end.

Inductive TimeContextType := CURRENT | UPCOMING | DEADLINE | HISTORICAL | RELATIVE.

Module CheckboxStatus.
Record t := mk {
  text : pystr;
  is_completed : bool;
  line_number : Z;
  context : pystr
}.
End CheckboxStatus.

Module StatusInfo.
Record t := mk {
  status_type : StatusType;
  completion_percentage : option Q;
  checkbox_indicators : list CheckboxStatus.t;
  progress_markers : list pystr;
  confidence : Q
}.
End StatusInfo.

(** A [datetime] is kept as seconds since the epoch. *)
Module TimeMarker.
Record t := mk {
  text : pystr;
  extracted_date : option Z;
  relative_time : option pystr;
  context_type : TimeContextType;
  confidence : Q
}.
End TimeMarker.

Module TemporalContext.
Record t := mk {
  time_markers : list TimeMarker.t;
  current_relevance : Q;
  phase_context : option pystr;
  urgency_score : Q
}.
End TemporalContext.

Module PriorityKeyword.
Record t := mk {
  keyword : pystr;
  boost_multiplier : Q;
  context : pystr;
  confidence : Q
}.
End PriorityKeyword.

Module PriorityMarkers.
Record t := mk {
  priority_keywords : list PriorityKeyword.t;
  business_hierarchy_level : Z;
  client_relevance_score : Q;
  urgency_indicators : list pystr
}.
End PriorityMarkers.

Record IntelligenceMetadata := mkIntelligence {
  status_info : StatusInfo.t;
  temporal_context : TemporalContext.t;
  priority_markers : PriorityMarkers.t;
  overall_boost : Q
}.

(** [config.get('intelligence', {})], the two keys read here. *)
Module IntelligenceConfig.
Record t := mk {
  enabled : option bool;
  boost_cap : option Q
}.
End IntelligenceConfig.

(** [hierarchy_boosts.get(level, 1.0)] *)
Definition hierarchy_boost (level : Z) : Q :=
  if (level =? 1)%Z then 13 # 10
  else if (level =? 2)%Z then 11 # 10
  else 1.

(** [PriorityScoringEngine.calculate_priority_multiplier] *)
Definition calculate_priority_multiplier (priority_markers : PriorityMarkers.t) : Q :=
  let base_multiplier := 1 in
  let base_multiplier :=
    match (λ keyword, PriorityKeyword.boost_multiplier keyword
                      * PriorityKeyword.confidence keyword)
          <$> PriorityMarkers.priority_keywords priority_markers with
    | [] => base_multiplier
    | first :: rest => base_multiplier * py_max_list first rest
    end in
  let base_multiplier :=
    base_multiplier
    * hierarchy_boost (PriorityMarkers.business_hierarchy_level priority_markers) in
  let base_multiplier :=
    if Qle_bool (PriorityMarkers.client_relevance_score priority_markers) 1
    then base_multiplier
    else base_multiplier
         * py_minQ (15 # 10) (PriorityMarkers.client_relevance_score priority_markers) in
  let base_multiplier :=
    match PriorityMarkers.urgency_indicators priority_markers with
    | [] => base_multiplier
    | indicators =>
        let urgency_boost :=
          py_minQ (13 # 10) (1 + inject_Z (len indicators) * (1 # 10)) in
        base_multiplier * urgency_boost
    end in
  let intelligence_boost_cap := 3 in
  py_minQ intelligence_boost_cap base_multiplier.

(** [IntelligenceProcessor._calculate_overall_boost] *)
Definition _calculate_overall_boost (config : IntelligenceConfig.t)
    (status_info : StatusInfo.t) (temporal_context : TemporalContext.t)
    (priority_markers : PriorityMarkers.t) : Q :=
  let boost := 1 in
  let boost :=
    match StatusInfo.status_type status_info with
    | IN_PROGRESS => boost * (14 # 10)
    | PENDING => boost * (12 # 10)
    | COMPLETED => boost * (8 # 10)
    | _ => boost
    end in
  let boost := boost * (1 + TemporalContext.current_relevance temporal_context * (5 # 10)) in
  let boost := boost * (1 + TemporalContext.urgency_score temporal_context * (3 # 10)) in
  let priority_multiplier := calculate_priority_multiplier priority_markers in
  let boost := boost * priority_multiplier in
  let max_boost := default 3 (IntelligenceConfig.boost_cap config) in
  py_minQ max_boost boost.

(** [IntelligenceProcessor._create_default_metadata] *)
Definition _create_default_metadata : IntelligenceMetadata :=
  {| status_info := StatusInfo.mk UNKNOWN None [] [] 0;
     temporal_context := TemporalContext.mk [] (5 # 10) None 0;
     priority_markers := PriorityMarkers.mk [] 3 0 [];
     overall_boost := 1 |}.

Section Intelligence.

(** The three extractors; [None] when the extraction raises. *)
Variable parse_chunk_status : pystr → option StatusInfo.t.
Variable extract_temporal_context : pystr → pystr → option TemporalContext.t.
Variable extract_priority_markers : pystr → pystr → option PriorityMarkers.t.

(** [IntelligenceProcessor.process_chunk_intelligence]: an exception of
    an extractor is caught and answered with the default metadata. *)
Definition process_chunk_intelligence (config : IntelligenceConfig.t)
    (content document_path : pystr) : IntelligenceMetadata :=
  if negb (default true (IntelligenceConfig.enabled config))
  then _create_default_metadata
  else
    match parse_chunk_status content,
          extract_temporal_context content document_path,
          extract_priority_markers content document_path with
    | Some status_info, Some temporal_context, Some priority_markers =>
        {| status_info := status_info;
           temporal_context := temporal_context;
           priority_markers := priority_markers;
           overall_boost :=
             _calculate_overall_boost config status_info temporal_context
               priority_markers |}
    | _, _, _ => _create_default_metadata
    end.

End Intelligence.

Local Close Scope Q_scope.

(** ** searcher.py: [SearchResult] and the fusion of the two legs *)

(** The three literals [relevance_type] takes in the repository. *)
Inductive RelevanceType := semantic | keyword | hybrid.

Global Instance RelevanceType_eq_dec : EqDecision RelevanceType.
Proof. solve_decision. Defined.

Record SearchResult := mkResult {
  chunk : Chunk;
  score : Q;
  relevance_type : RelevanceType;
  citation : pystr;
  intelligence_metadata : option IntelligenceMetadata;
  enhanced_score : Q
}.

(** [SearchResult.__init__] *)
Definition SearchResult_init (lower : pystr → pystr) (chunk : Chunk) (score : Q)
    (relevance_type : RelevanceType) : SearchResult :=
  {| chunk := chunk;
     score := score;
     relevance_type := relevance_type;
     citation := generate_citation lower chunk;
     intelligence_metadata := None;
     enhanced_score := score |}.

Definition set_score (r : SearchResult) (s : Q) : SearchResult :=
  {| chunk := chunk r; score := s; relevance_type := relevance_type r;
     citation := citation r; intelligence_metadata := intelligence_metadata r;
     enhanced_score := enhanced_score r |}.

Definition set_relevance_type (r : SearchResult) (t : RelevanceType) : SearchResult :=
  {| chunk := chunk r; score := score r; relevance_type := t;
     citation := citation r; intelligence_metadata := intelligence_metadata r;
     enhanced_score := enhanced_score r |}.

Definition set_enhanced_score (r : SearchResult) (s : Q) : SearchResult :=
  {| chunk := chunk r; score := score r; relevance_type := relevance_type r;
     citation := citation r; intelligence_metadata := intelligence_metadata r;
     enhanced_score := s |}.

(** Search results are objects: the lists of the two legs hold references
    into a store, and [_combine_results] writes through them. *)
Abbreviation loc := nat.
Abbreviation store := (gmap nat SearchResult).

(** [combined_map]: a [dict] from chunk id to result object, in insertion
    order. *)
Abbreviation combined := (list (pystr * nat)).

Fixpoint dict_get {V} (m : list (pystr * V)) (k : pystr) : option V :=
  match m with
  | [] => None
  | (k', v) :: rest => if decide (k' = k) then Some v else dict_get rest k
  end.

(** The body of [for result in semantic_results]. *)
Definition combine_semantic (alpha : Q) (acc : store * combined) (result : loc)
    : store * combined :=
  let '(st, combined_map) := acc in
  match st !! result with
  | None => acc
  | Some r =>
      let cid := chunk_id (chunk r) in
      match dict_get combined_map cid with
      | None =>
          (<[result := set_score r (score r * alpha)%Q]> st,
           combined_map ++ [(cid, result)])
      | Some target =>
          match st !! target with
          | None => acc
          | Some r0 =>
              (<[target := set_score r0 (score r0 + score r * alpha)%Q]> st,
               combined_map)
          end
      end
  end.

(** The body of [for result in keyword_results]. *)
Definition combine_keyword (alpha : Q) (acc : store * combined) (result : loc)
    : store * combined :=
  let '(st, combined_map) := acc in
  match st !! result with
  | None => acc
  | Some r =>
      let cid := chunk_id (chunk r) in
      match dict_get combined_map cid with
      | None =>
          (<[result := set_relevance_type (set_score r (score r * (1 - alpha))%Q) keyword]> st,
           combined_map ++ [(cid, result)])
      | Some target =>
          match st !! target with
          | None => acc
          | Some r0 =>
              (<[target := set_relevance_type
                             (set_score r0 (score r0 + score r * (1 - alpha))%Q) hybrid]> st,
               combined_map)
          end
      end
  end.

(** [HybridSearcher._combine_results]: the store after the two loops and
    [list(combined_map.values())]. *)
Definition _combine_results (st : store) (semantic_results keyword_results : list loc)
    (alpha : Q) : store * list loc :=
  let acc := foldl (combine_semantic alpha) (st, []) semantic_results in
  let '(st', combined_map) := foldl (combine_keyword alpha) acc keyword_results in
  (st', combined_map.*2).

(** The results a list of references denotes. *)
Definition deref (st : store) (l : list loc) : list SearchResult :=
  omap (λ x, st !! x) l.

(** The result a list holds for a chunk id (the first, if several). *)
Definition result_for (st : store) (l : list loc) (cid : pystr) : option SearchResult :=
  snd <$> list_find (λ r, chunk_id (chunk r) = cid) (deref st l).

(** The chunk ids of the results of a list. *)
Definition result_ids (st : store) (l : list loc) : list pystr :=
  (λ r, chunk_id (chunk r)) <$> deref st l.

(** What a leg returns: every reference names an object of the store, no
    object twice, and one result per chunk id (the ids are keys of the
    collection). *)
Definition leg_results (st : store) (l : list loc) : Prop :=
  NoDup l ∧ (∀ x, x ∈ l → is_Some (st !! x)) ∧ NoDup (result_ids st l).

(** Fresh objects for a list of results, as a leg builds them: the next
    free locations of the store. *)
Definition alloc (st : store) (base : nat) (rs : list SearchResult) : store * list loc :=
  (foldl (λ s '(i, r), <[base + i := r]> s) st (imap (λ i r, (i, r)) rs),
   seq base (length rs)).

(** ** searcher.py: [HybridSearcher] *)

(** What a call of the searcher can raise: its own [ValueError] for a
    collection that was never created or loaded, or whatever a
    collaborator (ChromaDB, the embedder) raised. *)
Inductive SearchError (ProviderFailure : Type) :=
| CollectionNotInitialized
| Raised (e : ProviderFailure).
Arguments CollectionNotInitialized {_}.
Arguments Raised {_} e.

(** The attributes of a [HybridSearcher]; [collection] is [None] until
    [create_or_load_collection] has run. A ChromaDB collection object is
    truthy: its class defines neither [__bool__] nor [__len__]. *)
Record HybridSearcher (Collection : Type) := mkSearcher {
  collection : option Collection;
  top_k : Z;
  relevance_threshold : Q;
  hybrid_alpha : Q;
  intelligence_enabled : bool;
  intelligence_config : IntelligenceConfig.t
}.
Arguments mkSearcher {_}.
Arguments collection {_}.
Arguments top_k {_}.
Arguments relevance_threshold {_}.
Arguments hybrid_alpha {_}.
Arguments intelligence_enabled {_}.
Arguments intelligence_config {_}.

(** One row handed to [collection.add]. *)
Record AddRow := mkAddRow {
  add_id : pystr;
  add_embedding : option Embedding;
  add_document : pystr;
  add_metadata : gmap pystr MetaVal
}.

(** [_sanitize_query] *)
Definition _sanitize_query (query : pystr) : pystr :=
  if negb (truthy query) then []
  else
    let sanitized :=
      filter (λ c, c ∉ [60; 62; 34; 39]%N) query in
    let max_length := 1000%Z in
    let sanitized :=
      if (len sanitized >? max_length)%Z then py_slice sanitized 0 max_length
      else sanitized in
    let sanitized := join (py " ") (split_ws sanitized) in
    strip sanitized.

(** [list.sort(key=lambda x: x.enhanced_score, reverse=True)]: stable,
    descending. *)
Fixpoint insert_by_enhanced (x : SearchResult) (l : list SearchResult)
    : list SearchResult :=
  match l with
  | [] => [x]
  | y :: t =>
      if Qle_bool (enhanced_score y) (enhanced_score x) then x :: y :: t
      else y :: insert_by_enhanced x t
  end.

Definition sort_by_enhanced (l : list SearchResult) : list SearchResult :=
  foldr insert_by_enhanced [] l.

Section Searcher.

Variable Collection : Type.
Variable ProviderFailure : Type.
Variable Filters : Type.

(** ChromaDB. *)
Variable chroma_get_collection : pystr → ProviderFailure + Collection.
Variable chroma_create_collection : pystr → ProviderFailure + Collection.
Variable collection_add : Collection → list AddRow → ProviderFailure + Collection.
Variable collection_ids_of_document : Collection → pystr → ProviderFailure + list pystr.
Variable collection_delete : Collection → list pystr → ProviderFailure + Collection.

(** The two legs and the two boosts, over the results as values. *)
Variable _semantic_search :
  Collection → pystr → option pystr → option Filters
  → ProviderFailure + list SearchResult.
Variable _keyword_search :
  Collection → pystr → option pystr → ProviderFailure + list SearchResult.
Variable _apply_domain_boost : list SearchResult → pystr → list SearchResult.
Variable _apply_intelligence_boost :
  list SearchResult → pystr → option Filters → list SearchResult.

(** The extractors of intelligence.py. *)
Variable parse_chunk_status : pystr → option StatusInfo.t.
Variable extract_temporal_context : pystr → pystr → option TemporalContext.t.
Variable extract_priority_markers : pystr → pystr → option PriorityMarkers.t.

(** [HybridSearcher.__init__]: no collection yet. *)
Definition HybridSearcher_init (top_k : Z) (relevance_threshold hybrid_alpha : Q)
    (intelligence : IntelligenceConfig.t) : HybridSearcher Collection :=
  mkSearcher None top_k relevance_threshold hybrid_alpha
    (default true (IntelligenceConfig.enabled intelligence)) intelligence.

Definition create_or_load_collection (self : HybridSearcher Collection)
    (collection_name : pystr)
    : SearchError ProviderFailure + HybridSearcher Collection :=
  let with_collection c :=
    mkSearcher (Some c) (top_k self) (relevance_threshold self)
      (hybrid_alpha self) (intelligence_enabled self) (intelligence_config self) in
  match chroma_get_collection collection_name with
  | inr c => inr (with_collection c)
  | inl _ =>
      match chroma_create_collection collection_name with
      | inr c => inr (with_collection c)
      | inl e => inl (Raised e)
      end
  end.

(** The metadata [add_chunks] stores with a chunk.
    [process_chunk_intelligence] catches what its extractors raise, so
    the [except] branch around it is not reached. *)
Definition chunk_metadata (self : HybridSearcher Collection) (chunk : Chunk)
    : gmap pystr MetaVal :=
  let metadata : gmap pystr MetaVal :=
    <[py "size_category" :=
        default (MStr (size_category_str Green)) (metadata chunk !! py "size_category")]>
    (<[py "end_line" := MInt (end_line chunk)]>
    (<[py "start_line" := MInt (start_line chunk)]>
    (<[py "navigation_path" := MStr (navigation_path chunk)]>
    (<[py "section_header" := MStr (section_header chunk)]>
    (<[py "document_path" := MStr (document_path chunk)]> ∅))))) in
  if intelligence_enabled self then
    let intelligence_metadata :=
      process_chunk_intelligence parse_chunk_status extract_temporal_context
        extract_priority_markers (intelligence_config self)
        (content chunk) (document_path chunk) in
    <[py "priority_level" :=
        MInt (PriorityMarkers.business_hierarchy_level
                (priority_markers intelligence_metadata))]>
    (<[py "urgency_score" :=
        MNum (TemporalContext.urgency_score (temporal_context intelligence_metadata))]>
    (<[py "current_relevance" :=
        MNum (TemporalContext.current_relevance (temporal_context intelligence_metadata))]>
    (<[py "status_type" :=
        MStr (StatusType_value (StatusInfo.status_type (status_info intelligence_metadata)))]>
    (<[py "intelligence_boost" := MNum (overall_boost intelligence_metadata)]> metadata))))
  else metadata.

(** The parallel lists [ids], [embeddings], [documents] and [metadatas]
    handed to [collection.add], row by row. *)
Definition add_rows (self : HybridSearcher Collection) (chunks : list Chunk)
    (embeddings : list (option Embedding)) : list AddRow :=
  imap (λ i chunk,
          mkAddRow (chunk_id chunk) (mjoin (embeddings !! i)) (content chunk)
            (chunk_metadata self chunk))
       chunks.

Definition add_chunks (self : HybridSearcher Collection) (chunks : list Chunk)
    (embeddings : list (option Embedding))
    : SearchError ProviderFailure + HybridSearcher Collection :=
  match collection self with
  | None => inl CollectionNotInitialized
  | Some c =>
      match collection_add c (add_rows self chunks embeddings) with
      | inl e => inl (Raised e)
      | inr c' =>
          inr (mkSearcher (Some c') (top_k self) (relevance_threshold self)
                 (hybrid_alpha self) (intelligence_enabled self)
                 (intelligence_config self))
      end
  end.

Definition delete_document (self : HybridSearcher Collection) (document_path : pystr)
    : SearchError ProviderFailure + HybridSearcher Collection :=
  match collection self with
  | None => inr self
  | Some c =>
      match collection_ids_of_document c document_path with
      | inl e => inl (Raised e)
      | inr [] => inr self
      | inr ids =>
          match collection_delete c ids with
          | inl e => inl (Raised e)
          | inr c' =>
              inr (mkSearcher (Some c') (top_k self) (relevance_threshold self)
                     (hybrid_alpha self) (intelligence_enabled self)
                     (intelligence_config self))
          end
      end
  end.

Definition search (self : HybridSearcher Collection) (query : pystr)
    (domain : option pystr) (filters intelligence_filters : option Filters)
    : SearchError ProviderFailure + list SearchResult :=
  match collection self with
  | None => inl CollectionNotInitialized
  | Some c =>
      let query := _sanitize_query query in
      match _semantic_search c query domain filters with
      | inl e => inl (Raised e)
      | inr semantic_values =>
          match _keyword_search c query domain with
          | inl e => inl (Raised e)
          | inr keyword_values =>
              (* each leg has built its results as new objects *)
              let '(st, semantic_results) := alloc ∅ 0 semantic_values in
              let '(st, keyword_results) :=
                alloc st (length semantic_values) keyword_values in
              let '(st, combined) :=
                _combine_results st semantic_results keyword_results
                  (hybrid_alpha self) in
              let combined_results := deref st combined in
              let combined_results :=
                match domain with
                | Some d =>
                    if truthy d then _apply_domain_boost combined_results d
                    else combined_results
                | None => combined_results
                end in
              let combined_results :=
                if intelligence_enabled self
                then _apply_intelligence_boost combined_results query
                       intelligence_filters
                else (λ r, set_enhanced_score r (score r)) <$> combined_results in
              let combined_results := sort_by_enhanced combined_results in
              let filtered_results :=
                filter (λ r, Qle_bool (relevance_threshold self) (enhanced_score r) = true)
                  combined_results in
              inr (py_slice filtered_results 0 (top_k self))
          end
      end
  end.

End Searcher.

(** ** indexer.py: [IncrementalIndexer] *)

(** One entry of a scan and of the persisted index state. *)
Module FileMeta.
Record t := mk {
  absolute_path : pystr;
  hash : pystr;
  mtime : Q;
  size : Z
}.
End FileMeta.

(** What opening and reading a file as UTF-8 does; after a
    [UnicodeDecodeError] the file is read again as Latin-1, which gives a
    text or raises. *)
Inductive ReadOutcome :=
| ReadText (content : pystr)
| ReadFileNotFound
| ReadUnicodeDecodeError (latin1 : option pystr)
| ReadPermissionError
| ReadOtherError.

(** The file [index_state.json]. *)
Inductive IndexStateFile :=
| StateMissing
| StateUnreadable
| StateStored (state : gmap pystr FileMeta.t).

(** The calls that change the chunks of the collection, as the log of
    the indexer names them. *)
Inductive ChunkOp :=
| RemovedChunks (file_path : pystr)
| AddedChunks (file_path : pystr).

(** A call either does not return, or raises, or returns. *)
Inductive Outcome (E A : Type) :=
| Diverged
| Failed (e : E)
| Returned (a : A).
Arguments Diverged {_ _}.
Arguments Failed {_ _} e.
Arguments Returned {_ _} a.

(** An [IncrementalIndexer] with its three components, the file system it
    looks at ([scan] is what [_scan_memory_bank] returns, [read_file]
    what reading an absolute path gives), the state file and the trace of
    chunk operations. *)
Record IncrementalIndexer (Collection : Type) := mkIndexer {
  chunker : MemoryBankChunker;
  embedder : LocalEmbedder;
  searcher : HybridSearcher Collection;
  scan : gmap pystr FileMeta.t;
  read_file : pystr → ReadOutcome;
  index_state_file : IndexStateFile;
  chunk_ops : list ChunkOp
}.
Arguments mkIndexer {_}.
Arguments chunker {_}.
Arguments embedder {_}.
Arguments searcher {_}.
Arguments scan {_}.
Arguments read_file {_}.
Arguments index_state_file {_}.
Arguments chunk_ops {_}.

(** [IncrementalIndexer.detect_changes] on a scan and a previous state:
    [(new_files, modified_files, deleted_files)]. A Python [set] has no
    order that the program fixes; [elements] stands for the order the
    interpreter happens to produce. *)
Definition detect_changes_of (current_state previous_state : gmap pystr FileMeta.t)
    : list pystr * list pystr * list pystr :=
  let current_files : gset pystr := dom current_state in
  let previous_files : gset pystr := dom previous_state in
  let new_files := elements (current_files ∖ previous_files) in
  let deleted_files := elements (previous_files ∖ current_files) in
  let modified_files :=
    filter (λ file_path,
              FileMeta.hash <$> current_state !! file_path
              ≠ FileMeta.hash <$> previous_state !! file_path)
           (elements (current_files ∩ previous_files)) in
  (new_files, modified_files, deleted_files).

Section Indexer.

Variable Collection : Type.
Variable ProviderFailure : Type.

Variable section_regex_match : pystr → bool.
Variable md5_hexdigest : pystr → pystr.
Variable model_encode : list pystr → list Embedding.

Variable collection_add : Collection → list AddRow → ProviderFailure + Collection.
Variable collection_ids_of_document : Collection → pystr → ProviderFailure + list pystr.
Variable collection_delete : Collection → list pystr → ProviderFailure + Collection.

Variable parse_chunk_status : pystr → option StatusInfo.t.
Variable extract_temporal_context : pystr → pystr → option TemporalContext.t.
Variable extract_priority_markers : pystr → pystr → option PriorityMarkers.t.

Abbreviation Indexer := (IncrementalIndexer Collection).

(** [_load_index_state]: an absent or unreadable file is an empty state. *)
Definition _load_index_state (self : Indexer) : gmap pystr FileMeta.t :=
  match index_state_file self with
  | StateStored state => state
  | _ => ∅
  end.

Definition _scan_memory_bank (self : Indexer) : gmap pystr FileMeta.t := scan self.

Definition detect_changes (self : Indexer) : list pystr * list pystr * list pystr :=
  let current_state := _scan_memory_bank self in
  let previous_state := _load_index_state self in
  detect_changes_of current_state previous_state.

Definition with_searcher (self : Indexer) (s : HybridSearcher Collection)
    (op : ChunkOp) : Indexer :=
  mkIndexer (chunker self) (embedder self) s (scan self) (read_file self)
    (index_state_file self) (chunk_ops self ++ [op]).

(** [for file_path in files: self.searcher.delete_document(file_path)];
    an exception of the collection leaves the loop. *)
Fixpoint delete_documents (self : Indexer) (files : list pystr)
    : SearchError ProviderFailure + Indexer :=
  match files with
  | [] => inr self
  | file_path :: rest =>
      match delete_document Collection ProviderFailure collection_ids_of_document
              collection_delete (searcher self) file_path with
      | inl e => inl e
      | inr s => delete_documents (with_searcher self s (RemovedChunks file_path)) rest
      end
  end.

(** The text of a file, when the two attempts to read it give one. *)
Definition file_text (outcome : ReadOutcome) : option pystr :=
  match outcome with
  | ReadText content => Some content
  | ReadUnicodeDecodeError (Some content) => Some content
  | _ => None
  end.

(** The body of the loop over [files_to_index]: the indexer afterwards
    and whether the file counted as indexed. Everything raised inside
    is caught and logged; [None] when the chunker does not return. *)
Definition index_file (self : Indexer) (current_state : gmap pystr FileMeta.t)
    (file_path : pystr) : option (Indexer * Z) :=
  match current_state !! file_path with
  | None => Some (self, 0%Z)
  | Some meta =>
      match file_text (read_file self (FileMeta.absolute_path meta)) with
      | None => Some (self, 0%Z)
      | Some content =>
          if negb (truthy (strip content)) then Some (self, 0%Z)
          else
            chunks ← chunk_document section_regex_match md5_hexdigest
                       (chunker self) file_path content;
            match chunks with
            | [] => Some (self, 0%Z)
            | _ =>
                match embed_chunks md5_hexdigest model_encode (embedder self) chunks with
                | None => Some (self, 0%Z)
                | Some (embeddings, embedder') =>
                    let self' :=
                      mkIndexer (chunker self) embedder' (searcher self) (scan self)
                        (read_file self) (index_state_file self) (chunk_ops self) in
                    match add_chunks Collection ProviderFailure collection_add
                            parse_chunk_status extract_temporal_context
                            extract_priority_markers (searcher self) chunks embeddings with
                    | inl _ => Some (self', 0%Z)
                    | inr s => Some (with_searcher self' s (AddedChunks file_path), 1%Z)
                    end
                end
            end
      end
  end.

Fixpoint index_files (self : Indexer) (current_state : gmap pystr FileMeta.t)
    (files : list pystr) (indexed_count : Z) : option (Indexer * Z) :=
  match files with
  | [] => Some (self, indexed_count)
  | file_path :: rest =>
      '(self', n) ← index_file self current_state file_path;
      index_files self' current_state rest (indexed_count + n)%Z
  end.

Definition _save_index_state (self : Indexer) (state : gmap pystr FileMeta.t)
    : Indexer :=
  mkIndexer (chunker self) (embedder self) (searcher self) (scan self)
    (read_file self) (StateStored state) (chunk_ops self).

Definition incremental_index (self : Indexer)
    : Outcome (SearchError ProviderFailure) (Z * Indexer) :=
  let '(new_files, modified_files, deleted_files) := detect_changes self in
  let total_changes := (len new_files + len modified_files + len deleted_files)%Z in
  if (total_changes =? 0)%Z then Returned (0%Z, self)
  else
    match delete_documents self deleted_files with
    | inl e => Failed e
    | inr self1 =>
        match delete_documents self1 modified_files with
        | inl e => Failed e
        | inr self2 =>
            let files_to_index := new_files ++ modified_files in
            let current_state := _scan_memory_bank self2 in
            match index_files self2 current_state files_to_index 0 with
            | None => Diverged
            | Some (self3, indexed_count) =>
                Returned (indexed_count, _save_index_state self3 current_state)
            end
        end
    end.

End Indexer.

(** ** searcher.py: the keyword leg and the boosts *)

(** [sub in s] on strings. *)
Fixpoint contains (s sub : pystr) : bool :=
  startswith s sub
  || match s with
     | [] => false
     | _ :: t => contains t sub
     end.

(** [any(term in s for term in terms)] *)
Definition contains_any (s : pystr) (terms : list pystr) : bool :=
  existsb (contains s) terms.

(** A metadata value in arithmetic: a string raises [TypeError]. *)
Definition meta_number (v : MetaVal) : option Q :=
  match v with
  | MStr _ => None
  | MInt n => Some (inject_Z n)
  | MNum q => Some q
  end.

(** [v == 'literal'] for a metadata value. *)
Definition meta_is (v : MetaVal) (literal : pystr) : bool :=
  match v with
  | MStr s => bool_decide (s = literal)
  | _ => false
  end.

(** [a == b] on metadata values: strings by their characters, numbers by
    their value, a string never equals a number. *)
Definition meta_eqb (a b : MetaVal) : bool :=
  match a, b with
  | MStr s, MStr t => bool_decide (s = t)
  | MStr _, _ | _, MStr _ => false
  | _, _ =>
      match meta_number a, meta_number b with
      | Some x, Some y => Qeq_bool x y
      | _, _ => false
      end
  end.

(** [a < b] on strings: by code points, a proper prefix is smaller. *)
Fixpoint str_ltb (a b : pystr) : bool :=
  match a, b with
  | _, [] => false
  | [], _ :: _ => true
  | x :: a', y :: b' => (x <? y)%N || ((x =? y)%N && str_ltb a' b')
  end.

(** [a < b] on metadata values; a string against a number raises
    [TypeError]. *)
Definition meta_ltb (a b : MetaVal) : option bool :=
  match a, b with
  | MStr s, MStr t => Some (str_ltb s t)
  | MStr _, _ | _, MStr _ => None
  | _, _ =>
      x ← meta_number a; y ← meta_number b;
      Some (negb (Qle_bool y x))
  end.

(** One entry of [config['domains']]. *)
Module DomainConfig.
Record t := mk {
  files : list pystr;
  keywords : list pystr;
  boost : Q
}.
End DomainConfig.

(** One row of [collection.get]: id, document and metadata. *)
Record StoredRow := mkStoredRow {
  row_id : pystr;
  row_document : pystr;
  row_metadata : gmap pystr MetaVal
}.

(** [metadata[key]] where the chunk is rebuilt from a row: [None] is the
    [KeyError] of a missing key. The rows of the collection are rows
    [add_chunks] stored, so the paths and the header are strings and the
    line numbers integers. *)
Definition meta_str (metadata : gmap pystr MetaVal) (key : pystr) : option pystr :=
  match metadata !! key with
  | Some (MStr s) => Some s
  | _ => None
  end.

Definition meta_int (metadata : gmap pystr MetaVal) (key : pystr) : option Z :=
  match metadata !! key with
  | Some (MInt n) => Some n
  | _ => None
  end.

(** The [Chunk(...)] rebuilt from a row. *)
Definition row_chunk (row : StoredRow) : option Chunk :=
  let metadata := row_metadata row in
  document_path ← meta_str metadata (py "document_path");
  section_header ← meta_str metadata (py "section_header");
  navigation_path ← meta_str metadata (py "navigation_path");
  start_line ← meta_int metadata (py "start_line");
  end_line ← meta_int metadata (py "end_line");
  Some (mkChunk (row_id row) document_path section_header (row_document row)
          navigation_path start_line end_line metadata).

Local Open Scope Q_scope.

Section Boosts.

(** [str.lower] *)
Variable lower : pystr → pystr.
(** [self.domains] *)
Variable domains : gmap pystr DomainConfig.t.

(** [_apply_query_specific_boost]; [None] when a metadata value that is
    not a number is used as one. *)
Definition _apply_query_specific_boost (base_score : Q) (query : pystr)
    (status_type current_relevance urgency_score : MetaVal) : option Q :=
  let query_lower := lower query in
  let boost := base_score in
  boost ←
    (if contains_any query_lower [py "current"; py "active"; py "now"; py "today"]
     then
       let boost := if meta_is status_type (py "in_progress")
                    then boost * (15 # 10) else boost in
       relevance ← meta_number current_relevance;
       Some (boost * (1 + relevance * (5 # 10)))
     else Some boost);
  boost ←
    (if contains_any query_lower [py "urgent"; py "priority"; py "critical"; py "deadline"]
     then
       urgency ← meta_number urgency_score;
       Some (boost * (1 + urgency * (7 # 10)))
     else Some boost);
  let boost :=
    if contains_any query_lower [py "andrew"; py "client"; py "engagement"; py "sprint"]
    then boost * (13 # 10) else boost in
  let boost :=
    if contains_any query_lower [py "completed"; py "done"; py "finished"]
    then (if meta_is status_type (py "completed") then boost * (14 # 10) else boost)
    else boost in
  Some boost.

(** [_passes_intelligence_filters]; [None] when a comparison raises. *)
Definition _passes_intelligence_filters (chunk_metadata intelligence_filters
    : gmap pystr MetaVal) : option bool :=
  let status_fails :=
    match intelligence_filters !! py "status_type" with
    | Some required_status =>
        let chunk_status :=
          default (MStr (py "unknown")) (chunk_metadata !! py "status_type") in
        negb (meta_eqb chunk_status required_status)
    | None => false
    end in
  if status_fails then Some false
  else
    level_fails ←
      match intelligence_filters !! py "max_priority_level" with
      | Some max_level =>
          let chunk_level := default (MInt 3) (chunk_metadata !! py "priority_level") in
          meta_ltb max_level chunk_level
      | None => Some false
      end;
    if level_fails : bool then Some false
    else
      urgency_fails ←
        match intelligence_filters !! py "min_urgency_score" with
        | Some min_urgency =>
            let chunk_urgency :=
              default (MNum 0) (chunk_metadata !! py "urgency_score") in
            meta_ltb chunk_urgency min_urgency
        | None => Some false
        end;
      if urgency_fails : bool then Some false
      else
        relevance_fails ←
          match intelligence_filters !! py "min_current_relevance" with
          | Some min_relevance =>
              let chunk_relevance :=
                default (MNum (5 # 10)) (chunk_metadata !! py "current_relevance") in
              meta_ltb chunk_relevance min_relevance
          | None => Some false
          end;
        Some (negb relevance_fails).

(** The body of the [try] of [_apply_intelligence_boost] for one result:
    [None] when it raises, [Some None] when the result is skipped. *)
Definition intelligence_boost_attempt (result : SearchResult) (query : pystr)
    (intelligence_filters : option (gmap pystr MetaVal))
    : option (option SearchResult) :=
  let chunk_metadata := metadata (chunk result) in
  let intelligence_boost := default (MNum 1) (chunk_metadata !! py "intelligence_boost") in
  let status_type := default (MStr (py "unknown")) (chunk_metadata !! py "status_type") in
  let current_relevance :=
    default (MNum (5 # 10)) (chunk_metadata !! py "current_relevance") in
  let urgency_score := default (MNum 0) (chunk_metadata !! py "urgency_score") in
  factor ← meta_number intelligence_boost;
  let enhanced_score := score result * factor in
  enhanced_score ←
    _apply_query_specific_boost enhanced_score query status_type current_relevance
      urgency_score;
  passes ←
    match intelligence_filters with
    | Some filters =>
        if bool_decide (filters ≠ ∅)
        then _passes_intelligence_filters chunk_metadata filters
        else Some true
    | None => Some true
    end;
  Some (if passes : bool then Some (set_enhanced_score result enhanced_score) else None).

(** [_apply_intelligence_boost]: a result whose [try] raises is kept
    with its score as enhanced score. *)
Definition _apply_intelligence_boost (results : list SearchResult) (query : pystr)
    (intelligence_filters : option (gmap pystr MetaVal)) : list SearchResult :=
  omap (λ result,
          match intelligence_boost_attempt result query intelligence_filters with
          | Some outcome => outcome
          | None => Some (set_enhanced_score result (score result))
          end)
       results.

(** [_apply_domain_boost]: the score of a result from a file of the
    domain is multiplied once. *)
Definition _apply_domain_boost (results : list SearchResult) (domain : pystr)
    : list SearchResult :=
  match domains !! domain with
  | None => results
  | Some cfg =>
      (λ result,
         if existsb (λ domain_file, contains (document_path (chunk result)) domain_file)
              (DomainConfig.files cfg)
         then set_score result (score result * DomainConfig.boost cfg)
         else result)
      <$> results
  end.

(** The domain of a query, when it is given and configured. *)
Definition known_domain (domain : option pystr) : option DomainConfig.t :=
  match domain with
  | Some d => if truthy d then domains !! d else None
  | None => None
  end.

(** The body of the loop of [_keyword_search] for one row: [None] when
    a key of the metadata is missing, [Some None] when the row gives no
    result. *)
Definition keyword_row (keywords : list pystr) (domain_files : option (list pystr))
    (row : StoredRow) : option (option SearchResult) :=
  let content := lower (row_document row) in
  let metadata := row_metadata row in
  skipped ←
    match domain_files with
    | Some (_ :: _ as files) =>
        match metadata !! py "document_path" with
        | None => None
        | Some (MStr path) => Some (bool_decide (path ∉ files))
        | Some _ => Some true
        end
    | _ => Some false
    end;
  if skipped : bool then Some None
  else
    let match_count := len (filter (λ keyword, contains content keyword = true) keywords) in
    if (match_count >? 0)%Z then
      let score := inject_Z match_count / inject_Z (len keywords) in
      chunk ← row_chunk row;
      Some (Some (SearchResult_init lower chunk score keyword))
    else Some None.

Fixpoint keyword_rows (keywords : list pystr) (domain_files : option (list pystr))
    (rows : list StoredRow) : option (list SearchResult) :=
  match rows with
  | [] => Some []
  | row :: rest =>
      outcome ← keyword_row keywords domain_files row;
      search_results ← keyword_rows keywords domain_files rest;
      Some (match outcome with
            | Some result => result :: search_results
            | None => search_results
            end)
  end.

(** [_keyword_search] on the rows [collection.get(limit=1000)] returned. *)
Definition _keyword_search (all_results : list StoredRow) (query : pystr)
    (domain : option pystr) : option (list SearchResult) :=
  let keywords := split_ws (lower query) in
  let '(keywords, domain_files) :=
    match known_domain domain with
    | Some cfg => (keywords ++ DomainConfig.keywords cfg, Some (DomainConfig.files cfg))
    | None => (keywords, None)
    end in
  keyword_rows keywords domain_files all_results.

End Boosts.

Local Close Scope Q_scope.

(** ** indexer.py: [verify_index] *)

(** The entries of [results['issues']]. *)
Inductive Issue :=
| IndexStateFileMissing
| IndexedFileNoLongerExists (file_path : pystr)
| FileNotIndexed (file_path : pystr).

Section VerifyIndex.

Variable Collection : Type.
(** What [get_statistics] returns. *)
Variable Statistics : Type.
(** [self.searcher.get_statistics()]; [None] when it raises. *)
Variable get_statistics : HybridSearcher Collection → option Statistics.

(** [verify_index]: [(valid, issues, statistics)]. The keys of a [dict]
    are gone through in the order [elements] stands for. *)
Definition verify_index (self : IncrementalIndexer Collection)
    : option (bool * list Issue * Statistics) :=
  let '(valid, issues) :=
    match index_state_file self with
    | StateMissing => (false, [IndexStateFileMissing])
    | _ => (true, [])
    end in
  stats ← get_statistics (searcher self);
  let index_state := _load_index_state Collection self in
  let current_files := _scan_memory_bank Collection self in
  let gone :=
    filter (λ file_path, file_path ∉ dom current_files)
      (elements (dom index_state : gset pystr)) in
  let valid := match gone with [] => valid | _ => false end in
  let issues := issues ++ (IndexedFileNoLongerExists <$> gone) in
  let unindexed :=
    filter (λ file_path, file_path ∉ dom index_state)
      (elements (dom current_files : gset pystr)) in
  let issues := issues ++ (FileNotIndexed <$> unindexed) in
  Some (valid, issues, stats).

End VerifyIndex.

(** ** intelligence.py: the extractors *)

Local Open Scope Q_scope.

(** [min] of a non-empty sequence of integers. *)
Definition py_min_listZ (first : Z) (rest : list Z) : Z :=
  foldl (λ m x, if (x <? m)%Z then x else m) first rest.

(** The checkbox patterns, as searches for their literals: [\[x\]] with
    [re.IGNORECASE] finds [[x]] and [[X]]. *)
Definition matches_completed (line : pystr) : bool :=
  contains line (py "[x]") || contains line (py "[X]") || contains line [9989%N].
Definition matches_in_progress (line : pystr) : bool :=
  contains line (py "[-]") || contains line (py "[~]") || contains line [128260%N].
Definition matches_pending (line : pystr) : bool :=
  contains line (py "[ ]") || contains line [10060%N] || contains line [128203%N].

(** [self.progress_keywords] *)
Definition completed_keywords : list pystr :=
  [py "COMPLETED"; [9989%N]; py "DONE"; py "FINISHED"; py "COMPLETE"].
Definition in_progress_keywords : list pystr :=
  [py "IN PROGRESS"; [128260%N]; py "CURRENT"; py "WORKING"; py "ACTIVE"].
Definition pending_keywords : list pystr :=
  [py "PENDING"; [128203%N]; py "TODO"; py "UPCOMING"; py "PLANNED"].

(** [_get_line_context] *)
Definition _get_line_context (lines : list pystr) (line_idx context_size : Z) : pystr :=
  let start := py_maxZ 0 (line_idx - context_size) in
  let end_ := py_minZ (len lines) (line_idx + context_size + 1) in
  join [newline] (py_slice lines start end_).

(** The body of the loop of [_extract_checkboxes] for one line. *)
Definition checkbox_of_line (lines : list pystr) (i : Z) (line : pystr)
    : option CheckboxStatus.t :=
  if matches_completed line
  then Some (CheckboxStatus.mk (strip line) true i (_get_line_context lines i 2))
  else if matches_in_progress line
  then Some (CheckboxStatus.mk (strip line) false i (_get_line_context lines i 2))
  else if matches_pending line
  then Some (CheckboxStatus.mk (strip line) false i (_get_line_context lines i 2))
  else None.

Definition _extract_checkboxes (content : pystr) : list CheckboxStatus.t :=
  let lines := split_lines content in
  omap (λ '(i, line), checkbox_of_line lines i line) (enumerate lines).

Section StatusParser.

(** [str.upper] *)
Variable upper : pystr → pystr.
(** The number in front of [% complete], [% done] or [% finished], when
    the content holds one. *)
Variable percentage_match : pystr → option Z.
(** The matches of the four progress patterns, stripped. *)
Variable progress_pattern_matches : pystr → list pystr.

Definition _determine_status_type (checkboxes : list CheckboxStatus.t) (content : pystr)
    : StatusType * Q :=
  let content_upper := upper content in
  if contains_any content_upper in_progress_keywords then (IN_PROGRESS, 85 # 100)
  else
    match checkboxes with
    | _ :: _ =>
        let completed_count :=
          len (filter (λ cb, matches_completed (CheckboxStatus.text cb) = true)
                 checkboxes) in
        let in_progress_count :=
          len (filter (λ cb, matches_completed (CheckboxStatus.text cb) = false
                             ∧ matches_in_progress (CheckboxStatus.text cb) = true)
                 checkboxes) in
        let pending_count :=
          len (filter (λ cb, matches_completed (CheckboxStatus.text cb) = false
                             ∧ matches_in_progress (CheckboxStatus.text cb) = false)
                 checkboxes) in
        let total_count := len checkboxes in
        let confidence := 9 # 10 in
        if (completed_count =? total_count)%Z then (COMPLETED, confidence)
        else if (in_progress_count >? 0)%Z then (IN_PROGRESS, confidence)
        else if (pending_count =? total_count)%Z then (PENDING, confidence)
        else if (pending_count >? completed_count)%Z then (PENDING, confidence)
        else (IN_PROGRESS, confidence)
    | [] =>
        if contains_any content_upper completed_keywords then (COMPLETED, 75 # 100)
        else if contains_any content_upper in_progress_keywords
        then (IN_PROGRESS, 65 # 100)
        else if contains_any content_upper pending_keywords then (PENDING, 55 # 100)
        else (UNKNOWN, 3 # 10)
    end.

Definition _calculate_completion_percentage (checkboxes : list CheckboxStatus.t)
    (content : pystr) : option Q :=
  match percentage_match content with
  | Some percent => Some (inject_Z percent / 100)
  | None =>
      match checkboxes with
      | _ :: _ =>
          let completed_count :=
            len (filter (λ cb, CheckboxStatus.is_completed cb = true) checkboxes) in
          Some (inject_Z completed_count / inject_Z (len checkboxes))
      | [] => None
      end
  end.

Definition parse_chunk_status (content : pystr) : StatusInfo.t :=
  let checkboxes := _extract_checkboxes content in
  let '(status_type, confidence) := _determine_status_type checkboxes content in
  let completion := _calculate_completion_percentage checkboxes content in
  let progress_markers := progress_pattern_matches content in
  StatusInfo.mk status_type completion checkboxes progress_markers confidence.

End StatusParser.

Section TemporalExtractor.

Variable lower : pystr → pystr.
(** [self.business_phases.values()] and [self.parsed_critical_dates.values()] *)
Variable business_phases : list pystr.
Variable parsed_critical_dates : list Z.
(** [(date - self.current_date).days] *)
Variable days_until : Z → Z.
(** [a.date() == b.date()] *)
Variable same_date : Z → Z → bool.
(** [re.search(r'\d{4}-\d{2}-\d{2}', marker_text)] *)
Variable has_iso_date : pystr → bool.
(** [re.search(r'current|active|this', content, re.IGNORECASE)] *)
Variable mentions_current : pystr → bool.
(** The matches of the temporal patterns, pattern by pattern, with the
    context type of their pattern. *)
Variable find_time_markers : pystr → list (pystr * TimeContextType).
Variable _parse_date_from_marker : pystr → option Z.
Variable _extract_relative_time : pystr → pystr → option pystr.
Variable _extract_phase_context : pystr → option pystr.

Definition _calculate_marker_confidence (marker_text content : pystr) : Q :=
  let confidence := 5 # 10 in
  let confidence :=
    if has_iso_date marker_text then confidence + (4 # 10) else confidence in
  let confidence :=
    if existsb (λ phase, contains content phase) business_phases
    then confidence + (2 # 10) else confidence in
  let confidence :=
    if mentions_current content then confidence + (2 # 10) else confidence in
  py_minQ 1 confidence.

Definition _extract_time_markers (content : pystr) : list TimeMarker.t :=
  (λ '(marker_text, default_context_type),
     TimeMarker.mk marker_text (_parse_date_from_marker marker_text)
       (_extract_relative_time marker_text content) default_context_type
       (_calculate_marker_confidence marker_text content))
  <$> find_time_markers content.

Definition _calculate_current_relevance (time_markers : list TimeMarker.t)
    (document_path : pystr) : Q :=
  let base_relevance := 5 # 10 in
  let base_relevance :=
    if contains document_path (py "activeContext.md") then base_relevance + (3 # 10)
    else if contains document_path (py "startHere.md") then base_relevance + (2 # 10)
    else base_relevance in
  let base_relevance :=
    foldl (λ base_relevance marker,
             match TimeMarker.context_type marker with
             | CURRENT => base_relevance + (3 # 10) * TimeMarker.confidence marker
             | UPCOMING => base_relevance + (2 # 10) * TimeMarker.confidence marker
             | DEADLINE =>
                 match TimeMarker.extracted_date marker with
                 | Some date =>
                     let days := days_until date in
                     if ((0 <=? days) && (days <=? 7))%Z
                     then base_relevance + (4 # 10) * TimeMarker.confidence marker
                     else base_relevance
                 | None => base_relevance
                 end
             | _ => base_relevance
             end)
          base_relevance time_markers in
  py_minQ 1 base_relevance.

Definition _calculate_urgency_score (time_markers : list TimeMarker.t) (content : pystr)
    : Q :=
  let urgency := 0 in
  let urgency :=
    if contains (lower content) (py "critical") then urgency + (4 # 10) else urgency in
  let urgency :=
    if contains (lower content) (py "urgent") then urgency + (3 # 10) else urgency in
  let urgency :=
    if contains_any (lower content) [py "deadline"; py "asap"; py "immediately"]
    then urgency + (2 # 10) else urgency in
  let urgency :=
    foldl (λ urgency marker,
             match TimeMarker.extracted_date marker with
             | Some date =>
                 let urgency :=
                   if existsb (same_date date) parsed_critical_dates
                   then urgency + (55 # 100) else urgency in
                 let days := days_until date in
                 let days_from := Z.abs days in
                 if (days >? 0)%Z then
                   if (days <=? 1)%Z then urgency + (5 # 10)
                   else if (days <=? 7)%Z then urgency + (3 # 10)
                   else if (days <=? 30)%Z then urgency + (1 # 10)
                   else urgency
                 else if (days_from <=? 7)%Z then urgency + (2 # 10)
                 else urgency
             | None => urgency
             end)
          urgency time_markers in
  py_minQ 1 urgency.

Definition extract_temporal_context (content document_path : pystr) : TemporalContext.t :=
  let time_markers := _extract_time_markers content in
  let current_relevance := _calculate_current_relevance time_markers document_path in
  let phase_context := _extract_phase_context content in
  let urgency_score := _calculate_urgency_score time_markers content in
  TemporalContext.mk time_markers current_relevance phase_context urgency_score.

End TemporalExtractor.

Section PriorityEngine.

Variable lower : pystr → pystr.


Definition _determine_hierarchy_level (content document_path : pystr) : Z :=
  let content_lower := lower content in
  let matched_levels : list Z := [] in
  let matched_levels :=
    if contains_any content_lower
         [py "strategic"; py "vision"; py "philosophy"; py "long-term"]
    then matched_levels ++ [1%Z] else matched_levels in
  let matched_levels :=
    if contains_any content_lower
         [py "quarterly"; py "milestone"; py "project"; py "client engagement"]
    then matched_levels ++ [2%Z] else matched_levels in
  let matched_levels :=
    if contains_any content_lower [py "weekly"; py "daily"; py "operational"; py "todo"]
    then matched_levels ++ [3%Z] else matched_levels in
  let matched_levels :=
    if contains content_lower (py "quarter") && bool_decide (2%Z ∉ matched_levels)
    then matched_levels ++ [1%Z] else matched_levels in
  let matched_levels :=
    if contains content_lower (py "week") && bool_decide (3%Z ∉ matched_levels)
    then matched_levels ++ [2%Z] else matched_levels in
  match matched_levels with
  | first :: rest => py_min_listZ first rest
  | [] =>
      if contains document_path (py "user-notes.md")
         || contains document_path (py "projectbrief.md")
      then 1%Z
      else if contains document_path (py "activeContext.md")
              || contains document_path (py "features/")
      then 2%Z
      else 3%Z
  end.

End PriorityEngine.

Local Close Scope Q_scope.

(** ** indexer.py: full_index *)

Section FullIndex.

Variable Collection : Type.
Variable ProviderFailure : Type.
Variable section_regex_match : pystr → bool.
Variable md5_hexdigest : pystr → pystr.
Variable model_encode : list pystr → list Embedding.
Variable collection_add : Collection → list AddRow → ProviderFailure + Collection.
Variable parse_chunk_status : pystr → option StatusInfo.t.
Variable extract_temporal_context : pystr → pystr → option TemporalContext.t.
Variable extract_priority_markers : pystr → pystr → option PriorityMarkers.t.

(** [full_index]: the loop over [current_state.items()] has the body of
    the loop of [incremental_index]; [scan_order] is the order in which
    the scan inserted its paths. Nothing is cleared before the loop.
    [None] when the chunker does not return. *)
Definition full_index (self : IncrementalIndexer Collection) (scan_order : list pystr)
    : option (Z * IncrementalIndexer Collection) :=
  let current_state := _scan_memory_bank Collection self in
  '(self', indexed_count) ←
    index_files Collection ProviderFailure section_regex_match md5_hexdigest
      model_encode collection_add parse_chunk_status extract_temporal_context
      extract_priority_markers self current_state scan_order 0;
  Some (indexed_count, _save_index_state Collection self' current_state).

End FullIndex.

(** * Specification-side definitions and concrete instances *)

(** The slug of a citation in the words of the specification: the header
    in lower case, every space turned into a hyphen, every [#] removed. *)
Definition spec_slug (lower : pystr → pystr) (header : pystr) : pystr :=
  filter (λ c, c ≠ hash_sign)
    ((λ c, if decide (c = space) then hyphen else c) <$> lower header).

(** [str.lower] on ASCII text. *)
Definition ascii_lower (s : pystr) : pystr :=
  (λ c, if ((65 <=? c) && (c <=? 90))%N then (c + 32)%N else c) <$> s.

(** The pattern [^##\s+] of the test configuration, on one line. *)
Definition h2_regex_match (line : pystr) : bool :=
  match line with
  | 35%N :: 35%N :: c :: _ => isspace c
  | _ => false
  end.

(** A chunker of the word-windowing kind. *)
Definition word_chunker (chunk_size chunk_overlap small medium : Z) : MemoryBankChunker :=
  MemoryBankChunker_init None
    (ChunkingConfig.mk chunk_size chunk_overlap small medium None None None None).

(** A collection that stores nothing and never fails, and extractors
    that find nothing: enough to run the indexer on examples. *)
Definition null_add (c : unit) (rows : list AddRow) : unit + unit := inr c.
Definition null_ids (c : unit) (document_path : pystr) : unit + list pystr := inr [].
Definition null_delete (c : unit) (ids : list pystr) : unit + unit := inr c.
Definition no_status (content : pystr) : option StatusInfo.t := None.
Definition no_temporal (content document_path : pystr) : option TemporalContext.t := None.
Definition no_priority (content document_path : pystr) : option PriorityMarkers.t := None.

(** A provider that answers every text with the empty vector, and the
    identity in the place of MD5. *)
Definition null_encode (batch : list pystr) : list Embedding := (λ _, []) <$> batch.
Definition id_hash (s : pystr) : pystr := s.

Definition example_scan : gmap pystr FileMeta.t :=
  {[ py "a.md" := FileMeta.mk (py "/bank/a.md") (py "0cc175b9") 1%Q 50%Z ]}.

Definition example_indexer (state : IndexStateFile) : IncrementalIndexer unit :=
  mkIndexer (word_chunker 512 50 400 600)
    (mkEmbedder 32 ∅ [])
    (mkSearcher (Some tt) 5 (3 # 10)%Q (7 # 10)%Q true (IntelligenceConfig.mk None None))
    example_scan
    (λ _, ReadText (py "## A"))
    state
    [].

(** The list from the first element on which [stop] holds. *)
Fixpoint drop_until {A} (stop : A → bool) (l : list A) : list A :=
  match l with
  | [] => []
  | x :: t => if stop x then l else drop_until stop t
  end.

(** The words of the contents of a list of chunks, in order: their
    concatenation up to whitespace. *)
Definition chunk_words (chunks : list Chunk) : list pystr :=
  concat ((λ c, split_ws (content c)) <$> chunks).

(** The words of a list of lines and of the contents of a list of
    sections. *)
Definition line_words (lines : list pystr) : list pystr :=
  concat (split_ws <$> lines).
Definition section_words (sections : list Sec.t) : list pystr :=
  concat ((λ s, split_ws (Sec.content s)) <$> sections).

(** The texts a small file hands to the windowing: its sections, or the
    whole content when it has none. *)
Definition windowed_texts (section_regex_match : pystr → bool) (content : pystr)
    : list pystr :=
  match _extract_sections section_regex_match content with
  | [] => [content]
  | sections => Sec.content <$> sections
  end.

(** The part of a small file that reaches its chunks: the document from
    its first section header on, or all of it when no line is a header. *)
Definition covered_text (section_regex_match : pystr → bool) (content : pystr) : pystr :=
  match _extract_sections section_regex_match content with
  | [] => content
  | _ => join [newline] (drop_until section_regex_match (split_lines content))
  end.

(** The lines before the first section header. *)
Definition preamble (section_regex_match : pystr → bool) (content : pystr) : list pystr :=
  take_until section_regex_match (split_lines content).

(** The windows of a text repeat no word: the overlap is 0, or every text
    fits in one window. *)
Definition windows_disjoint (self : MemoryBankChunker) (texts : list pystr) : Prop :=
  (chunk_overlap self = 0%Z ∧ (0 < chunk_size self)%Z)
  ∨ Forall (λ t, (len (split_ws t) ≤ chunk_size self)%Z) texts.

(** How many chunks of a list have the content [text]. *)
Definition chunks_with_content (text : pystr) (chunks : list Chunk) : nat :=
  length (filter (λ c, content c = text) chunks).

(** Two chunks of one document with the same text. *)
Definition example_chunk (header : string) (line : Z) : Chunk :=
  mkChunk (py header) (py "a.md") (py header) (py "same text") (py "a.md") line line ∅.

(** The chunk id of the object at a location. *)
Definition id_at (st : store) (x : nat) : option pystr :=
  (λ r, chunk_id (chunk r)) <$> st !! x.

(** The fusion map and the store agree: the keys are distinct and every
    key is the chunk id of the object it leads to. *)
Definition fusion_consistent (st : store) (m : combined) : Prop :=
  NoDup m.*1 ∧ ∀ cid x, (cid, x) ∈ m → id_at st x = Some cid.

(** The three updates of [_combine_results]. *)
Definition semantic_share (alpha : Q) (r : SearchResult) : SearchResult :=
  set_score r (score r * alpha)%Q.
Definition keyword_share (alpha : Q) (r : SearchResult) : SearchResult :=
  set_relevance_type (set_score r (score r * (1 - alpha))%Q) keyword.
Definition hybrid_sum (alpha : Q) (r0 r : SearchResult) : SearchResult :=
  set_relevance_type (set_score r0 (score r0 + score r * (1 - alpha))%Q) hybrid.

(** Results of the two legs for three chunks [a], [b] and [c]: the
    semantic leg hits [a] and [b], the keyword leg [b] and [c]. *)
Definition example_result (cid : string) (s : Q) (t : RelevanceType) : SearchResult :=
  SearchResult_init ascii_lower
    (mkChunk (py cid) (py "a.md") (py "## A") (py "text") (py "a.md") 0 1 ∅) s t.

Definition example_semantic : list SearchResult :=
  [example_result "a" (9 # 10) semantic; example_result "b" (8 # 10) semantic].
Definition example_keyword : list SearchResult :=
  [example_result "b" (1 # 2) keyword; example_result "c" 1 keyword].

Definition example_store : store :=
  (alloc (alloc ∅ 0 example_semantic).1 2 example_keyword).1.

(** A word: not empty, no whitespace. *)
Definition is_word (w : pystr) : Prop := w ≠ [] ∧ Forall (λ c, isspace c = false) w.

(** What every chunk of a document carries, whatever the tier: the path
    of the document, the navigation path built from it, and the three
    entries of the metadata bag. *)
Definition chunk_of_document (file_path : pystr) (tier : SizeCategory) (line_count : Z)
    (c : Chunk) : Prop :=
  document_path c = file_path
  ∧ navigation_path c = file_path ++ [32; 8594; 32]%N ++ section_header c
  ∧ metadata c !! py "file_path" = Some (MStr file_path)
  ∧ metadata c !! py "size_category" = Some (MStr (size_category_str tier))
  ∧ metadata c !! py "line_count" = Some (MInt line_count).

(** The numbers of the lines that match the section pattern, counted
    from [i]. *)
Fixpoint header_lines (section_regex_match : pystr → bool) (lines : list pystr) (i : Z)
    : list Z :=
  match lines with
  | [] => []
  | line :: rest =>
      if section_regex_match line then i :: header_lines section_regex_match rest (i + 1)
      else header_lines section_regex_match rest (i + 1)
  end.

(** A section that spans lines of a document: it starts on a line that
    matches the section pattern, its header is that line stripped, and
    its content is the lines from [start_line] to [end_line], both
    included. *)
Definition section_spans_lines (section_regex_match : pystr → bool) (lines : list pystr)
    (sec : Sec.t) : Prop :=
  ∃ line,
    lines !! Z.to_nat (Sec.start_line sec) = Some line
    ∧ section_regex_match line = true
    ∧ Sec.header sec = strip line
    ∧ (0 ≤ Sec.start_line sec ≤ Sec.end_line sec)%Z
    ∧ (Sec.end_line sec < len lines)%Z
    ∧ Sec.content sec
      = join [newline] (py_slice lines (Sec.start_line sec) (Sec.end_line sec + 1)).

(** The section that is open when the loop of [_extract_sections] is at
    line [i]: it started on a matching line before [i] and has collected
    the lines from there to [i], excluded. *)
Definition open_section (section_regex_match : pystr → bool) (lines : list pystr) (i : Z)
    (current_section : option (pystr * Z)) (current_content : list pystr) : Prop :=
  match current_section with
  | None => True
  | Some (hd, st) =>
      ∃ line,
        lines !! Z.to_nat st = Some line
        ∧ section_regex_match line = true
        ∧ hd = strip line
        ∧ (0 ≤ st < i)%Z
        ∧ current_content = py_slice lines st i
  end.

(** The references [_combine_results] keeps, in the words of a reader:
    going through a list of results, the first reference met for each
    chunk id that is not among the ids [seen] before. *)
Fixpoint first_hits (st : store) (seen : list pystr) (l : list nat) : list nat :=
  match l with
  | [] => []
  | x :: rest =>
      match id_at st x with
      | Some cid =>
          if decide (cid ∈ seen) then first_hits st seen rest
          else x :: first_hits st (seen ++ [cid]) rest
      | None => first_hits st seen rest
      end
  end.

(** A ranked list: every result has an enhanced score at least as high as
    every result after it. *)
Fixpoint ranked (l : list SearchResult) : Prop :=
  match l with
  | [] => True
  | r :: rest => Forall (λ r', (enhanced_score r' <= enhanced_score r)%Q) rest ∧ ranked rest
  end.

(** Two legs that answer every query with the example results, and
    boosts that change nothing. *)
Definition example_semantic_search (c : unit) (query : pystr) (domain : option pystr)
    (filters : option unit) : unit + list SearchResult := inr example_semantic.
Definition example_keyword_search (c : unit) (query : pystr) (domain : option pystr)
    : unit + list SearchResult := inr example_keyword.
Definition no_domain_boost (results : list SearchResult) (domain : pystr)
    : list SearchResult := results.
Definition no_intelligence_boost (results : list SearchResult) (query : pystr)
    (filters : option unit) : list SearchResult := results.

(** The terms [_apply_query_specific_boost] looks for in a query. *)
Definition trigger_terms : list pystr :=
  [py "current"; py "active"; py "now"; py "today";
   py "urgent"; py "priority"; py "critical"; py "deadline";
   py "andrew"; py "client"; py "engagement"; py "sprint";
   py "completed"; py "done"; py "finished"].

(** A result without its enhanced score. *)
Definition unenhanced (r : SearchResult)
    : Chunk * Q * RelevanceType * pystr * option IntelligenceMetadata :=
  (chunk r, score r, relevance_type r, citation r, intelligence_metadata r).


(** A searcher that indexes without intelligence, and a semantic hit on
    a chunk as that searcher stored it. *)
Definition plain_searcher : HybridSearcher unit :=
  mkSearcher (Some tt) 5 (3 # 10)%Q (7 # 10)%Q false (IntelligenceConfig.mk None None).

Definition stored_result (c : Chunk) (s : Q) : SearchResult :=
  SearchResult_init ascii_lower
    (mkChunk (chunk_id c) (document_path c) (section_header c) (content c)
       (navigation_path c) (start_line c) (end_line c)
       (chunk_metadata unit no_status no_temporal no_priority plain_searcher c))
    s semantic.

(** What a pass of the indexer leaves alone in the indexer: the chunker,
    the file system it looks at and the components' identity apart, only
    the searcher, the embedder, the state file and the trace change. *)
Definition same_files {Collection} (a b : IncrementalIndexer Collection) : Prop :=
  chunker a = chunker b ∧ scan a = scan b ∧ read_file a = read_file b.

(** The hierarchy level in the words of the comments of
    [_determine_hierarchy_level]: strategic before tactical before
    operational, [quarter] strategic unless a tactical pattern matched,
    [week] tactical unless an operational pattern matched, and the
    document path when nothing matched. *)
Definition spec_hierarchy_level (lower : pystr → pystr) (content document_path : pystr)
    : Z :=
  let content_lower := lower content in
  let strategic :=
    contains_any content_lower
      [py "strategic"; py "vision"; py "philosophy"; py "long-term"] in
  let tactical :=
    contains_any content_lower
      [py "quarterly"; py "milestone"; py "project"; py "client engagement"] in
  let operational :=
    contains_any content_lower [py "weekly"; py "daily"; py "operational"; py "todo"] in
  let quarter := contains content_lower (py "quarter") in
  let week := contains content_lower (py "week") in
  if strategic || (quarter && negb tactical) then 1%Z
  else if tactical || (week && negb operational) then 2%Z
  else if operational then 3%Z
  else if contains document_path (py "user-notes.md")
          || contains document_path (py "projectbrief.md")
  then 1%Z
  else if contains document_path (py "activeContext.md")
          || contains document_path (py "features/")
  then 2%Z
  else 3%Z.


(** * Properties *)

(** ** Python strings *)

Lemma py_hash : py "#" = [hash_sign].
Proof. reflexivity. Qed.

Lemma py_space : py " " = [space].
Proof. reflexivity. Qed.

Lemma py_hyphen : py "-" = [hyphen].
Proof. reflexivity. Qed.

Lemma replace_from_single (c : N) (new s : pystr) :
  replace_from [c] new 0 s = concat ((λ x, if (c =? x)%N then new else [x]) <$> s).
Proof.
  induction s as [|x t IH]; [done|].
  cbn. rewrite andb_true_r. destruct (c =? x)%N; cbn; by rewrite IH.
Qed.

Lemma replace_char_char (c d : N) (s : pystr) :
  replace [c] [d] s = (λ x, if decide (x = c) then d else x) <$> s.
Proof.
  unfold replace. rewrite replace_from_single.
  induction s as [|x t IH]; [done|].
  cbn. rewrite IH. destruct (N.eqb_spec c x) as [->|Hne].
  - by rewrite decide_True.
  - by rewrite decide_False by congruence.
Qed.

Lemma replace_char_empty (c : N) (s : pystr) :
  replace [c] [] s = filter (λ x, x ≠ c) s.
Proof.
  unfold replace. rewrite replace_from_single.
  induction s as [|x t IH]; [done|].
  cbn [fmap list_fmap concat]. rewrite IH. destruct (N.eqb_spec c x) as [->|Hne].
  - by rewrite filter_cons_False by (intros H; by apply H).
  - by rewrite filter_cons_True by congruence.
Qed.

(** ** Citations *)

(** C8. For every chunk, [generate_citation] returns the document path,
    then [#], then the section header lowercased with every space
    replaced by a hyphen and every [#] removed. *)
Theorem generate_citation_spec (lower : pystr → pystr) (c : Chunk) :
  generate_citation lower c
  = document_path c ++ [hash_sign] ++ spec_slug lower (section_header c).
Proof.
  unfold generate_citation, spec_slug.
  change (py "") with (@nil N).
  by rewrite py_hash, py_space, py_hyphen, replace_char_char, replace_char_empty.
Qed.

(** ** Size tiers *)

Lemma split_lines_nonempty (s : pystr) : split_lines s ≠ [].
Proof.
  destruct s as [|c t]; [done|]. cbn.
  destruct (c =? newline)%N; [done|]. by destruct (split_lines t).
Qed.

(** The lines of a text are one more than its newline characters. *)
Lemma length_split_lines (s : pystr) :
  length (split_lines s) = S (length (filter (λ c, c = newline) s)).
Proof.
  induction s as [|c t IH]; [done|].
  cbn [split_lines]. destruct (N.eqb_spec c newline) as [->|Hne].
  - rewrite filter_cons_True by done. cbn. by rewrite IH.
  - rewrite filter_cons_False by done.
    destruct (split_lines t) eqn:E; [by destruct (split_lines_nonempty t)|].
    by rewrite <- IH.
Qed.

(** C6. With the small threshold below the medium one, a document of
    exactly [small_file_lines] lines is in the small tier and one of
    [small_file_lines + 1] lines in the medium tier; exactly
    [medium_file_lines] lines is medium and [medium_file_lines + 1] lines
    is large; the line count returned is the number of newline-separated
    lines of the content. *)
Theorem categorize_document_boundary
    (tok : option Tokenizer) (config : ChunkingConfig.t) (content : pystr) :
  (ChunkingConfig.small_file_lines config < ChunkingConfig.medium_file_lines config)%Z →
  let self := MemoryBankChunker_init tok config in
  let lines := Z.of_nat (S (length (filter (λ c, c = newline) content))) in
  (categorize_document self content).2 = lines
  ∧ (lines = ChunkingConfig.small_file_lines config →
     (categorize_document self content).1 = Green)
  ∧ (lines = (ChunkingConfig.small_file_lines config + 1)%Z →
     (categorize_document self content).1 = Yellow)
  ∧ (lines = ChunkingConfig.medium_file_lines config →
     (categorize_document self content).1 = Yellow)
  ∧ (lines = (ChunkingConfig.medium_file_lines config + 1)%Z →
     (categorize_document self content).1 = Red).
Proof.
  intros Hlt self lines.
  assert (Hlen : len (split_lines content) = lines).
  { unfold len, lines. by rewrite length_split_lines. }
  unfold categorize_document. rewrite Hlen. cbn [self MemoryBankChunker_init
    medium_threshold small_threshold].
  repeat split.
  - repeat case_match; done.
  - intros ->. repeat case_match; try done; lia.
  - intros ->. repeat case_match; try done; lia.
  - intros ->. repeat case_match; try done; lia.
  - intros ->. repeat case_match; try done; lia.
Qed.

(** The tiers in general: the comparison is strict on both thresholds. *)
Lemma categorize_document_tier (self : MemoryBankChunker) (content : pystr) :
  (categorize_document self content).1 =
    if (len (split_lines content) >? medium_threshold self)%Z then Red
    else if (len (split_lines content) >? small_threshold self)%Z then Yellow
    else Green.
Proof. unfold categorize_document. by repeat case_match. Qed.

Lemma categorize_document_witness :
  (2 < 3)%Z
  ∧ (categorize_document (word_chunker 512 50 2 3) [97; 10; 98]%N).1 = Green
  ∧ (categorize_document (word_chunker 512 50 2 3) [97; 10; 98]%N).2 = 2%Z.
Proof.
  split; [lia|].
  destruct (categorize_document_boundary None
    (ChunkingConfig.mk 512 50 2 3 None None None None) [97; 10; 98]%N)
    as (Hcount & Hsmall & _); [cbn; lia|].
  split; [apply Hsmall; reflexivity | exact Hcount].
Defined.

(** ** The boost cap *)

Lemma py_minQ_le_l (a b : Q) : (py_minQ a b <= a)%Q.
Proof.
  unfold py_minQ. destruct (Qle_bool a b) eqn:E.
  - apply Qle_refl.
  - apply Qlt_le_weak, Qnot_le_lt. intros H. apply Qle_bool_iff in H. congruence.
Qed.

Lemma py_minQ_le_r (a b : Q) : (py_minQ a b <= b)%Q.
Proof.
  unfold py_minQ. destruct (Qle_bool a b) eqn:E.
  - by apply Qle_bool_iff.
  - apply Qle_refl.
Qed.

Lemma calculate_priority_multiplier_capped (priority_markers : PriorityMarkers.t) :
  (calculate_priority_multiplier priority_markers <= 3)%Q.
Proof. unfold calculate_priority_multiplier. apply py_minQ_le_l. Qed.

(** C3. Whatever the status, temporal and priority signals of a chunk
    are, the overall boost that combines their multipliers is at most the
    configured [boost_cap] (3.0 when the key is absent). *)
Theorem overall_boost_capped (config : IntelligenceConfig.t)
    (status_info : StatusInfo.t) (temporal_context : TemporalContext.t)
    (priority_markers : PriorityMarkers.t) :
  (_calculate_overall_boost config status_info temporal_context priority_markers
   <= default 3 (IntelligenceConfig.boost_cap config))%Q.
Proof. unfold _calculate_overall_boost. apply py_minQ_le_l. Qed.

(** The same for the boost stored with a chunk, whenever the three
    extractions of an enabled processor return. *)
Lemma process_chunk_intelligence_capped
    (parse_chunk_status : pystr → option StatusInfo.t)
    (extract_temporal_context : pystr → pystr → option TemporalContext.t)
    (extract_priority_markers : pystr → pystr → option PriorityMarkers.t)
    (config : IntelligenceConfig.t) (content document_path : pystr) :
  default true (IntelligenceConfig.enabled config) = true →
  is_Some (parse_chunk_status content) →
  is_Some (extract_temporal_context content document_path) →
  is_Some (extract_priority_markers content document_path) →
  (overall_boost
     (process_chunk_intelligence parse_chunk_status extract_temporal_context
        extract_priority_markers config content document_path)
   <= default 3 (IntelligenceConfig.boost_cap config))%Q.
Proof.
  intros Hen [s Hs] [t Ht] [p Hp]. unfold process_chunk_intelligence.
  rewrite Hen, Hs, Ht, Hp. cbn. unfold _calculate_overall_boost. apply py_minQ_le_l.
Qed.

(** ** Change detection *)

Section IndexerProperties.

Context {Collection ProviderFailure : Type}.
Implicit Types self : IncrementalIndexer Collection.

Lemma elem_of_new_files (current previous : gmap pystr FileMeta.t) (p : pystr) :
  p ∈ (detect_changes_of current previous).1.1
  ↔ p ∈ dom current ∧ p ∉ dom previous.
Proof. cbn. rewrite elem_of_elements. set_solver. Qed.

Lemma elem_of_deleted_files (current previous : gmap pystr FileMeta.t) (p : pystr) :
  p ∈ (detect_changes_of current previous).2
  ↔ p ∈ dom previous ∧ p ∉ dom current.
Proof. cbn. rewrite elem_of_elements. set_solver. Qed.

Lemma elem_of_modified_files (current previous : gmap pystr FileMeta.t) (p : pystr) :
  p ∈ (detect_changes_of current previous).1.2
  ↔ ∃ c q, current !! p = Some c ∧ previous !! p = Some q
           ∧ FileMeta.hash c ≠ FileMeta.hash q.
Proof.
  cbn. rewrite list_elem_of_filter, elem_of_elements, elem_of_intersection,
    !elem_of_dom. split.
  - intros (Hne & [c Hc] & [q Hq]). exists c, q. rewrite Hc, Hq in Hne.
    repeat split; [done..|]. intros E. apply Hne. cbn. by rewrite E.
  - intros (c & q & Hc & Hq & Hne). rewrite Hc, Hq. repeat split; [|eauto..].
    cbn. congruence.
Qed.

(** C2. [detect_changes] returns as new the paths of the scan that the
    previous state lacks, as deleted the paths of the previous state
    that the scan lacks, and as modified the paths of both whose hashes
    differ; no list repeats a path, no path is in two lists, and a
    common path with an unchanged hash is in none. *)
Theorem detect_changes_classifies self :
  let current := _scan_memory_bank Collection self in
  let previous := _load_index_state Collection self in
  let new_files := (detect_changes Collection self).1.1 in
  let modified_files := (detect_changes Collection self).1.2 in
  let deleted_files := (detect_changes Collection self).2 in
  (∀ p, p ∈ new_files ↔ p ∈ dom current ∧ p ∉ dom previous)
  ∧ (∀ p, p ∈ deleted_files ↔ p ∈ dom previous ∧ p ∉ dom current)
  ∧ (∀ p, p ∈ modified_files
          ↔ ∃ c q, current !! p = Some c ∧ previous !! p = Some q
                   ∧ FileMeta.hash c ≠ FileMeta.hash q)
  ∧ (NoDup new_files ∧ NoDup modified_files ∧ NoDup deleted_files)
  ∧ (∀ p, (¬ (p ∈ new_files ∧ p ∈ modified_files))
          ∧ (¬ (p ∈ new_files ∧ p ∈ deleted_files))
          ∧ (¬ (p ∈ modified_files ∧ p ∈ deleted_files)))
  ∧ (∀ p c q, current !! p = Some c → previous !! p = Some q →
              FileMeta.hash c = FileMeta.hash q →
              (p ∉ new_files) ∧ (p ∉ modified_files) ∧ (p ∉ deleted_files)).
Proof.
  intros current previous new_files modified_files deleted_files.
  assert (Hnew := elem_of_new_files current previous).
  assert (Hdel := elem_of_deleted_files current previous).
  assert (Hmod := elem_of_modified_files current previous).
  split; [exact Hnew|]. split; [exact Hdel|]. split; [exact Hmod|].
  split; [|split].
  - repeat split.
    + apply NoDup_elements.
    + apply NoDup_filter, NoDup_elements.
    + apply NoDup_elements.
  - intros p. repeat split.
    + intros [H1 H2]. apply Hnew in H1 as [_ H1]. apply Hmod in H2 as (c & q & _ & Hq & _).
      apply H1, elem_of_dom. eauto.
    + intros [H1 H2]. apply Hnew in H1 as [_ H1]. apply Hdel in H2 as [H2 _]. done.
    + intros [H1 H2]. apply Hmod in H1 as (c & q & Hc & _ & _). apply Hdel in H2 as [_ H2].
      apply H2, elem_of_dom. eauto.
  - intros p c q Hc Hq Heq. repeat split.
    + intros H. apply Hnew in H as [_ H']. apply H', elem_of_dom. eauto.
    + intros H. apply Hmod in H as (c' & q' & Hc' & Hq' & Hne). congruence.
    + intros H. apply Hdel in H as [_ H']. apply H', elem_of_dom. eauto.
Qed.

(** ** Idempotence of incremental indexing *)

Lemma detect_changes_same_state (state : gmap pystr FileMeta.t) :
  detect_changes_of state state = ([], [], []).
Proof.
  unfold detect_changes_of.
  rewrite difference_diag_L.
  rewrite elements_empty. f_equal. f_equal.
  apply elem_of_nil_inv. intros p Hp.
  apply list_elem_of_filter in Hp as [Hne _]. by apply Hne.
Qed.

End IndexerProperties.

Section IncrementalIndexProperties.

Context {Collection ProviderFailure : Type}.
Variable section_regex_match : pystr → bool.
Variable md5_hexdigest : pystr → pystr.
Variable model_encode : list pystr → list Embedding.
Variable collection_add : Collection → list AddRow → ProviderFailure + Collection.
Variable collection_ids_of_document : Collection → pystr → ProviderFailure + list pystr.
Variable collection_delete : Collection → list pystr → ProviderFailure + Collection.
Variable parse_chunk_status : pystr → option StatusInfo.t.
Variable extract_temporal_context : pystr → pystr → option TemporalContext.t.
Variable extract_priority_markers : pystr → pystr → option PriorityMarkers.t.

Let run :=
  incremental_index Collection ProviderFailure section_regex_match md5_hexdigest
    model_encode collection_add collection_ids_of_document collection_delete
    parse_chunk_status extract_temporal_context extract_priority_markers.

(** Without a change there is nothing to do: the call returns 0 and
    leaves the indexer as it was. *)
Lemma incremental_index_no_changes (self : IncrementalIndexer Collection) :
  detect_changes Collection self = ([], [], []) →
  run self = Returned (0%Z, self).
Proof. intros H. unfold run, incremental_index. by rewrite H. Qed.

(** C5. If the scan of the file system is the persisted index state,
    [incremental_index] returns 0 and changes nothing: the collection,
    the embedding cache, the state file and the trace of chunk
    removals and additions are what they were. *)
Theorem incremental_index_idempotent (self : IncrementalIndexer Collection) :
  index_state_file self = StateStored (scan self) →
  run self = Returned (0%Z, self)
  ∧ detect_changes Collection self = ([], [], []).
Proof.
  intros H.
  assert (Hd : detect_changes Collection self = ([], [], [])).
  { unfold detect_changes, _load_index_state, _scan_memory_bank. rewrite H.
    apply detect_changes_same_state. }
  split; [|done]. unfold run, incremental_index. by rewrite Hd.
Qed.

End IncrementalIndexProperties.

Lemma incremental_index_idempotent_witness :
  incremental_index unit unit h2_regex_match id_hash null_encode null_add null_ids
    null_delete no_status no_temporal no_priority
    (example_indexer (StateStored example_scan))
  = Returned (0%Z, example_indexer (StateStored example_scan)).
Proof.
  apply (incremental_index_idempotent h2_regex_match id_hash null_encode null_add
           null_ids null_delete no_status no_temporal no_priority
           (example_indexer (StateStored example_scan))).
  reflexivity.
Defined.

(** A first run on the same file system does index the file: one
    insertion is traced and the scan becomes the stored state. *)
Example incremental_index_first_run :
  ∃ self',
    incremental_index unit unit h2_regex_match id_hash null_encode null_add null_ids
      null_delete no_status no_temporal no_priority (example_indexer StateMissing)
    = Returned (1%Z, self')
    ∧ chunk_ops self' = [AddedChunks (py "a.md")]
    ∧ index_state_file self' = StateStored example_scan.
Proof. eexists. split; [vm_compute; reflexivity|]. split; reflexivity. Qed.

(** ** The uninitialized-collection precondition *)

Section SearcherProperties.

Context {Collection ProviderFailure Filters : Type}.
Variable chroma_get_collection : pystr → ProviderFailure + Collection.
Variable chroma_create_collection : pystr → ProviderFailure + Collection.
Variable collection_add : Collection → list AddRow → ProviderFailure + Collection.
Variable _semantic_search :
  Collection → pystr → option pystr → option Filters
  → ProviderFailure + list SearchResult.
Variable _keyword_search :
  Collection → pystr → option pystr → ProviderFailure + list SearchResult.
Variable _apply_domain_boost : list SearchResult → pystr → list SearchResult.
Variable _apply_intelligence_boost :
  list SearchResult → pystr → option Filters → list SearchResult.
Variable parse_chunk_status : pystr → option StatusInfo.t.
Variable extract_temporal_context : pystr → pystr → option TemporalContext.t.
Variable extract_priority_markers : pystr → pystr → option PriorityMarkers.t.

Let do_search :=
  search Collection ProviderFailure Filters _semantic_search _keyword_search
    _apply_domain_boost _apply_intelligence_boost.
Let do_add_chunks :=
  add_chunks Collection ProviderFailure collection_add parse_chunk_status
    extract_temporal_context extract_priority_markers.
Let do_create_or_load :=
  create_or_load_collection Collection ProviderFailure chroma_get_collection
    chroma_create_collection.

Lemma search_uninitialized (self : HybridSearcher Collection) query domain filters ifilters :
  do_search self query domain filters ifilters = inl CollectionNotInitialized
  ↔ collection self = None.
Proof.
  unfold do_search, search. destruct (collection self) as [c|]; [|done].
  split; [|done]. repeat case_match; done.
Qed.

Lemma add_chunks_uninitialized (self : HybridSearcher Collection) chunks embeddings :
  do_add_chunks self chunks embeddings = inl CollectionNotInitialized
  ↔ collection self = None.
Proof.
  unfold do_add_chunks, add_chunks. destruct (collection self) as [c|]; [|done].
  split; [|done]. repeat case_match; done.
Qed.

(** C9. [search] and [add_chunks] raise the error of the uninitialized
    collection exactly when the searcher has no collection; a new
    searcher has none, and it has one once [create_or_load_collection]
    has returned. With a collection, whatever else the two calls raise
    comes from a collaborator. *)
Theorem collection_precondition (self : HybridSearcher Collection)
    (query : pystr) (domain : option pystr) (filters ifilters : option Filters)
    (chunks : list Chunk) (embeddings : list (option Embedding)) :
  (do_search self query domain filters ifilters = inl CollectionNotInitialized
   ↔ collection self = None)
  ∧ (do_add_chunks self chunks embeddings = inl CollectionNotInitialized
     ↔ collection self = None)
  ∧ (∀ top_k threshold alpha intelligence,
       collection (HybridSearcher_init Collection top_k threshold alpha intelligence)
       = None)
  ∧ (∀ name self', do_create_or_load self name = inr self' →
                   is_Some (collection self')).
Proof.
  split; [apply search_uninitialized|]. split; [apply add_chunks_uninitialized|].
  split; [done|]. intros name self'. unfold do_create_or_load, create_or_load_collection.
  repeat case_match; intros; simplify_eq; cbn; eauto.
Qed.

End SearcherProperties.

(** ** Words *)

Lemma split_ws_head_nonspace (x : N) (t : pystr) :
  isspace x = false → ∃ w ws, split_ws (x :: t) = (x :: w) :: ws.
Proof.
  intros Hx. cbn [split_ws]. rewrite Hx. destruct t as [|y t']; [by eexists _, _|].
  destruct (isspace y); [by eexists _, _|].
  destruct (split_ws (y :: t')); by eexists _, _.
Qed.

Lemma split_ws_words (s : pystr) : Forall is_word (split_ws s).
Proof.
  induction s as [|x t IH]; [constructor|].
  cbn [split_ws]. destruct (isspace x) eqn:Hx; [done|].
  assert (Hone : is_word [x]) by (split; [done|by repeat constructor]).
  destruct t as [|y t']; [by repeat constructor|].
  destruct (isspace y) eqn:Hy; [by constructor|].
  destruct (split_ws (y :: t')) as [|w ws]; [by repeat constructor|].
  inversion IH as [|? ? [Hw1 Hw2] Hws]; subst.
  constructor; [|done]. split; [done|by constructor].
Qed.

Lemma split_ws_word (w : pystr) : is_word w → split_ws w = [w].
Proof.
  intros [Hne Hall]. induction w as [|x t IH]; [done|].
  inversion Hall as [|? ? Hx Ht]; subst.
  cbn [split_ws]. rewrite Hx. destruct t as [|y t']; [done|].
  inversion Ht as [|? ? Hy _]; subst. rewrite Hy.
  by rewrite IH.
Qed.

(** Cutting at a whitespace character cuts the list of words. *)
Lemma split_ws_app_space (a b : pystr) (c : N) :
  isspace c = true → split_ws (a ++ c :: b) = split_ws a ++ split_ws b.
Proof.
  intros Hc. induction a as [|x a IH].
  - cbn. by rewrite Hc.
  - cbn [app split_ws]. destruct (isspace x) eqn:Hx; [done|].
    destruct a as [|y a'].
    + cbn [app split_ws]. by rewrite !Hc.
    + cbn [app] in *. destruct (isspace y) eqn:Hy.
      * by rewrite IH.
      * rewrite IH. destruct (split_ws_head_nonspace y a' Hy) as (w & ws & ->).
        done.
Qed.

Lemma split_ws_join_words (ws : list pystr) :
  Forall is_word ws → split_ws (join [space] ws) = ws.
Proof.
  induction 1 as [|w ws Hw Hws IH]; [done|].
  destruct ws as [|w' ws'].
  - cbn. by apply split_ws_word.
  - change (join [space] (w :: w' :: ws')) with (w ++ space :: join [space] (w' :: ws')).
    rewrite split_ws_app_space by done. by rewrite IH, split_ws_word.
Qed.

Lemma split_ws_join_lines (lines : list pystr) :
  split_ws (join [newline] lines) = concat (split_ws <$> lines).
Proof.
  induction lines as [|l ls IH]; [done|].
  destruct ls as [|l' ls'].
  - cbn. by rewrite app_nil_r.
  - change (join [newline] (l :: l' :: ls'))
      with (l ++ newline :: join [newline] (l' :: ls')).
    rewrite split_ws_app_space by done. by rewrite IH.
Qed.

Lemma join_split_lines (s : pystr) : join [newline] (split_lines s) = s.
Proof.
  induction s as [|c t IH]; [done|].
  cbn [split_lines]. destruct (N.eqb_spec c newline) as [->|Hne].
  - destruct (split_lines t) as [|l ls] eqn:E; [by destruct (split_lines_nonempty t)|].
    change (join [newline] ([] :: l :: ls)) with (newline :: join [newline] (l :: ls)).
    by rewrite IH.
  - destruct (split_lines t) as [|l ls] eqn:E; [by destruct (split_lines_nonempty t)|].
    destruct ls; cbn in *; by rewrite <- IH.
Qed.

Lemma lstrip_nil_iff (s : pystr) : lstrip s = [] ↔ split_ws s = [].
Proof.
  induction s as [|x t IH]; [done|].
  cbn [lstrip split_ws]. destruct (isspace x) eqn:Hx; [done|].
  split; [done|]. intros H. destruct (split_ws_head_nonspace x t Hx) as (w & ws & E).
  cbn [split_ws] in E. rewrite Hx in E. by rewrite E in H.
Qed.

Lemma rstrip_nil_iff (s : pystr) : rstrip s = [] ↔ s = [] ∨ lstrip (reverse s) = [].
Proof.
  unfold rstrip. split.
  - intros H. right. apply (f_equal reverse) in H. by rewrite reverse_involutive in H.
  - intros [->|H]; [done|]. by rewrite H.
Qed.

Lemma lstrip_head (s : pystr) :
  match lstrip s with [] => True | c :: _ => isspace c = false end.
Proof.
  induction s as [|x t IH]; [done|]. cbn. destruct (isspace x) eqn:Hx; [done|].
  by rewrite Hx.
Qed.

(** A text is blank for [strip] exactly when it has no word. *)
Lemma strip_blank_iff (s : pystr) : truthy (strip s) = false ↔ split_ws s = [].
Proof.
  rewrite <- lstrip_nil_iff. unfold strip.
  destruct (lstrip s) as [|c u] eqn:E; [done|].
  split; [|done]. intros H.
  assert (Hr : rstrip (c :: u) = []) by (by destruct (rstrip (c :: u))).
  apply rstrip_nil_iff in Hr as [?|Hr]; [done|].
  (* the first character is not a space, so stripping the reverse keeps it *)
  pose proof (lstrip_head s) as Hh. rewrite E in Hh.
  exfalso. revert Hr. rewrite reverse_cons.
  generalize (reverse u). intros v. induction v as [|y v IHv]; cbn.
  - by rewrite Hh.
  - destruct (isspace y); [done|done].
Qed.

(** ** The sliding window *)

Lemma py_minZ_min (a b : Z) : py_minZ a b = Z.min a b.
Proof. unfold py_minZ. case_match; lia. Qed.

Lemma py_slice_inside {A} (l : list A) (a b : Z) :
  (0 ≤ a ≤ b)%Z → (b ≤ len l)%Z →
  py_slice l a b = take (Z.to_nat (b - a)) (drop (Z.to_nat a) l).
Proof.
  intros Ha Hb. unfold py_slice, slice_index.
  repeat case_match; try lia.
  by rewrite !Z.min_l by lia.
Qed.

Lemma window_next_final {A} (items : list A) (m o s : Z) :
  (len items ≤ s + m)%Z → window_next items m o s = len items.
Proof. intros H. unfold window_next. rewrite py_minZ_min. case_match; lia. Qed.

Lemma window_next_inner {A} (items : list A) (m o s : Z) :
  (s + m < len items)%Z → window_next items m o s = (s + m - o)%Z.
Proof. intros H. unfold window_next. rewrite py_minZ_min. case_match; lia. Qed.

(** The loop in terms of [window_next]. *)
Lemma window_loop_step {A} (fuel : nat) (items : list A) (m o s : Z) :
  (s < len items)%Z →
  window_loop (S fuel) items m o s =
    (λ chunks, py_slice items s (py_minZ (s + m) (len items)) :: chunks)
    <$> window_loop fuel items m o (window_next items m o s).
Proof.
  intros H. cbn [window_loop]. by rewrite (proj2 (Z.ltb_lt _ _) H).
Qed.

Lemma window_loop_done {A} (fuel : nat) (items : list A) (m o s : Z) :
  (len items ≤ s)%Z → window_loop fuel items m o s = Some [].
Proof.
  intros H. destruct fuel; cbn [window_loop]; by rewrite (proj2 (Z.ltb_ge _ _) H).
Qed.

(** More fuel does not change a result. *)
Lemma window_loop_more_fuel {A} (fuel fuel' : nat) (items : list A) (m o s : Z) r :
  window_loop fuel items m o s = Some r → fuel ≤ fuel' →
  window_loop fuel' items m o s = Some r.
Proof.
  revert fuel' s r. induction fuel as [|fuel IH]; intros fuel' s r Hr Hle.
  - cbn in Hr. destruct (Z.ltb_spec s (len items)); [done|].
    by rewrite window_loop_done.
  - destruct (Z.ltb_spec s (len items)) as [Hlt|Hge].
    + destruct fuel' as [|fuel']; [lia|].
      rewrite window_loop_step in Hr |- * by done.
      destruct (window_loop fuel items m o (window_next items m o s)) as [r'|] eqn:E;
        [|done].
      by rewrite (IH fuel' _ r' E) by lia.
    + rewrite window_loop_done in Hr |- * by done. done.
Qed.

(** With [overlap < max_chunk_size] every pass moves [start] forward. *)
Lemma window_next_advances {A} (items : list A) (m o s : Z) :
  (o < m)%Z → (s < len items)%Z → (s < window_next items m o s)%Z.
Proof.
  intros Hom Hs. unfold window_next. rewrite py_minZ_min. case_match; lia.
Qed.

(** In a window that is not the last one, [start] moves forward only if
    [overlap < max_chunk_size]. *)
Lemma window_next_advances_iff {A} (items : list A) (m o s : Z) :
  (s + m < len items)%Z → (s < window_next items m o s)%Z ↔ (o < m)%Z.
Proof. intros H. rewrite window_next_inner by done. lia. Qed.

(** Termination: the distance to the end bounds the number of passes. *)
Lemma window_loop_terminates {A} (fuel : nat) (items : list A) (m o s : Z) :
  (o < m)%Z → (len items - s ≤ Z.of_nat fuel)%Z →
  is_Some (window_loop fuel items m o s).
Proof.
  intros Hom. revert s. induction fuel as [|fuel IH]; intros s Hfuel.
  - rewrite window_loop_done by lia. eauto.
  - destruct (Z.ltb_spec s (len items)) as [Hlt|Hge].
    + rewrite window_loop_step by done.
      destruct (IH (window_next items m o s)) as [r Hr].
      * pose proof (window_next_advances items m o s Hom Hlt). lia.
      * rewrite Hr. cbn. eauto.
    + rewrite window_loop_done by done. eauto.
Qed.

(** Divergence: with [overlap >= max_chunk_size] and more items than one
    window holds, [start] never gets past 0. *)
Lemma window_loop_diverges {A} (fuel : nat) (items : list A) (m o s : Z) :
  (m ≤ o)%Z → (m < len items)%Z → (0 < len items)%Z → (s ≤ 0)%Z →
  window_loop fuel items m o s = None.
Proof.
  intros Hmo Hm Hn. revert s. induction fuel as [|fuel IH]; intros s Hs.
  - cbn. destruct (Z.ltb_spec s (len items)); [done|lia].
  - rewrite window_loop_step by lia.
    rewrite IH; [done|]. rewrite window_next_inner by lia. lia.
Qed.

(** The internal fuel of [_chunk_text_by_words] is enough: whenever the
    loop returns with some fuel, it returns the same with the number of
    items as fuel. *)
Lemma window_loop_fuel_adequate {A} (fuel : nat) (items : list A) (m o : Z) r :
  window_loop fuel items m o 0 = Some r →
  window_loop (length items) items m o 0 = Some r.
Proof.
  intros Hr. destruct (Z.lt_ge_cases o m) as [Hom|Hmo].
  - destruct (window_loop_terminates (length items) items m o 0 Hom) as [r' Hr'];
      [unfold len; lia|].
    rewrite Hr'. f_equal.
    pose proof (window_loop_more_fuel _ (fuel `max` length items) _ _ _ _ _ Hr
                  ltac:(lia)) as H1.
    pose proof (window_loop_more_fuel _ (fuel `max` length items) _ _ _ _ _ Hr'
                  ltac:(lia)) as H2.
    congruence.
  - destruct (Z.lt_ge_cases m (len items)) as [Hm|Hm].
    + destruct items as [|x items].
      * by rewrite window_loop_done in Hr |- * by (unfold len; cbn; lia).
      * by rewrite window_loop_diverges in Hr by (unfold len in *; cbn in *; lia).
    + destruct items as [|x items].
      * by rewrite window_loop_done in Hr |- * by (unfold len; cbn; lia).
      * destruct fuel as [|fuel]; [by cbn in Hr|].
        change (length (x :: items)) with (S (length items)).
        rewrite window_loop_step in Hr |- * by (unfold len; cbn; lia).
        rewrite window_next_final in Hr |- * by lia.
        by rewrite window_loop_done in Hr |- * by lia.
Qed.

(** Every window holds at most [max_chunk_size] items, and a loop that
    starts inside the list returns at least one. *)
Lemma window_loop_sizes {A} (fuel : nat) (items : list A) (m o s : Z) r :
  (0 ≤ o < m)%Z → (0 ≤ s)%Z →
  window_loop fuel items m o s = Some r →
  Forall (λ chunk, (len chunk ≤ m)%Z ∧ ∃ i n, chunk = take n (drop i items)) r
  ∧ ((s < len items)%Z → r ≠ []).
Proof.
  intros Hom. revert s r. induction fuel as [|fuel IH]; intros s r Hs Hr.
  - cbn in Hr. destruct (Z.ltb_spec s (len items)); [done|]. simplify_eq. split; [constructor|lia].
  - destruct (Z.ltb_spec s (len items)) as [Hlt|Hge].
    + rewrite window_loop_step in Hr by done.
      destruct (window_loop fuel items m o (window_next items m o s)) as [r'|] eqn:E;
        [|done].
      cbn in Hr. simplify_eq. split; [|done].
      constructor.
      * rewrite py_minZ_min, py_slice_inside by lia. split; [|eauto].
        unfold len. rewrite length_take. lia.
      * eapply IH; [|exact E].
        pose proof (window_next_advances items m o s ltac:(lia) Hlt). lia.
    + rewrite window_loop_done in Hr by done. simplify_eq. split; [constructor|lia].
Qed.

(** Without overlap the windows partition the items. *)
Lemma window_loop_partition {A} (fuel : nat) (items : list A) (m s : Z) r :
  (0 < m)%Z → (0 ≤ s)%Z →
  window_loop fuel items m 0 s = Some r →
  concat r = drop (Z.to_nat s) items.
Proof.
  intros Hm. revert s r. induction fuel as [|fuel IH]; intros s r Hs Hr.
  - cbn in Hr. destruct (Z.ltb_spec s (len items)); [done|]. simplify_eq.
    rewrite drop_ge; [done|unfold len in *; lia].
  - destruct (Z.ltb_spec s (len items)) as [Hlt|Hge].
    + rewrite window_loop_step in Hr by done.
      destruct (window_loop fuel items m 0 (window_next items m 0 s)) as [r'|] eqn:E;
        [|done].
      cbn in Hr. simplify_eq. cbn [concat].
      assert (Hnext : window_next items m 0 s = Z.min (s + m) (len items)).
      { unfold window_next. rewrite py_minZ_min. case_match; lia. }
      assert (Hpos : (0 ≤ window_next items m 0 s)%Z) by lia.
      rewrite (IH _ _ Hpos E), Hnext, py_minZ_min, py_slice_inside by lia.
      etrans; [|apply (take_drop (Z.to_nat (Z.min (s + m) (len items) - s)))].
      f_equal. rewrite drop_drop. f_equal. lia.
    + rewrite window_loop_done in Hr by done. simplify_eq.
      rewrite drop_ge; [done|unfold len in *; lia].
Qed.

(** ** Word windows *)

Lemma chunk_text_by_words_blank (text : pystr) (m o : Z) :
  split_ws text = [] → _chunk_text_by_words text m o = Some [].
Proof.
  intros H. unfold _chunk_text_by_words.
  apply strip_blank_iff in H. rewrite H. by rewrite orb_true_r.
Qed.

Lemma not_blank_guard (text : pystr) :
  split_ws text ≠ [] → negb (truthy text) || negb (truthy (strip text)) = false.
Proof.
  intros H. destruct text as [|c t]; [done|]. cbn [truthy negb orb].
  destruct (truthy (strip (c :: t))) eqn:E; [done|]. by apply strip_blank_iff in E.
Qed.

Lemma chunk_text_by_words_fits (text : pystr) (m o : Z) :
  split_ws text ≠ [] → (len (split_ws text) ≤ m)%Z →
  _chunk_text_by_words text m o = Some [text].
Proof.
  intros H Hm. unfold _chunk_text_by_words. rewrite not_blank_guard by done.
  by rewrite (proj2 (Z.leb_le _ _) Hm).
Qed.

Lemma chunk_text_by_words_windows (text : pystr) (m o : Z) :
  split_ws text ≠ [] → (m < len (split_ws text))%Z →
  _chunk_text_by_words text m o =
    (λ chunks : list (list pystr), join [space] <$> chunks)
    <$> window_loop (length (split_ws text)) (split_ws text) m o 0.
Proof.
  intros H Hm. unfold _chunk_text_by_words. rewrite not_blank_guard by done.
  by rewrite (proj2 (Z.leb_gt _ _) Hm).
Qed.

Lemma sublist_words (ws : list pystr) (i n : nat) :
  Forall is_word ws → Forall is_word (take n (drop i ws)).
Proof. intros H. by apply Forall_take, Forall_drop. Qed.

(** C10, as the code has it. For every text with at least one
    non-whitespace character and [0 <= overlap < max_chunk_size],
    [_chunk_text_by_words] returns, its list of chunks is not empty and
    no chunk has more than [max_chunk_size] words; [start] moves forward
    in every pass. In a pass that is not the last one [start] moves
    forward only if [overlap < max_chunk_size]: with
    [overlap >= max_chunk_size] and more words than one window holds,
    the loop does not return, whatever the fuel. *)
Theorem chunk_text_by_words_returns (text : pystr) (max_chunk_size overlap : Z) :
  split_ws text ≠ [] → (0 ≤ overlap < max_chunk_size)%Z →
  let words := split_ws text in
  (∃ chunks, _chunk_text_by_words text max_chunk_size overlap = Some chunks
             ∧ chunks ≠ []
             ∧ Forall (λ c, (len (split_ws c) ≤ max_chunk_size)%Z) chunks)
  ∧ (∀ start, (0 ≤ start < len words)%Z →
              (start < window_next words max_chunk_size overlap start)%Z)
  ∧ (∀ overlap' start, (start + max_chunk_size < len words)%Z →
       ((start < window_next words max_chunk_size overlap' start)%Z
        ↔ (overlap' < max_chunk_size)%Z))
  ∧ (∀ overlap' fuel, (max_chunk_size ≤ overlap')%Z → (max_chunk_size < len words)%Z →
       window_loop fuel words max_chunk_size overlap' 0 = None).
Proof.
  intros Hne Hom words. repeat split.
  - destruct (Z.le_gt_cases (len words) max_chunk_size) as [Hfit|Hlong].
    + exists [text]. rewrite chunk_text_by_words_fits by done.
      split; [done|]. split; [done|]. by repeat constructor.
    + rewrite chunk_text_by_words_windows by (done || lia). fold words.
      destruct (window_loop_terminates (length words) words max_chunk_size overlap 0)
        as [r Hr]; [lia|unfold len; lia|].
      rewrite Hr. cbn.
      destruct (window_loop_sizes _ _ _ _ _ _ Hom (Z.le_refl 0) Hr) as [Hsz Hnonempty].
      eexists. split; [done|]. split.
      * destruct r; [|done]. exfalso. apply Hnonempty; [|done].
        pose proof (Nat2Z.is_nonneg (length words)). lia.
      * apply Forall_fmap. eapply Forall_impl; [exact Hsz|].
        intros chunk [Hlen (i & n & ->)]. cbn.
        rewrite split_ws_join_words; [done|].
        apply sublist_words, split_ws_words.
  - intros start Hs. apply window_next_advances; lia.
  - by apply window_next_advances_iff.
  - by apply window_next_advances_iff.
  - intros overlap' fuel Ho Hm. apply window_loop_diverges; [lia..| |lia].
    destruct words eqn:E; [done|]. unfold len. cbn. lia.
Qed.

Lemma chunk_text_by_words_returns_witness :
  ∃ chunks, _chunk_text_by_words (py "a b c") 2 1 = Some chunks
            ∧ chunks ≠ []
            ∧ Forall (λ c, (len (split_ws c) ≤ 2)%Z) chunks.
Proof.
  apply (chunk_text_by_words_returns (py "a b c") 2 1).
  - vm_compute. discriminate.
  - lia.
Defined.

(** What the loop builds on that text: two windows that share a word. *)
Example chunk_text_by_words_abc :
  _chunk_text_by_words (py "a b c") 2 1 = Some [py "a b"; py "b c"].
Proof. reflexivity. Qed.

(** A text of whitespace only is not empty, and its list of chunks is. *)
Lemma chunk_text_by_words_whitespace_only :
  ¬ (∀ text max_chunk_size overlap,
       text ≠ [] → (0 ≤ overlap < max_chunk_size)%Z →
       ∃ chunks, _chunk_text_by_words text max_chunk_size overlap = Some chunks
                 ∧ chunks ≠ []).
Proof.
  intros H. destruct (H [space] 1%Z 0%Z) as (chunks & Hrun & Hne); [done|lia|].
  vm_compute in Hrun. by simplify_eq.
Qed.

(** ** Sections and the coverage of a small file *)

Section Coverage.

Variable section_regex_match : pystr → bool.
Variable md5_hexdigest : pystr → pystr.

Lemma line_words_app (a b : list pystr) :
  line_words (a ++ b) = line_words a ++ line_words b.
Proof. unfold line_words. by rewrite fmap_app, concat_app. Qed.

Lemma section_words_snoc (sections : list Sec.t) (s : Sec.t) :
  section_words (sections ++ [s]) = section_words sections ++ split_ws (Sec.content s).
Proof. unfold section_words. rewrite fmap_app, concat_app. cbn. by rewrite app_nil_r. Qed.

Lemma line_words_split (lines : list pystr) :
  line_words (take_until section_regex_match lines)
  ++ line_words (drop_until section_regex_match lines) = line_words lines.
Proof.
  induction lines as [|l ls IH]; [done|]. cbn.
  destruct (section_regex_match l); [done|].
  unfold line_words in *. cbn. by rewrite <- IH, app_assoc.
Qed.

(** Inside a section, every further line ends up in a section. *)
Lemma extract_sections_loop_open lines i sections cur content sections' cur' content' :
  extract_sections_loop section_regex_match lines i sections (Some cur) content
  = (sections', cur', content') →
  is_Some cur'
  ∧ section_words sections' ++ line_words content'
    = section_words sections ++ line_words content ++ line_words lines.
Proof.
  revert i sections cur content.
  induction lines as [|l ls IH]; intros i sections [hd st] content H.
  - cbn in H. simplify_eq. split; [eauto|]. unfold line_words at 3. cbn.
    by rewrite app_nil_r.
  - cbn [extract_sections_loop] in H. destruct (section_regex_match l).
    + apply IH in H as [Hsome ->]. split; [done|].
      rewrite section_words_snoc. cbn [Sec.content].
      rewrite split_ws_join_lines. fold (line_words content).
      change (l :: ls) with ([l] ++ ls). rewrite line_words_app.
      by rewrite <- !app_assoc.
    + apply IH in H as [Hsome ->]. split; [done|].
      rewrite line_words_app. change (l :: ls) with ([l] ++ ls).
      rewrite line_words_app. by rewrite <- !app_assoc.
Qed.

(** Before the first header nothing is collected. *)
Lemma extract_sections_loop_closed lines i sections sections' cur' content' :
  extract_sections_loop section_regex_match lines i sections None []
  = (sections', cur', content') →
  section_words sections' ++ line_words content'
  = section_words sections ++ line_words (drop_until section_regex_match lines)
  ∧ (cur' = None → sections' = sections ∧ content' = []
                   ∧ drop_until section_regex_match lines = []).
Proof.
  revert i sections. induction lines as [|l ls IH]; intros i sections H.
  - cbn in H. by simplify_eq.
  - cbn [extract_sections_loop drop_until] in *. destruct (section_regex_match l).
    + apply extract_sections_loop_open in H as [[c ->] ->]. split; [|done].
      change (l :: ls) with ([l] ++ ls). by rewrite line_words_app.
    + by apply IH in H.
Qed.

(** The sections hold the words of the document from its first header
    on, and there is no section exactly when no line is a header. *)
Lemma extract_sections_words (content : pystr) :
  section_words (_extract_sections section_regex_match content)
  = line_words (drop_until section_regex_match (split_lines content)).
Proof.
  unfold _extract_sections.
  destruct (extract_sections_loop _ _ _ _ _ _) as [[sections' cur'] content'] eqn:E.
  apply extract_sections_loop_closed in E as [Hw Hnone].
  destruct cur' as [[hd st]|].
  - rewrite section_words_snoc. cbn [Sec.content]. rewrite split_ws_join_lines.
    exact Hw.
  - destruct Hnone as (-> & -> & ->); done.
Qed.

Lemma covered_text_words (content : pystr) :
  split_ws (covered_text section_regex_match content)
  = match _extract_sections section_regex_match content with
    | [] => split_ws content
    | sections => section_words sections
    end.
Proof.
  unfold covered_text.
  destruct (_extract_sections section_regex_match content) eqn:E; [done|].
  by rewrite split_ws_join_lines, <- E, extract_sections_words.
Qed.

(** The document is its preamble followed by what is covered. *)
Lemma preamble_covered_words (content : pystr) :
  _extract_sections section_regex_match content ≠ [] →
  split_ws content
  = line_words (preamble section_regex_match content)
    ++ split_ws (covered_text section_regex_match content).
Proof.
  intros H. rewrite covered_text_words.
  destruct (_extract_sections section_regex_match content) eqn:E; [done|].
  rewrite <- E, extract_sections_words. unfold preamble.
  rewrite line_words_split. unfold line_words.
  by rewrite <- split_ws_join_lines, join_split_lines.
Qed.

(** The word windows of one text, when they repeat no word. *)
Lemma chunk_text_by_words_covers (text : pystr) (m o : Z) :
  (o = 0%Z ∧ (0 < m)%Z) ∨ (len (split_ws text) ≤ m)%Z →
  ∃ chunks, _chunk_text_by_words text m o = Some chunks
            ∧ concat (split_ws <$> chunks) = split_ws text.
Proof.
  intros H. destruct (split_ws text) as [|w ws] eqn:Hw.
  { exists []. by rewrite chunk_text_by_words_blank. }
  assert (Hne : split_ws text ≠ []) by (by rewrite Hw).
  rewrite <- Hw in *. clear Hw w ws.
  destruct (Z.le_gt_cases (len (split_ws text)) m) as [Hfit|Hlong].
  { exists [text]. rewrite chunk_text_by_words_fits by done. cbn. by rewrite app_nil_r. }
  destruct H as [[-> Hm]|Hfit]; [|lia].
  rewrite chunk_text_by_words_windows by (done || lia).
  destruct (window_loop_terminates (length (split_ws text)) (split_ws text) m 0 0)
    as [r Hr]; [lia|unfold len; lia|].
  rewrite Hr. cbn. eexists. split; [done|].
  destruct (window_loop_sizes _ _ _ _ _ _ (conj (Z.le_refl 0) Hm) (Z.le_refl 0) Hr)
    as [Hsz _].
  pose proof (window_loop_partition _ _ _ _ _ Hm (Z.le_refl 0) Hr) as Hp.
  cbn in Hp. etrans; [|exact Hp].
  f_equal. clear Hr Hp. induction Hsz as [|chunk r [_ (i & n & ->)] _ IH]; [done|].
  cbn. rewrite IH. f_equal. apply split_ws_join_words, sublist_words, split_ws_words.
Qed.

Lemma chunk_text_word_based (self : MemoryBankChunker) (text : pystr) (m o : Z) :
  use_token_based self = false →
  _chunk_text self text m o = _chunk_text_by_words text m o.
Proof. intros H. unfold _chunk_text. by rewrite H. Qed.

Lemma content_enumerate (f : Z → pystr → Chunk) (l : list pystr) :
  (∀ i c, content (f i c) = c) →
  content <$> ((λ '(i, c), f i c) <$> enumerate l) = l.
Proof.
  intros Hf. unfold enumerate. rewrite <- list_fmap_compose, fmap_imap.
  rewrite <- (list_fmap_id l) at 2. rewrite <- imap_const.
  apply imap_ext. intros i x _. cbn. apply Hf.
Qed.

Lemma chunk_words_app (a b : list Chunk) :
  chunk_words (a ++ b) = chunk_words a ++ chunk_words b.
Proof. unfold chunk_words. by rewrite fmap_app, concat_app. Qed.

Lemma chunk_words_contents (chunks : list Chunk) :
  chunk_words chunks = concat (split_ws <$> (content <$> chunks)).
Proof. unfold chunk_words. by rewrite <- list_fmap_compose. Qed.

Lemma section_part_chunks_contents doc section section_chunks :
  content <$> section_part_chunks md5_hexdigest doc section section_chunks
  = section_chunks.
Proof.
  unfold section_part_chunks.
  apply (content_enumerate
           (λ i c, _create_chunk md5_hexdigest doc c _ _ _)).
  done.
Qed.

Lemma windows_disjoint_cons self text texts :
  windows_disjoint self (text :: texts) →
  ((chunk_overlap self = 0%Z ∧ (0 < chunk_size self)%Z)
   ∨ (len (split_ws text) ≤ chunk_size self)%Z)
  ∧ windows_disjoint self texts.
Proof.
  intros [H|H]; [by split; left|].
  inversion H; subst. split; by right.
Qed.

Lemma chunk_sections_cover self doc sections :
  use_token_based self = false →
  windows_disjoint self (Sec.content <$> sections) →
  ∃ chunks, chunk_sections md5_hexdigest self doc sections = Some chunks
            ∧ chunk_words chunks = section_words sections.
Proof.
  intros Hwords. induction sections as [|section rest IH]; intros Hdis.
  - by exists [].
  - cbn [fmap list_fmap] in Hdis. apply windows_disjoint_cons in Hdis as [Hone Hrest].
    destruct (IH Hrest) as (chunks & Hrun & Hcover).
    destruct (chunk_text_by_words_covers (Sec.content section) (chunk_size self)
                (chunk_overlap self)) as (cs & Hcs & Hcs_words).
    { destruct Hone as [[-> ?]|?]; [by left|by right]. }
    cbn [chunk_sections]. rewrite chunk_text_word_based, Hcs, Hrun by done. cbn.
    eexists. split; [done|].
    rewrite chunk_words_app, Hcover, chunk_words_contents,
      section_part_chunks_contents, Hcs_words.
    unfold section_words. cbn. done.
Qed.

(** What reaches the chunks of a small file: with word windows that
    repeat no word, [chunk_document] returns, and the words of its
    chunks, in order, are the words of the document from its first
    section header on (of the whole document when no line is a header). *)
Lemma small_file_chunks_from_first_header
    (self : MemoryBankChunker) (file_path content : pystr) :
  use_token_based self = false →
  (categorize_document self content).1 = Green →
  windows_disjoint self (windowed_texts section_regex_match content) →
  ∃ chunks,
    chunk_document section_regex_match md5_hexdigest self file_path content = Some chunks
    ∧ chunk_words chunks = split_ws (covered_text section_regex_match content).
Proof.
  intros Hwords Hsmall Hdis. unfold chunk_document.
  destruct (categorize_document self content) as [size_category line_count].
  cbn in Hsmall. subst size_category.
  set (doc := Document.mk _ _ _ _ _).
  unfold _chunk_small_file. rewrite covered_text_words. cbn [Document.content doc].
  unfold windowed_texts in Hdis.
  destruct (_extract_sections section_regex_match content) as [|s ss] eqn:E.
  - apply windows_disjoint_cons in Hdis as [Hone _].
    destruct (chunk_text_by_words_covers content (chunk_size self)
                (chunk_overlap self)) as (cs & Hcs & Hcs_words).
    { destruct Hone as [[-> ?]|?]; [by left|by right]. }
    rewrite chunk_text_word_based, Hcs by done. cbn.
    eexists. split; [done|].
    rewrite chunk_words_contents.
    rewrite (content_enumerate (λ i c, _create_chunk md5_hexdigest doc c _ _ _)) by done.
    exact Hcs_words.
  - by apply chunk_sections_cover.
Qed.

(** C7, as the code has it. For every small-tier document that has no
    section header, or nothing but whitespace before its first section
    header, chunked by word windows that repeat no word (the overlap is
    0, or every section fits in one window): [chunk_document] returns,
    and the words of the contents of its chunks, in order, are the words
    of the document. *)
Theorem small_file_chunks_cover (self : MemoryBankChunker) (file_path content : pystr) :
  use_token_based self = false →
  (categorize_document self content).1 = Green →
  windows_disjoint self (windowed_texts section_regex_match content) →
  _extract_sections section_regex_match content = []
  ∨ line_words (preamble section_regex_match content) = [] →
  ∃ chunks,
    chunk_document section_regex_match md5_hexdigest self file_path content = Some chunks
    ∧ chunk_words chunks = split_ws content.
Proof.
  intros Hwords Hsmall Hdis Hpre.
  destruct (small_file_chunks_from_first_header self file_path content Hwords Hsmall Hdis)
    as (chunks & Hrun & Hcover).
  exists chunks. split; [done|]. rewrite Hcover.
  destruct (_extract_sections section_regex_match content) eqn:E.
  - unfold covered_text. by rewrite E.
  - destruct Hpre as [?|Hpre]; [done|].
    rewrite (preamble_covered_words content) by (by rewrite E).
    by rewrite Hpre.
Qed.

End Coverage.

Lemma small_file_chunks_cover_witness :
  ∃ chunks,
    chunk_document h2_regex_match id_hash (word_chunker 512 0 400 600) (py "a.md")
      (py "## A" ++ [newline] ++ py "one two") = Some chunks
    ∧ chunk_words chunks = [py "##"; py "A"; py "one"; py "two"].
Proof.
  apply (small_file_chunks_cover h2_regex_match id_hash (word_chunker 512 0 400 600)
           (py "a.md") (py "## A" ++ [newline] ++ py "one two")).
  - reflexivity.
  - reflexivity.
  - left. split; [reflexivity|]. cbn. lia.
  - right. reflexivity.
Defined.

(** A small file with a line of text before its first header, and a
    small file whose section is longer than a window with overlap: the
    words of the chunks are not the words of the document. The first
    loses the line, the second repeats a word. *)
Lemma small_file_chunks_not_covering :
  (∃ chunks,
     (categorize_document (word_chunker 512 50 400 600)
        (py "intro" ++ [newline] ++ py "## A" ++ [newline] ++ py "body")).1 = Green
     ∧ chunk_document h2_regex_match id_hash (word_chunker 512 50 400 600) (py "a.md")
         (py "intro" ++ [newline] ++ py "## A" ++ [newline] ++ py "body") = Some chunks
     ∧ chunk_words chunks = [py "##"; py "A"; py "body"]
     ∧ chunk_words chunks
       ≠ split_ws (py "intro" ++ [newline] ++ py "## A" ++ [newline] ++ py "body"))
  ∧ (∃ chunks,
       (categorize_document (word_chunker 2 1 400 600) (py "a b c")).1 = Green
       ∧ chunk_document h2_regex_match id_hash (word_chunker 2 1 400 600) (py "a.md")
           (py "a b c") = Some chunks
       ∧ chunk_words chunks = [py "a"; py "b"; py "b"; py "c"]
       ∧ chunk_words chunks ≠ split_ws (py "a b c")).
Proof.
  split; eexists; (split; [reflexivity|]); (split; [reflexivity|]);
    (split; [reflexivity|]); vm_compute; discriminate.
Qed.

Example small_file_chunks_repeat_overlap :
  ∃ chunks,
    chunk_document h2_regex_match id_hash (word_chunker 2 1 400 600) (py "a.md")
      (py "a b c") = Some chunks
    ∧ chunk_words chunks = [py "a"; py "b"; py "b"; py "c"].
Proof. eexists. split; reflexivity. Qed.

Example small_file_preamble_dropped :
  ∃ chunks,
    chunk_document h2_regex_match id_hash (word_chunker 512 50 400 600) (py "a.md")
      (py "intro" ++ [newline] ++ py "## A" ++ [newline] ++ py "body") = Some chunks
    ∧ content <$> chunks = [py "## A" ++ [newline] ++ py "body"].
Proof. eexists. split; reflexivity. Qed.

(** ** The embedding cache *)

Section EmbedderProperties.

Variable md5_hexdigest : pystr → pystr.
Variable model_encode : list pystr → list Embedding.

(** The provider answers a batch with one embedding per text. *)
Hypothesis model_encode_length : ∀ batch, length (model_encode batch) = length batch.

Let hash_of (c : Chunk) : pystr := _get_content_hash md5_hexdigest (content c).
Let missing (cache : gmap pystr Embedding) (c : Chunk) : Prop := cache !! hash_of c = None.

Lemma check_cache_todo cache chunks i :
  (check_cache md5_hexdigest cache chunks i).1.2 = filter (missing cache) chunks.
Proof.
  revert i. induction chunks as [|c rest IH]; intros i; [done|].
  cbn [check_cache]. specialize (IH (S i)).
  destruct (check_cache md5_hexdigest cache rest (S i)) as [[e todo] idx].
  cbn in IH. subst todo.
  destruct (cache !! _get_content_hash md5_hexdigest (content c)) eqn:E; cbn [fst snd].
  - rewrite filter_cons_False; [done|]. unfold missing, hash_of. by rewrite E.
  - by rewrite filter_cons_True.
Qed.

Lemma check_cache_lengths cache chunks i :
  length (check_cache md5_hexdigest cache chunks i).2
  = length (check_cache md5_hexdigest cache chunks i).1.2.
Proof.
  revert i. induction chunks as [|c rest IH]; intros i; [done|].
  cbn [check_cache]. specialize (IH (S i)).
  destruct (check_cache md5_hexdigest cache rest (S i)) as [[e todo] idx].
  destruct (cache !! _ ); cbn in *; by rewrite ?IH.
Qed.

(** The batches are the texts, cut in pieces. *)
Lemma batch_loop_concat fuel (texts : list pystr) (i batch_size : Z) :
  (0 < batch_size)%Z → (0 ≤ i)%Z → (len texts - i ≤ Z.of_nat fuel)%Z →
  concat (batch_loop fuel texts i batch_size) = drop (Z.to_nat i) texts.
Proof.
  intros Hbs. revert i. induction fuel as [|fuel IH]; intros i Hi Hfuel.
  - cbn. rewrite drop_ge; [done|unfold len in *; lia].
  - cbn [batch_loop]. destruct (Z.ltb_spec i (len texts)) as [Hlt|Hge].
    + cbn [concat]. rewrite IH by lia.
      unfold py_slice, slice_index.
      destruct (Z.ltb_spec i 0); [lia|]. destruct (Z.ltb_spec (i + batch_size) 0); [lia|].
      rewrite (Z.min_l i) by lia.
      etrans; [|apply (take_drop (Z.to_nat (Z.min (i + batch_size) (len texts) - i)))].
      f_equal. rewrite drop_drop.
      destruct (Z.le_gt_cases (i + batch_size) (len texts)).
      * f_equal. lia.
      * rewrite !drop_ge; [done|unfold len in *; lia..].
    + cbn. rewrite drop_ge; [done|unfold len in *; lia].
Qed.

Lemma batch_encode_positive (self : LocalEmbedder) (texts : list pystr) :
  (0 < batch_size self)%Z →
  ∃ new_embeddings batches,
    _batch_encode model_encode self texts = Some (new_embeddings, batches)
    ∧ concat batches = texts
    ∧ length new_embeddings = length texts.
Proof.
  intros Hbs. unfold _batch_encode.
  destruct (Z.eqb_spec (batch_size self) 0); [lia|].
  destruct (Z.ltb_spec (batch_size self) 0); [lia|].
  eexists _, _. split; [done|].
  assert (Hc : concat (batch_loop (length texts) texts 0 (batch_size self)) = texts).
  { rewrite batch_loop_concat by (unfold len; lia). done. }
  split; [done|].
  transitivity (length (concat (batch_loop (length texts) texts 0 (batch_size self))));
    [|by rewrite Hc]. clear Hc.
  generalize (batch_loop (length texts) texts 0 (batch_size self)). intros bs.
  induction bs as [|b bs IH]; [done|].
  cbn. by rewrite !length_app, model_encode_length, IH.
Qed.

Lemma zip3_firsts {A B C} (a : list A) (b : list B) (c : list C) :
  length b = length a → length c = length a →
  (λ x : A * B * C, x.1.1) <$> zip3 a b c = a.
Proof.
  revert b c. induction a as [|x a IH]; intros [|y b] [|z c] Hb Hc; try done.
  cbn in *. f_equal. apply IH; lia.
Qed.

Lemma commit_embedding_dom cache embeddings (items : list (Chunk * Embedding * nat)) :
  dom (foldl (commit_embedding md5_hexdigest) (cache, embeddings) items).1
  = dom cache ∪ list_to_set (hash_of <$> ((λ x, x.1.1) <$> items)).
Proof.
  revert cache embeddings. induction items as [|[[c e] i] items IH];
    intros cache embeddings.
  - cbn. by rewrite (right_id_L ∅ (∪)).
  - cbn [foldl commit_embedding fst snd]. rewrite IH. cbn.
    rewrite dom_insert_L. unfold hash_of.
    by rewrite (comm_L (∪) {[_]} (dom cache)), (assoc_L (∪)).
Qed.

Lemma missing_with_content cache (text : pystr) (chunks : list Chunk) :
  length (filter (λ t, t = text) (content <$> filter (missing cache) chunks))
  = if decide (md5_hexdigest text ∈ dom cache) then 0
    else chunks_with_content text chunks.
Proof.
  unfold chunks_with_content.
  induction chunks as [|c rest IH]; [by case_decide|].
  destruct (decide (content c = text)) as [Hc|Hc].
  - rewrite (filter_cons_True (λ c, content c = text)) by done.
    destruct (decide (md5_hexdigest text ∈ dom cache)) as [Hin|Hout].
    + rewrite filter_cons_False; [done|].
      unfold missing, hash_of, _get_content_hash. rewrite Hc.
      apply elem_of_dom in Hin as [e ->]. done.
    + rewrite filter_cons_True.
      * cbn [fmap list_fmap]. rewrite filter_cons_True by done. cbn. by rewrite IH.
      * unfold missing, hash_of, _get_content_hash. rewrite Hc.
        by apply not_elem_of_dom.
  - rewrite (filter_cons_False (λ c, content c = text)) by done.
    destruct (decide (missing cache c)).
    + rewrite filter_cons_True by done. cbn [fmap list_fmap].
      by rewrite filter_cons_False.
    + by rewrite filter_cons_False.
Qed.

(** One call: the provider is given the text once for every chunk that
    holds it, unless its hash is in the cache already; afterwards the
    hashes of all chunks of the call are in the cache. *)
Lemma embed_chunks_encodes (self : LocalEmbedder) (chunks : list Chunk) (text : pystr) :
  (0 < batch_size self)%Z →
  ∃ embeddings self',
    embed_chunks md5_hexdigest model_encode self chunks = Some (embeddings, self')
    ∧ batch_size self' = batch_size self
    ∧ times_encoded self' text
      = times_encoded self text
        + (if decide (md5_hexdigest text ∈ dom (embedding_cache self)) then 0
           else chunks_with_content text chunks)
    ∧ dom (embedding_cache self')
      = dom (embedding_cache self) ∪ list_to_set (hash_of <$> chunks).
Proof.
  intros Hbs. unfold embed_chunks.
  pose proof (check_cache_todo (embedding_cache self) chunks 0) as Htodo.
  pose proof (check_cache_lengths (embedding_cache self) chunks 0) as Hlen.
  pose proof (missing_with_content (embedding_cache self) text chunks) as Hcount.
  destruct (check_cache md5_hexdigest (embedding_cache self) chunks 0)
    as [[embeddings todo] idx].
  cbn in Htodo, Hlen.
  assert (Hcached : ∀ c, c ∈ chunks → c ∉ todo →
                         hash_of c ∈ dom (embedding_cache self)).
  { intros c Hc Hn. apply elem_of_dom. destruct (embedding_cache self !! hash_of c) eqn:E;
      [eauto|]. exfalso. apply Hn. rewrite Htodo. by apply list_elem_of_filter. }
  assert (Hsub : ∀ c, c ∈ todo → c ∈ chunks).
  { intros c. rewrite Htodo. by intros [_ ?]%list_elem_of_filter. }
  destruct todo as [|c0 todo'] eqn:Etodo.
  - eexists _, _. split; [done|]. split; [done|]. split.
    + rewrite <- Htodo in Hcount. cbn in Hcount. rewrite <- Hcount. lia.
    + apply set_eq. intros h. rewrite elem_of_union, elem_of_list_to_set, list_elem_of_fmap.
      split; [by left|]. intros [?|(c & -> & Hc)]; [done|].
      apply Hcached; [done|]. apply not_elem_of_nil.
  - rewrite <- Etodo in *. clear Etodo c0 todo'.
    destruct (batch_encode_positive self (content <$> todo) Hbs)
      as (new & batches & -> & Hconcat & Hnew).
    cbn [mbind option_bind].
    pose proof (commit_embedding_dom (embedding_cache self) embeddings
                  (zip3 todo new idx)) as Hdom.
    destruct (foldl _ _ _) as [cache' embeddings'].
    cbn in Hdom. rewrite zip3_firsts in Hdom by (rewrite ?length_fmap in *; lia).
    eexists _, _. split; [done|]. split; [done|]. split.
    + unfold times_encoded. cbn [encoded_batches].
      rewrite concat_app, filter_app, length_app, Hconcat, Htodo. by rewrite Hcount.
    + cbn. rewrite Hdom. apply set_eq. intros h.
      rewrite !elem_of_union, !elem_of_list_to_set, !list_elem_of_fmap. split.
      * intros [?|(c & -> & Hc)]; [by left|]. right. exists c. split; [done|].
        by apply Hsub.
      * intros [?|(c & -> & Hc)]; [by left|].
        destruct (embedding_cache self !! hash_of c) eqn:E.
        -- left. apply elem_of_dom. eauto.
        -- right. exists c. split; [done|]. rewrite Htodo.
           by apply list_elem_of_filter.
Qed.

Lemma chunks_with_content_pos (text : pystr) (chunks : list Chunk) (c : Chunk) :
  c ∈ chunks → content c = text → 0 < chunks_with_content text chunks.
Proof.
  intros Hc Ht. unfold chunks_with_content.
  assert (Hin : c ∈ filter (λ c, content c = text) chunks)
    by (by apply list_elem_of_filter).
  destruct (filter _ chunks); [by apply not_elem_of_nil in Hin|cbn; lia].
Qed.

(** Once the hash of a text is in the cache, no call gives the text to
    the provider. *)
Lemma embed_calls_cached (self : LocalEmbedder) (calls : list (list Chunk)) (text : pystr) :
  (0 < batch_size self)%Z →
  md5_hexdigest text ∈ dom (embedding_cache self) →
  ∃ self', embed_calls md5_hexdigest model_encode self calls = Some self'
           ∧ times_encoded self' text = times_encoded self text
           ∧ md5_hexdigest text ∈ dom (embedding_cache self')
           ∧ batch_size self' = batch_size self.
Proof.
  revert self. induction calls as [|chunks rest IH]; intros self Hbs Hin.
  - by exists self.
  - destruct (embed_chunks_encodes self chunks text Hbs)
      as (embeddings & self1 & Hrun & Hbs1 & Htimes & Hdom).
    rewrite decide_True in Htimes by done.
    destruct (IH self1) as (self' & Hrest & Htimes' & Hin' & Hbs').
    + by rewrite Hbs1.
    + rewrite Hdom. apply elem_of_union. by left.
    + exists self'. cbn [embed_calls]. rewrite Hrun. cbn.
      split; [done|]. split; [lia|]. split; [done|congruence].
Qed.

(** Before that, the first call that holds the text has it encoded. *)
Lemma embed_calls_fresh (self : LocalEmbedder) (calls : list (list Chunk)) (text : pystr) :
  (0 < batch_size self)%Z →
  md5_hexdigest text ∉ dom (embedding_cache self) →
  (∀ chunks c, chunks ∈ calls → c ∈ chunks →
               md5_hexdigest (content c) = md5_hexdigest text → content c = text) →
  (∀ chunks, chunks ∈ calls → chunks_with_content text chunks ≤ 1) →
  (∃ chunks, chunks ∈ calls ∧ 0 < chunks_with_content text chunks) →
  ∃ self', embed_calls md5_hexdigest model_encode self calls = Some self'
           ∧ times_encoded self' text = S (times_encoded self text)
           ∧ md5_hexdigest text ∈ dom (embedding_cache self')
           ∧ batch_size self' = batch_size self.
Proof.
  revert self. induction calls as [|chunks rest IH];
    intros self Hbs Hout Hcoll Honce Hsome.
  - destruct Hsome as (chunks & Hin & _). by apply not_elem_of_nil in Hin.
  - destruct (embed_chunks_encodes self chunks text Hbs)
      as (embeddings & self1 & Hrun & Hbs1 & Htimes & Hdom).
    rewrite decide_False in Htimes by done.
    cbn [embed_calls]. rewrite Hrun. cbn.
    destruct (decide (chunks_with_content text chunks = 0)) as [Hzero|Hpos].
    + destruct (IH self1) as (self' & Hrest & Htimes' & Hin' & Hbs').
      * by rewrite Hbs1.
      * rewrite Hdom, elem_of_union, elem_of_list_to_set, list_elem_of_fmap.
        intros [?|(c & Hh & Hc)]; [done|].
        pose proof (chunks_with_content_pos text chunks c Hc) as Hp.
        rewrite Hzero in Hp. apply (Nat.lt_irrefl 0), Hp.
        apply (Hcoll chunks); [apply list_elem_of_here|done|by rewrite Hh].
      * intros cs c Hcs. apply Hcoll. by apply list_elem_of_further.
      * intros cs Hcs. apply Honce. by apply list_elem_of_further.
      * destruct Hsome as (cs & [->|Hcs]%elem_of_cons & Hp); [lia|eauto].
      * exists self'. repeat split; [done| |done|congruence]. lia.
    + pose proof (Honce chunks (list_elem_of_here _ _)) as Hle.
      destruct (embed_calls_cached self1 rest text)
        as (self' & Hrest & Htimes' & Hin' & Hbs').
      * by rewrite Hbs1.
      * rewrite Hdom, elem_of_union, elem_of_list_to_set, list_elem_of_fmap. right.
        destruct (filter (λ c, content c = text) chunks) as [|c l] eqn:E.
        { exfalso. apply Hpos. unfold chunks_with_content. by rewrite E. }
        assert (Hc : c ∈ filter (λ c, content c = text) chunks)
          by (rewrite E; apply list_elem_of_here).
        apply list_elem_of_filter in Hc as [Hct Hc].
        exists c. split; [|done]. unfold hash_of, _get_content_hash. by rewrite Hct.
      * exists self'. repeat split; [done| |done|congruence]. lia.
Qed.

(** C4, as the code has it. Over any sequence of [embed_chunks] calls
    none of which holds the text twice, on an embedder with a positive
    batch size whose cache does not hold the hash of the text, and with
    no other text of the calls sharing that hash: if some call holds a
    chunk with the text, the provider encodes the text exactly once,
    and every request after these calls is served from the cache. *)
Theorem identical_content_encoded_once
    (self : LocalEmbedder) (calls : list (list Chunk)) (text : pystr) :
  (0 < batch_size self)%Z →
  md5_hexdigest text ∉ dom (embedding_cache self) →
  (∀ chunks c, chunks ∈ calls → c ∈ chunks →
               md5_hexdigest (content c) = md5_hexdigest text → content c = text) →
  (∀ chunks, chunks ∈ calls → chunks_with_content text chunks ≤ 1) →
  (∃ chunks, chunks ∈ calls ∧ 0 < chunks_with_content text chunks) →
  ∃ self', embed_calls md5_hexdigest model_encode self calls = Some self'
           ∧ times_encoded self' text = S (times_encoded self text)
           ∧ ∀ later, ∃ self'',
               embed_calls md5_hexdigest model_encode self' later = Some self''
               ∧ times_encoded self'' text = times_encoded self' text.
Proof.
  intros Hbs Hout Hcoll Honce Hsome.
  destruct (embed_calls_fresh self calls text Hbs Hout Hcoll Honce Hsome)
    as (self' & Hrun & Htimes & Hin & Hbs').
  exists self'. split; [done|]. split; [done|].
  intros later.
  destruct (embed_calls_cached self' later text) as (self'' & Hlater & Hsame & _ & _);
    [by rewrite Hbs'|done|].
  by exists self''.
Qed.

End EmbedderProperties.

Lemma null_encode_length (batch : list pystr) : length (null_encode batch) = length batch.
Proof. unfold null_encode. apply length_fmap. Defined.

Lemma identical_content_encoded_once_witness :
  ∃ self',
    embed_calls id_hash null_encode (mkEmbedder 32 ∅ [])
      [[example_chunk "A" 0]; [example_chunk "B" 5]] = Some self'
    ∧ times_encoded self' (py "same text") = 1.
Proof.
  destruct (identical_content_encoded_once id_hash null_encode null_encode_length
              (mkEmbedder 32 ∅ []) [[example_chunk "A" 0]; [example_chunk "B" 5]]
              (py "same text"))
    as (self' & Hrun & Htimes & _).
  - reflexivity.
  - cbn. apply not_elem_of_empty.
  - intros chunks c _ _ H. exact H.
  - intros chunks Hin.
    apply elem_of_cons in Hin as [->|Hin]; [vm_compute; lia|].
    apply elem_of_cons in Hin as [->|Hin]; [vm_compute; lia|].
    by apply not_elem_of_nil in Hin.
  - exists [example_chunk "A" 0]. split; [apply list_elem_of_here|vm_compute; lia].
  - exists self'. split; [exact Hrun|exact Htimes].
Defined.

(** Two chunks with the same text in one call both miss the cache, and
    the provider is given the text twice. *)
Lemma identical_content_in_one_call :
  ¬ (∀ (self : LocalEmbedder) (c1 c2 : Chunk) embeddings self',
       content c1 = content c2 →
       (0 < batch_size self)%Z →
       embedding_cache self = ∅ → encoded_batches self = [] →
       embed_chunks id_hash null_encode self [c1; c2] = Some (embeddings, self') →
       times_encoded self' (content c1) = 1).
Proof.
  intros H.
  specialize (H (mkEmbedder 32 ∅ []) (example_chunk "A" 0) (example_chunk "B" 5)
                _ _ eq_refl eq_refl eq_refl eq_refl eq_refl).
  vm_compute in H. discriminate.
Qed.

Example one_call_encodes_twice :
  ∃ embeddings self',
    embed_chunks id_hash null_encode (mkEmbedder 32 ∅ [])
      [example_chunk "A" 0; example_chunk "B" 5] = Some (embeddings, self')
    ∧ encoded_batches self' = [[py "same text"; py "same text"]].
Proof. eexists _, _. split; reflexivity. Qed.

(** ** Score fusion *)

Lemma dict_get_Some_elem {V} (m : list (pystr * V)) (k : pystr) (v : V) :
  dict_get m k = Some v → (k, v) ∈ m.
Proof.
  induction m as [|[k' v'] m IH]; [done|]. cbn. case_decide.
  - intros; simplify_eq. apply list_elem_of_here.
  - intros Hget. apply list_elem_of_further. by apply IH.
Qed.

Lemma dict_get_None {V} (m : list (pystr * V)) (k : pystr) :
  dict_get m k = None ↔ k ∉ m.*1.
Proof.
  induction m as [|[k' v'] m IH]; [split; [intros _; apply not_elem_of_nil|done]|].
  cbn. case_decide.
  - subst. split; [done|]. intros H. exfalso. apply H. apply list_elem_of_here.
  - rewrite IH, not_elem_of_cons. split; [by split|by intros [_ ?]].
Qed.

Lemma dict_get_NoDup {V} (m : list (pystr * V)) (k : pystr) (v : V) :
  NoDup m.*1 → (k, v) ∈ m → dict_get m k = Some v.
Proof.
  induction m as [|[k' v'] m IH]; intros Hnd Hin; [by apply not_elem_of_nil in Hin|].
  cbn in *. apply NoDup_cons in Hnd as [Hk' Hnd].
  apply elem_of_cons in Hin as [Heq|Hin].
  - simplify_eq. by rewrite decide_True.
  - rewrite decide_False; [by apply IH|].
    intros ->. apply Hk'. apply list_elem_of_fmap. by exists (k, v).
Qed.

Lemma fusion_key_unique (st : store) (m : combined) cid x y :
  fusion_consistent st m → (cid, x) ∈ m → (cid, y) ∈ m → x = y.
Proof.
  intros [Hnd _] Hx Hy.
  apply (dict_get_NoDup _ _ _ Hnd) in Hx, Hy. congruence.
Qed.

Lemma fusion_key_elem (m : combined) cid x : (cid, x) ∈ m → cid ∈ m.*1.
Proof. intros H. apply list_elem_of_fmap. by exists (cid, x). Qed.

Lemma fusion_value_elem (m : combined) cid x : (cid, x) ∈ m → x ∈ m.*2.
Proof. intros H. apply list_elem_of_fmap. by exists (cid, x). Qed.

Lemma id_at_insert_same (st : store) (x y : nat) (r r' : SearchResult) :
  st !! x = Some r → chunk r' = chunk r → id_at (<[x := r']> st) y = id_at st y.
Proof.
  intros Hx Hc. unfold id_at. destruct (decide (x = y)) as [->|Hne].
  - rewrite lookup_insert_eq, Hx. cbn. by rewrite Hc.
  - by rewrite lookup_insert_ne.
Qed.

Lemma id_at_Some (st : store) (x : nat) (r : SearchResult) :
  st !! x = Some r → id_at st x = Some (chunk_id (chunk r)).
Proof. intros H. unfold id_at. by rewrite H. Qed.

Lemma NoDup_id_at_cons (st : store) (x : nat) (xs : list nat) :
  NoDup (id_at st <$> (x :: xs)) →
  NoDup (id_at st <$> xs) ∧ ∀ y, y ∈ xs → id_at st y ≠ id_at st x.
Proof.
  cbn. intros [Hx Hnd]%NoDup_cons. split; [done|].
  intros y Hy E. apply Hx. rewrite <- E. by apply list_elem_of_fmap_2.
Qed.

Lemma fusion_consistent_snoc (st : store) (m : combined) (x : nat) (r r' : SearchResult) :
  fusion_consistent st m → st !! x = Some r → chunk r' = chunk r →
  chunk_id (chunk r) ∉ m.*1 →
  fusion_consistent (<[x := r']> st) (m ++ [(chunk_id (chunk r), x)]).
Proof.
  intros [Hnd Hids] Hx Hc Hfresh. split.
  - rewrite fmap_app. apply NoDup_app. split; [done|]. split.
    + intros c Hin [->|[]%not_elem_of_nil]%elem_of_cons. done.
    + cbn. apply NoDup_singleton.
  - intros cid y Hin. rewrite (id_at_insert_same _ _ _ r) by done.
    apply elem_of_app in Hin as [Hin|Hin]; [by apply Hids|].
    apply list_elem_of_singleton in Hin. simplify_eq. by apply id_at_Some.
Qed.

Lemma fusion_consistent_update (st : store) (m : combined) (x : nat) (r r' : SearchResult) :
  fusion_consistent st m → st !! x = Some r → chunk r' = chunk r →
  fusion_consistent (<[x := r']> st) m.
Proof.
  intros [Hnd Hids] Hx Hc. split; [done|].
  intros cid y Hin. rewrite (id_at_insert_same _ _ _ r) by done. by apply Hids.
Qed.

Section Fusion.

Variable alpha : Q.

(** The semantic loop over results whose chunk ids are new to the map
    and distinct: every result enters the map with its score scaled. *)
Lemma combine_semantic_loop (sem : list nat) (st0 : store) (m0 : combined) :
  fusion_consistent st0 m0 →
  (∀ s, s ∈ sem → is_Some (st0 !! s)) →
  NoDup (id_at st0 <$> sem) →
  (∀ s cid, s ∈ sem → id_at st0 s = Some cid → cid ∉ m0.*1) →
  ∃ st1 m1,
    foldl (combine_semantic alpha) (st0, m0) sem = (st1, m1)
    ∧ fusion_consistent st1 m1
    ∧ (∀ x, id_at st1 x = id_at st0 x)
    ∧ (∀ cid x, (cid, x) ∈ m0 → (cid, x) ∈ m1)
    ∧ (∀ cid x, (cid, x) ∈ m1 → (cid, x) ∈ m0 ∨ x ∈ sem)
    ∧ (∀ s rs, s ∈ sem → st0 !! s = Some rs →
         (chunk_id (chunk rs), s) ∈ m1 ∧ st1 !! s = Some (semantic_share alpha rs))
    ∧ (∀ x, x ∉ sem → st1 !! x = st0 !! x).
Proof.
  revert st0 m0. induction sem as [|s rest IH]; intros st0 m0 Hwf Hvalid Hnd Hfresh.
  - exists st0, m0. do 4 (split; [done|]). split; [by left|]. split; [|done].
    intros s rs Hin. by apply not_elem_of_nil in Hin.
  - destruct (Hvalid s (list_elem_of_here _ _)) as [rs Hs].
    apply NoDup_id_at_cons in Hnd as [Hnd Hdiff].
    assert (Hkey : chunk_id (chunk rs) ∉ m0.*1).
    { apply (Hfresh s); [apply list_elem_of_here|by apply id_at_Some]. }
    assert (Hstep : combine_semantic alpha (st0, m0) s
                    = (<[s := semantic_share alpha rs]> st0,
                       m0 ++ [(chunk_id (chunk rs), s)])).
    { cbn. rewrite Hs. by rewrite (proj2 (dict_get_None _ _) Hkey). }
    assert (Hids : ∀ x, id_at (<[s := semantic_share alpha rs]> st0) x = id_at st0 x).
    { intros x. by apply (id_at_insert_same _ _ _ rs). }
    assert (Hnotin : s ∉ rest).
    { intros Hin. by apply (Hdiff s Hin). }
    destruct (IH (<[s := semantic_share alpha rs]> st0) (m0 ++ [(chunk_id (chunk rs), s)]))
      as (st1 & m1 & Hrun & Hwf1 & Hids1 & Hsub & Hsup & Hshare & Hframe).
    + by apply (fusion_consistent_snoc _ _ _ rs).
    + intros y Hy. destruct (decide (s = y)) as [->|Hne]; [done|].
      rewrite lookup_insert_ne by done. apply Hvalid. by apply list_elem_of_further.
    + erewrite list_fmap_ext; [exact Hnd|]. intros; apply Hids.
    + intros y cid Hy Hcid. rewrite Hids in Hcid. rewrite fmap_app, not_elem_of_app.
      split; [eapply Hfresh; [by apply list_elem_of_further|done]|].
      cbn. intros ->%list_elem_of_singleton.
      apply (Hdiff y Hy). rewrite Hcid. symmetry. by apply id_at_Some.
    + exists st1, m1. cbn [foldl]. rewrite Hstep. split; [done|]. split; [done|].
      split; [intros x; by rewrite Hids1|].
      split; [intros cid x Hin; apply Hsub, elem_of_app; by left|].
      split; [|split].
      * intros cid x Hin. apply Hsup in Hin as [Hin|Hin].
        -- apply elem_of_app in Hin as [Hin|Hin]; [by left|].
           apply list_elem_of_singleton in Hin. simplify_eq. right. apply list_elem_of_here.
        -- right. by apply list_elem_of_further.
      * intros y ry Hy Hry. apply elem_of_cons in Hy as [->|Hy].
        -- simplify_eq. split.
           ++ apply Hsub, elem_of_app. right. apply list_elem_of_here.
           ++ rewrite Hframe by done. apply lookup_insert_eq.
        -- apply Hshare; [done|].
           rewrite lookup_insert_ne; [done|]. intros ->. done.
      * intros x Hx. apply not_elem_of_cons in Hx as [Hne Hx].
        rewrite Hframe by done. by rewrite lookup_insert_ne.
Qed.

(** The keyword loop over results with distinct chunk ids that are not
    yet in the map as objects: a result whose chunk id is a key adds its
    share to the object of that key, which becomes hybrid; any other
    result enters the map with its score scaled and the keyword tag. *)
Lemma combine_keyword_loop (kw : list nat) (st1 : store) (m1 : combined) :
  fusion_consistent st1 m1 →
  (∀ k, k ∈ kw → is_Some (st1 !! k)) →
  NoDup (id_at st1 <$> kw) →
  (∀ k, k ∈ kw → k ∉ m1.*2) →
  ∃ st' m',
    foldl (combine_keyword alpha) (st1, m1) kw = (st', m')
    ∧ fusion_consistent st' m'
    ∧ (∀ x, id_at st' x = id_at st1 x)
    ∧ (∀ cid x, (cid, x) ∈ m1 → (cid, x) ∈ m')
    ∧ (∀ cid x, (cid, x) ∈ m' → (cid, x) ∈ m1 ∨ x ∈ kw)
    ∧ (∀ cid x r0, (cid, x) ∈ m1 → st1 !! x = Some r0 →
         (∀ k, k ∈ kw → id_at st1 k ≠ Some cid) → st' !! x = Some r0)
    ∧ (∀ cid x r0 k rk, (cid, x) ∈ m1 → st1 !! x = Some r0 →
         k ∈ kw → st1 !! k = Some rk → chunk_id (chunk rk) = cid →
         st' !! x = Some (hybrid_sum alpha r0 rk))
    ∧ (∀ k rk, k ∈ kw → st1 !! k = Some rk → chunk_id (chunk rk) ∉ m1.*1 →
         (chunk_id (chunk rk), k) ∈ m' ∧ st' !! k = Some (keyword_share alpha rk)).
Proof.
  revert st1 m1. induction kw as [|k rest IH]; intros st1 m1 Hwf Hvalid Hnd Hnew.
  - exists st1, m1. do 4 (split; [done|]). split; [by left|]. split; [done|].
    split; intros; exfalso; eapply not_elem_of_nil; eassumption.
  - destruct (Hvalid k (list_elem_of_here _ _)) as [rk Hk].
    apply NoDup_id_at_cons in Hnd as [Hnd Hdiff].
    assert (Hnotin : k ∉ rest) by (intros Hin; by apply (Hdiff k Hin)).
    assert (Hknew : k ∉ m1.*2) by apply Hnew, list_elem_of_here.
    assert (Hidk : id_at st1 k = Some (chunk_id (chunk rk))) by (by apply id_at_Some).
    destruct (dict_get m1 (chunk_id (chunk rk))) as [x0|] eqn:Hget.
    + (* the chunk id is a key: the object of the key becomes hybrid *)
      pose proof (dict_get_Some_elem _ _ _ Hget) as Hx0.
      assert (Hx0id : id_at st1 x0 = Some (chunk_id (chunk rk))) by (by apply Hwf).
      destruct (st1 !! x0) as [r00|] eqn:Hr00; [|by unfold id_at in Hx0id; rewrite Hr00 in Hx0id].
      assert (Hne0 : x0 ≠ k).
      { intros ->. apply Hknew. by eapply fusion_value_elem. }
      assert (Hstep : combine_keyword alpha (st1, m1) k
                      = (<[x0 := hybrid_sum alpha r00 rk]> st1, m1)).
      { cbn. by rewrite Hk, Hget, Hr00. }
      assert (Hids : ∀ x, id_at (<[x0 := hybrid_sum alpha r00 rk]> st1) x = id_at st1 x).
      { intros x. by apply (id_at_insert_same _ _ _ r00). }
      destruct (IH (<[x0 := hybrid_sum alpha r00 rk]> st1) m1)
        as (st' & m' & Hrun & Hwf' & Hids' & Hsub & Hsup & Hsame & Hhyb & Hkey).
      * by apply (fusion_consistent_update _ _ _ r00).
      * intros y Hy. destruct (decide (x0 = y)) as [->|Hne]; [by rewrite lookup_insert_eq|].
        rewrite lookup_insert_ne by done. apply Hvalid. by apply list_elem_of_further.
      * erewrite list_fmap_ext; [exact Hnd|]. intros; apply Hids.
      * intros y Hy. apply Hnew. by apply list_elem_of_further.
      * exists st', m'. cbn [foldl]. rewrite Hstep. split; [done|]. split; [done|].
        split; [intros x; by rewrite Hids'|]. split; [done|].
        split; [|split; [|split]].
        -- intros cid x Hin. apply Hsup in Hin as [?|?]; [by left|].
           right. by apply list_elem_of_further.
        -- intros cid x r0 Hin Hx Hno.
           assert (Hcid : cid ≠ chunk_id (chunk rk)).
           { intros ->. by apply (Hno k (list_elem_of_here _ _)). }
           assert (Hxne : x0 ≠ x).
           { intros ->. apply Hcid. apply Hwf in Hin. congruence. }
           apply (Hsame cid); [done|by rewrite lookup_insert_ne|].
           intros y Hy. rewrite Hids. apply Hno. by apply list_elem_of_further.
        -- intros cid x r0 y ry Hin Hx Hy Hry Hcid.
           apply elem_of_cons in Hy as [->|Hy].
           ++ simplify_eq.
              assert (x = x0) as ->
                by (by apply (fusion_key_unique st1 m1 (chunk_id (chunk rk)))).
              simplify_eq. apply (Hsame (chunk_id (chunk rk))); [done|apply lookup_insert_eq|].
              intros y Hy. rewrite Hids, <- Hidk. by apply Hdiff.
           ++ assert (Hcne : cid ≠ chunk_id (chunk rk)).
              { intros E. apply (Hdiff y Hy). rewrite Hidk, (id_at_Some _ _ ry) by done.
                congruence. }
              assert (Hxne : x0 ≠ x).
              { intros ->. apply Hcne. apply Hwf in Hin. congruence. }
              assert (Hyne : x0 ≠ y).
              { intros ->. apply (Hnew y); [by apply list_elem_of_further|].
                by eapply fusion_value_elem. }
              apply (Hhyb cid x r0 y ry); [done|by rewrite lookup_insert_ne|done|
                                           by rewrite lookup_insert_ne|done].
        -- intros y ry Hy Hry Hfresh.
           apply elem_of_cons in Hy as [->|Hy].
           ++ simplify_eq. exfalso. apply Hfresh. by eapply fusion_key_elem.
           ++ assert (Hyne : x0 ≠ y).
              { intros ->. apply (Hnew y); [by apply list_elem_of_further|].
                by eapply fusion_value_elem. }
              apply Hkey; [done|by rewrite lookup_insert_ne|done].
    + (* a new chunk id: the result enters the map *)
      apply dict_get_None in Hget.
      assert (Hstep : combine_keyword alpha (st1, m1) k
                      = (<[k := keyword_share alpha rk]> st1,
                         m1 ++ [(chunk_id (chunk rk), k)])).
      { cbn. rewrite Hk. by rewrite (proj2 (dict_get_None _ _) Hget). }
      assert (Hids : ∀ x, id_at (<[k := keyword_share alpha rk]> st1) x = id_at st1 x).
      { intros x. by apply (id_at_insert_same _ _ _ rk). }
      destruct (IH (<[k := keyword_share alpha rk]> st1) (m1 ++ [(chunk_id (chunk rk), k)]))
        as (st' & m' & Hrun & Hwf' & Hids' & Hsub & Hsup & Hsame & Hhyb & Hkey).
      * by apply (fusion_consistent_snoc _ _ _ rk).
      * intros y Hy. destruct (decide (k = y)) as [->|Hne]; [by rewrite lookup_insert_eq|].
        rewrite lookup_insert_ne by done. apply Hvalid. by apply list_elem_of_further.
      * erewrite list_fmap_ext; [exact Hnd|]. intros; apply Hids.
      * intros y Hy. rewrite fmap_app, not_elem_of_app. split.
        -- apply Hnew. by apply list_elem_of_further.
        -- cbn. intros ->%list_elem_of_singleton. done.
      * exists st', m'. cbn [foldl]. rewrite Hstep. split; [done|]. split; [done|].
        split; [intros x; by rewrite Hids'|].
        split; [intros cid x Hin; apply Hsub, elem_of_app; by left|].
        split; [|split; [|split]].
        -- intros cid x Hin. apply Hsup in Hin as [Hin|Hin].
           ++ apply elem_of_app in Hin as [Hin|Hin]; [by left|].
              apply list_elem_of_singleton in Hin. simplify_eq. right. apply list_elem_of_here.
           ++ right. by apply list_elem_of_further.
        -- intros cid x r0 Hin Hx Hno.
           assert (Hxne : k ≠ x).
           { intros ->. apply Hknew. by eapply fusion_value_elem. }
           apply (Hsame cid); [apply elem_of_app; by left|by rewrite lookup_insert_ne|].
           intros y Hy. rewrite Hids. apply Hno. by apply list_elem_of_further.
        -- intros cid x r0 y ry Hin Hx Hy Hry Hcid.
           assert (Hxne : k ≠ x).
           { intros ->. apply Hknew. by eapply fusion_value_elem. }
           apply elem_of_cons in Hy as [->|Hy].
           ++ simplify_eq. exfalso. apply Hget. by eapply fusion_key_elem.
           ++ assert (Hyne : k ≠ y) by (intros ->; done).
              apply (Hhyb cid x r0 y ry); [apply elem_of_app; by left|
                by rewrite lookup_insert_ne|done|by rewrite lookup_insert_ne|done].
        -- intros y ry Hy Hry Hfresh.
           apply elem_of_cons in Hy as [->|Hy].
           ++ simplify_eq. split.
              ** apply Hsub, elem_of_app. right. apply list_elem_of_here.
              ** apply (Hsame (chunk_id (chunk rk))).
                 --- apply elem_of_app. right. apply list_elem_of_here.
                 --- apply lookup_insert_eq.
                 --- intros z Hz. rewrite Hids, <- Hidk. by apply Hdiff.
           ++ assert (Hyne : k ≠ y) by (intros ->; done).
              apply Hkey; [done|by rewrite lookup_insert_ne|].
              rewrite fmap_app, not_elem_of_app. split; [done|].
              cbn. intros E%list_elem_of_singleton.
              apply (Hdiff y Hy). rewrite Hidk, (id_at_Some _ _ ry) by done. congruence.
Qed.

End Fusion.

Lemma deref_cons (st : store) (x : nat) (l : list nat) :
  deref st (x :: l)
  = match st !! x with Some r => r :: deref st l | None => deref st l end.
Proof. unfold deref. cbn. by destruct (st !! x). Qed.

Lemma result_for_cons (st : store) (x : nat) (l : list nat) (cid : pystr) :
  result_for st (x :: l) cid
  = match st !! x with
    | Some r => if decide (chunk_id (chunk r) = cid) then Some r
                else result_for st l cid
    | None => result_for st l cid
    end.
Proof.
  unfold result_for. rewrite deref_cons. destruct (st !! x) as [r|]; [|done].
  cbn. case_decide; [done|].
  by destruct (list_find _ (deref st l)) as [[i r']|].
Qed.

Lemma result_for_Some_elem (st : store) (l : list nat) (cid : pystr) (r : SearchResult) :
  result_for st l cid = Some r →
  ∃ x, x ∈ l ∧ st !! x = Some r ∧ chunk_id (chunk r) = cid.
Proof.
  induction l as [|x l IH]; [done|]. rewrite result_for_cons.
  destruct (st !! x) as [rx|] eqn:Hx.
  - case_decide.
    + intros; simplify_eq. exists x. split; [apply list_elem_of_here|done].
    + intros (y & Hy & Hr)%IH. exists y. split; [by apply list_elem_of_further|done].
  - intros (y & Hy & Hr)%IH. exists y. split; [by apply list_elem_of_further|done].
Qed.

Lemma result_for_None_elem (st : store) (l : list nat) (cid : pystr) :
  result_for st l cid = None →
  ∀ x, x ∈ l → id_at st x ≠ Some cid.
Proof.
  induction l as [|x l IH]; intros Hnone y Hy; [by apply not_elem_of_nil in Hy|].
  rewrite result_for_cons in Hnone. unfold id_at.
  apply elem_of_cons in Hy as [->|Hy].
  - destruct (st !! x) as [rx|]; [|done]. case_decide; [done|]. cbn. congruence.
  - apply (IH); [|done]. destruct (st !! x); [|done]. by case_decide.
Qed.

Lemma id_at_result_ids (st : store) (l : list nat) :
  (∀ x, x ∈ l → is_Some (st !! x)) →
  id_at st <$> l = Some <$> result_ids st l.
Proof.
  unfold result_ids. induction l as [|x l IH]; intros Hvalid; [done|].
  rewrite deref_cons. destruct (Hvalid x (list_elem_of_here _ _)) as [r Hr].
  cbn. unfold id_at at 1. rewrite Hr. cbn. f_equal.
  apply IH. intros y Hy. apply Hvalid. by apply list_elem_of_further.
Qed.

Lemma leg_results_ids (st : store) (l : list nat) :
  leg_results st l → NoDup (id_at st <$> l).
Proof.
  intros (_ & Hvalid & Hnd). rewrite id_at_result_ids by done.
  apply NoDup_fmap; [|done]. intros ?? ?; by simplify_eq.
Qed.

Lemma fusion_result_ids (st : store) (m : combined) :
  fusion_consistent st m → result_ids st m.*2 = m.*1.
Proof.
  unfold result_ids. induction m as [|[cid x] m IH]; intros [Hnd Hids]; [done|].
  cbn [fmap list_fmap snd fst]. rewrite deref_cons.
  pose proof (Hids cid x (list_elem_of_here _ _)) as Hx. unfold id_at in Hx.
  destruct (st !! x) as [r|]; [|done]. cbn in *. simplify_eq. f_equal.
  apply IH. split; [by apply NoDup_cons in Hnd as [_ ?]|].
  intros c y Hy. apply Hids. by apply list_elem_of_further.
Qed.

(** Looking a chunk id up in the returned list is looking it up in the
    fusion map. *)
Lemma result_for_fusion (st : store) (m : combined) (cid : pystr) :
  fusion_consistent st m →
  result_for st m.*2 cid = dict_get m cid ≫= (λ x, st !! x).
Proof.
  induction m as [|[c x] m IH]; intros [Hnd Hids]; [done|].
  cbn [fmap list_fmap snd fst dict_get]. rewrite result_for_cons.
  pose proof (Hids c x (list_elem_of_here _ _)) as Hx. unfold id_at in Hx.
  destruct (st !! x) as [r|] eqn:Hr; [|done]. cbn in Hx. simplify_eq.
  case_decide; [by cbn|].
  apply IH. split; [by apply NoDup_cons in Hnd as [_ ?]|].
  intros c y Hy. apply Hids. by apply list_elem_of_further.
Qed.

(** C1. For every pair of result lists as the two legs return them (one
    object per hit, one hit per chunk id within a leg) and every alpha,
    [_combine_results] returns one result per chunk id; its score is
    alpha times the semantic score for a chunk of the semantic list
    only, (1 - alpha) times the keyword score for a chunk of the keyword
    list only, and the sum of the two for a chunk of both. A chunk of
    both lists is tagged hybrid, a chunk of the keyword list only
    keyword, and a chunk of the semantic list only keeps the tag it came
    with. A chunk of neither list is not in the result. *)
Theorem combine_results_fuses (st : store) (sem kw : list nat) (alpha : Q) :
  leg_results st sem → leg_results st kw → (∀ x, x ∈ sem → x ∉ kw) →
  let st' := (_combine_results st sem kw alpha).1 in
  let out := (_combine_results st sem kw alpha).2 in
  NoDup (result_ids st' out)
  ∧ ∀ cid,
      match result_for st sem cid, result_for st kw cid with
      | Some s, None =>
          ∃ r, result_for st' out cid = Some r
               ∧ (score r == alpha * score s)%Q
               ∧ relevance_type r = relevance_type s
      | None, Some k =>
          ∃ r, result_for st' out cid = Some r
               ∧ (score r == (1 - alpha) * score k)%Q
               ∧ relevance_type r = keyword
      | Some s, Some k =>
          ∃ r, result_for st' out cid = Some r
               ∧ (score r == alpha * score s + (1 - alpha) * score k)%Q
               ∧ relevance_type r = hybrid
      | None, None => result_for st' out cid = None
      end.
Proof.
  intros Hsem Hkw Hdisj.
  destruct (combine_semantic_loop alpha sem st [])
    as (st1 & m1 & HrunA & Hwf1 & Hids1 & _ & Hsup1 & Hshare & Hframe).
  { split; [constructor|]. intros ?? Hin. by apply not_elem_of_nil in Hin. }
  { apply Hsem. }
  { by apply leg_results_ids. }
  { intros ? ? _ _. apply not_elem_of_nil. }
  assert (Hm1 : ∀ cid x, (cid, x) ∈ m1 → x ∈ sem).
  { intros cid x Hin. apply Hsup1 in Hin as [Hin|?]; [by apply not_elem_of_nil in Hin|done]. }
  assert (Hkw1 : ∀ k, k ∈ kw → st1 !! k = st !! k).
  { intros k Hk. apply Hframe. intros Hin. by apply (Hdisj k). }
  destruct (combine_keyword_loop alpha kw st1 m1)
    as (st' & m' & HrunB & Hwf' & Hids' & Hsub & Hsup & Hsame & Hhyb & Hkey).
  { done. }
  { intros k Hk. rewrite Hkw1 by done. by apply Hkw. }
  { erewrite list_fmap_ext; [by apply leg_results_ids|]. intros; apply Hids1. }
  { intros k Hk (p & -> & Hp)%list_elem_of_fmap. destruct p as [cid x]. cbn in *.
    apply (Hdisj x); [by eapply Hm1|done]. }
  intros st2 out. subst st2 out. unfold _combine_results.
  rewrite HrunA, HrunB. cbn [fst snd].
  split; [rewrite fusion_result_ids by done; apply Hwf'|].
  intros cid. rewrite (result_for_fusion st' m' cid Hwf').
  assert (Hno_sem : result_for st sem cid = None → cid ∉ m1.*1).
  { intros Hnone (p & -> & Hp)%list_elem_of_fmap. destruct p as [c x]. cbn in *.
    apply (result_for_None_elem _ _ _ Hnone x); [by eapply Hm1|].
    rewrite <- Hids1. by apply Hwf1. }
  assert (Hno_kw : result_for st kw cid = None →
                   ∀ k, k ∈ kw → id_at st1 k ≠ Some cid).
  { intros Hnone k Hk. rewrite Hids1. by apply (result_for_None_elem _ _ _ Hnone). }
  destruct (result_for st sem cid) as [s|] eqn:Es;
    destruct (result_for st kw cid) as [k|] eqn:Ek.
  - apply result_for_Some_elem in Es as (x & Hx & Hs & Hcid).
    apply result_for_Some_elem in Ek as (y & Hy & Hk & Hcid').
    destruct (Hshare x s Hx Hs) as [Hin Hx1]. rewrite Hcid in Hin.
    pose proof (Hhyb cid x _ y k Hin Hx1 Hy ltac:(by rewrite Hkw1) Hcid') as Hfin.
    rewrite (dict_get_NoDup m' cid x) by (apply Hwf' || by apply Hsub).
    cbn. rewrite Hfin. eexists. split; [done|]. split; [|done].
    cbn. ring.
  - apply result_for_Some_elem in Es as (x & Hx & Hs & Hcid).
    destruct (Hshare x s Hx Hs) as [Hin Hx1]. rewrite Hcid in Hin.
    pose proof (Hsame cid x _ Hin Hx1 (Hno_kw eq_refl)) as Hfin.
    rewrite (dict_get_NoDup m' cid x) by (apply Hwf' || by apply Hsub).
    cbn. rewrite Hfin. eexists. split; [done|]. split; [|done].
    cbn. ring.
  - apply result_for_Some_elem in Ek as (y & Hy & Hk & Hcid').
    destruct (Hkey y k Hy ltac:(by rewrite Hkw1)) as [Hin Hfin].
    { rewrite Hcid'. by apply Hno_sem. }
    rewrite Hcid' in Hin.
    rewrite (dict_get_NoDup m' cid y) by (apply Hwf' || done).
    cbn. rewrite Hfin. eexists. split; [done|]. split; [|done].
    cbn. ring.
  - destruct (dict_get m' cid) as [x|] eqn:Hget; [|done]. exfalso.
    apply dict_get_Some_elem in Hget.
    pose proof (proj2 Hwf' cid x Hget) as Hid. rewrite Hids' in Hid.
    apply Hsup in Hget as [Hin|Hin].
    + apply (Hno_sem eq_refl). by eapply fusion_key_elem.
    + by apply (Hno_kw eq_refl x).
Qed.

Lemma example_semantic_leg : leg_results example_store [0; 1].
Proof.
  split; [|split].
  - refine (bool_decide_unpack _ _). vm_compute. exact I.
  - intros x Hx. apply elem_of_cons in Hx as [->|Hx]; [by eexists|].
    apply elem_of_cons in Hx as [->|Hx]; [by eexists|].
    by apply not_elem_of_nil in Hx.
  - refine (bool_decide_unpack _ _). vm_compute. exact I.
Defined.

Lemma example_keyword_leg : leg_results example_store [2; 3].
Proof.
  split; [|split].
  - refine (bool_decide_unpack _ _). vm_compute. exact I.
  - intros x Hx. apply elem_of_cons in Hx as [->|Hx]; [by eexists|].
    apply elem_of_cons in Hx as [->|Hx]; [by eexists|].
    by apply not_elem_of_nil in Hx.
  - refine (bool_decide_unpack _ _). vm_compute. exact I.
Defined.

Lemma example_legs_disjoint : ∀ x, x ∈ [0; 1] → x ∉ [2; 3].
Proof.
  intros x Hx Hy.
  apply elem_of_cons in Hx as [->|Hx];
    [|apply elem_of_cons in Hx as [->|Hx]; [|by apply not_elem_of_nil in Hx]].
  - apply elem_of_cons in Hy as [Hy|Hy]; [done|].
    apply elem_of_cons in Hy as [Hy|Hy]; [done|]. by apply not_elem_of_nil in Hy.
  - apply elem_of_cons in Hy as [Hy|Hy]; [done|].
    apply elem_of_cons in Hy as [Hy|Hy]; [done|]. by apply not_elem_of_nil in Hy.
Defined.

Lemma combine_results_fuses_witness :
  ∃ r, result_for (_combine_results example_store [0; 1] [2; 3] (7 # 10)).1
         (_combine_results example_store [0; 1] [2; 3] (7 # 10)).2 (py "b") = Some r
       ∧ (score r == (7 # 10) * (8 # 10) + (1 - (7 # 10)) * (1 # 2))%Q
       ∧ relevance_type r = hybrid.
Proof.
  destruct (combine_results_fuses example_store [0; 1] [2; 3] (7 # 10)
              example_semantic_leg example_keyword_leg example_legs_disjoint)
    as [_ H].
  exact (H (py "b")).
Defined.

(** The fused list of the example, as values. *)
Example combine_results_example :
  (λ r, (chunk_id (chunk r), Qred (score r), relevance_type r))
  <$> deref (_combine_results example_store [0; 1] [2; 3] (7 # 10)).1
        (_combine_results example_store [0; 1] [2; 3] (7 # 10)).2
  = [(py "a", (63 # 100)%Q, semantic); (py "b", (71 # 100)%Q, hybrid);
     (py "c", (3 # 10)%Q, keyword)].
Proof. vm_compute. reflexivity. Qed.

(** Outside these lists the loops still accumulate: a chunk id that the
    keyword list holds twice (as two objects) sums both shares and is
    tagged hybrid although the semantic list does not hold it; and an
    object that the list holds twice adds its own updated score. *)
Example combine_results_repeated_id :
  (λ r, (chunk_id (chunk r), Qred (score r), relevance_type r))
  <$> deref (_combine_results
               (alloc ∅ 0 [example_result "b" (1 # 2) keyword;
                           example_result "b" (1 # 4) keyword]).1 [] [0; 1] 0).1
        (_combine_results
               (alloc ∅ 0 [example_result "b" (1 # 2) keyword;
                           example_result "b" (1 # 4) keyword]).1 [] [0; 1] 0).2
  = [(py "b", (3 # 4)%Q, hybrid)].
Proof. vm_compute. reflexivity. Qed.

Example combine_results_repeated_object :
  (λ r, (chunk_id (chunk r), Qred (score r), relevance_type r))
  <$> deref (_combine_results example_store [0; 0] [] (1 # 2)).1
        (_combine_results example_store [0; 0] [] (1 # 2)).2
  = [(py "a", (27 # 40)%Q, semantic)].
Proof. vm_compute. reflexivity. Qed.

(** ** The objects of a search *)

Lemma alloc_store_lookup (base k : nat) (rs : list SearchResult) (st : store) (x : nat) :
  foldl (λ s '(i, r), <[base + i := r]> s) st (imap (λ i r, (k + i, r)) rs) !! x
  = if decide (base + k ≤ x < base + k + length rs) then rs !! (x - (base + k))
    else st !! x.
Proof.
  revert k st. induction rs as [|r rs IH]; intros k st.
  - cbn. case_decide; [lia|done].
  - rewrite imap_cons. cbn [foldl].
    rewrite (imap_ext _ (λ i r, (S k + i, r))) by (intros; cbn; f_equal; lia).
    rewrite IH. cbn [length].
    destruct (decide (x = base + k)) as [->|Hne].
    + rewrite decide_False by lia. rewrite decide_True by lia.
      replace (base + k - (base + k)) with 0 by lia. cbn.
      replace (k + 0) with k by lia. apply lookup_insert_eq.
    + rewrite lookup_insert_ne by lia.
      repeat case_decide; try lia; [|done].
      replace (x - (base + k)) with (S (x - (base + S k))) by lia. done.
Qed.

Lemma alloc_lookup (st : store) (base : nat) (rs : list SearchResult) (x : nat) :
  (alloc st base rs).1 !! x
  = if decide (base ≤ x < base + length rs) then rs !! (x - base) else st !! x.
Proof.
  unfold alloc. cbn [fst].
  rewrite (imap_ext _ (λ i r, (0 + i, r))) by done.
  rewrite alloc_store_lookup. replace (base + 0) with base by lia. done.
Qed.

Lemma deref_seq (st : store) (base : nat) (rs : list SearchResult) :
  (∀ i, i < length rs → st !! (base + i) = rs !! i) →
  deref st (seq base (length rs)) = rs.
Proof.
  revert base. induction rs as [|r rs IH]; intros base H; [done|].
  cbn [length seq]. rewrite deref_cons.
  pose proof (H 0 ltac:(cbn; lia)) as H0. rewrite Nat.add_0_r in H0. rewrite H0. cbn.
  f_equal. apply IH. intros i Hi.
  replace (S base + i) with (base + S i) by lia. rewrite H by (cbn; lia). done.
Qed.

(** The lists [search] hands to [_combine_results] are lists as the
    theorem on the fusion takes them, whenever each leg returns one
    result per chunk id. *)
Lemma search_objects_leg_results (semantic_values keyword_values : list SearchResult) :
  NoDup ((λ r, chunk_id (chunk r)) <$> semantic_values) →
  NoDup ((λ r, chunk_id (chunk r)) <$> keyword_values) →
  let a1 := alloc ∅ 0 semantic_values in
  let a2 := alloc a1.1 (length semantic_values) keyword_values in
  leg_results a2.1 a1.2 ∧ leg_results a2.1 a2.2
  ∧ (∀ x, x ∈ a1.2 → x ∉ a2.2)
  ∧ deref a2.1 a1.2 = semantic_values ∧ deref a2.1 a2.2 = keyword_values.
Proof.
  intros Hs Hk a1 a2.
  assert (Hl1 : ∀ i, i < length semantic_values →
                     a2.1 !! (0 + i) = semantic_values !! i).
  { intros i Hi. unfold a2. rewrite alloc_lookup, decide_False by lia.
    unfold a1. rewrite alloc_lookup, decide_True by lia. f_equal. lia. }
  assert (Hl2 : ∀ i, i < length keyword_values →
                     a2.1 !! (length semantic_values + i) = keyword_values !! i).
  { intros i Hi. unfold a2. rewrite alloc_lookup, decide_True by lia. f_equal. lia. }
  assert (Hd1 : deref a2.1 a1.2 = semantic_values) by (by apply deref_seq).
  assert (Hd2 : deref a2.1 a2.2 = keyword_values) by (by apply deref_seq).
  split; [|split; [|split; [|done]]].
  - split; [apply NoDup_seq|]. split.
    + intros x [_ Hx]%elem_of_seq. cbn in Hx.
      rewrite <- (Nat.add_0_l x), Hl1 by lia. by apply lookup_lt_is_Some.
    + unfold result_ids. by rewrite Hd1.
  - split; [apply NoDup_seq|]. split.
    + intros x [Hx1 Hx2]%elem_of_seq.
      replace x with (length semantic_values + (x - length semantic_values)) by lia.
      rewrite Hl2 by lia. apply lookup_lt_is_Some. lia.
    + unfold result_ids. by rewrite Hd2.
  - intros x [_ Hx]%elem_of_seq [Hy _]%elem_of_seq. cbn in *. lia.
Qed.

(** ** The embedding on the inputs of the test suite *)

(** tests/test_chunker.py, [test_file_categorization] *)
Example file_categorization_test :
  categorize_document (word_chunker 512 50 400 600)
    (join [newline] (replicate 300 (py "line"))) = (Green, 300%Z)
  ∧ categorize_document (word_chunker 512 50 400 600)
      (join [newline] (replicate 500 (py "line"))) = (Yellow, 500%Z)
  ∧ categorize_document (word_chunker 512 50 400 600)
      (join [newline] (replicate 700 (py "line"))) = (Red, 700%Z).
Proof. repeat split; vm_compute; reflexivity. Qed.

(** tests/test_chunker.py, [test_section_extraction]: the title line
    before the first [##] header belongs to no section. *)
Example section_extraction_test :
  Sec.header <$>
    _extract_sections h2_regex_match
      (join [newline]
         [py "# Title"; py "## Section 1"; py "Content for section 1";
          py "More content"; py ""; py "## Section 2"; py "Content for section 2";
          py ""; py "### Subsection"; py "Not a main section"; py ""])
  = [py "## Section 1"; py "## Section 2"].
Proof. vm_compute. reflexivity. Qed.

(** tests/test_chunker.py, [test_citation_generation] *)
Example citation_generation_test :
  (λ c, generate_citation ascii_lower c)
  <$> default [] (chunk_document h2_regex_match id_hash (word_chunker 512 50 400 600)
                    (py "test.md") (py "## Test Section" ++ [newline] ++ py "Content"))
  = [py "test.md#-test-section"].
Proof. vm_compute. reflexivity. Qed.

(** tests/test_chunker.py, [test_no_sections_handling] *)
Example no_sections_handling_test :
  section_header
  <$> default [] (chunk_document h2_regex_match id_hash (word_chunker 512 50 400 600)
                    (py "nosections.md")
                    (join [newline]
                       [py "Just plain text"; py "No sections here"; py "More content"]))
  = [py "Content Part 1"].
Proof. vm_compute. reflexivity. Qed.

(** tests/test_chunker.py, [test_large_section_chunking]: 1003 words in
    windows of 512 with an overlap of 50 are three numbered parts. *)
Example large_section_chunking_test :
  section_header
  <$> default [] (chunk_document h2_regex_match id_hash (word_chunker 512 50 400 600)
                    (py "large_section.md")
                    (py "## Large Section" ++ [newline]
                     ++ join (py " ") (replicate 1000 (py "word"))))
  = [py "## Large Section (Part 1/3)"; py "## Large Section (Part 2/3)";
     py "## Large Section (Part 3/3)"].
Proof. vm_compute. reflexivity. Qed.

(** tests/test_intelligence.py, [test_intelligence_disabled] *)
Example intelligence_disabled_test :
  overall_boost
    (process_chunk_intelligence no_status no_temporal no_priority
       (IntelligenceConfig.mk (Some false) (Some 3%Q)) (py "Any content")
       (py "any/path.md"))
  = 1%Q.
Proof. reflexivity. Qed.

(** ** Further checks of the string functions *)

Example replace_substring : replace (py "ab") (py "x") (py "abcabab") = py "xcxx".
Proof. reflexivity. Qed.

Example replace_overlapping : replace (py "aa") (py "b") (py "aaa") = py "ba".
Proof. reflexivity. Qed.

Example split_ws_runs :
  split_ws ([space] ++ py "a" ++ [9; 10]%N ++ py "bc" ++ [space; space]) = [py "a"; py "bc"].
Proof. reflexivity. Qed.

Example split_lines_trailing : split_lines (py "a" ++ [newline]) = [py "a"; []].
Proof. reflexivity. Qed.

Example strip_both_sides : strip ([space; 9]%N ++ py "a b" ++ [newline]) = py "a b".
Proof. reflexivity. Qed.

Example slice_negative : py_slice [1; 2; 3; 4]%Z (-3) (-1) = [2; 3]%Z.
Proof. reflexivity. Qed.

(** The slug of a citation holds neither a space nor a [#]. *)
Lemma spec_slug_characters (lower : pystr → pystr) (header : pystr) :
  Forall (λ c, c ≠ hash_sign ∧ c ≠ space) (spec_slug lower header).
Proof.
  unfold spec_slug. apply Forall_forall. intros c [Hc Hin]%list_elem_of_filter.
  split; [done|]. apply list_elem_of_fmap in Hin as (d & -> & _).
  by case_decide.
Qed.

(** The default metadata of a disabled processor carries the boost 1.0,
    which is not the result of [_calculate_overall_boost]: a configured
    cap below 1 does not reach it. *)
Example default_metadata_boost :
  overall_boost
    (process_chunk_intelligence no_status no_temporal no_priority
       (IntelligenceConfig.mk (Some false) (Some (1 # 2)%Q)) (py "text") (py "a.md"))
  = 1%Q.
Proof. reflexivity. Qed.

(** * Further properties of the chunker *)

(** ** Windows that overlap *)

(** With [0 <= overlap < max_chunk_size] no window is empty and every
    item from [start] on lies in some window. *)
Lemma window_loop_covers {A} (fuel : nat) (items : list A) (m o s : Z) r :
  (0 ≤ o < m)%Z → (0 ≤ s)%Z →
  window_loop fuel items m o s = Some r →
  Forall (λ chunk, chunk ≠ []) r
  ∧ ∀ i x, Z.to_nat s ≤ i → items !! i = Some x → ∃ chunk, chunk ∈ r ∧ x ∈ chunk.
Proof.
  intros Hom. revert s r. induction fuel as [|fuel IH]; intros s r Hs Hr.
  - cbn in Hr. destruct (Z.ltb_spec s (len items)); [done|]. simplify_eq.
    split; [constructor|]. intros i x Hi Hx. apply lookup_lt_Some in Hx.
    unfold len in *. lia.
  - destruct (Z.ltb_spec s (len items)) as [Hlt|Hge].
    + rewrite window_loop_step in Hr by done.
      destruct (window_loop fuel items m o (window_next items m o s)) as [r'|] eqn:E;
        [|done].
      cbn in Hr. simplify_eq.
      assert (Hadv : (s < window_next items m o s)%Z)
        by (apply window_next_advances; lia).
      assert (Hnext : (window_next items m o s ≤ Z.min (s + m) (len items))%Z).
      { unfold window_next. rewrite py_minZ_min. case_match; lia. }
      assert (Hpos : (0 ≤ window_next items m o s)%Z) by lia.
      destruct (IH _ _ Hpos E) as [Hne Hcov].
      rewrite py_minZ_min, py_slice_inside by lia.
      split.
      * constructor; [|done]. intros Hnil. apply (f_equal length) in Hnil.
        rewrite length_take, length_drop in Hnil. unfold len in *. cbn in Hnil. lia.
      * intros i x Hi Hx.
        destruct (Z.lt_ge_cases (Z.of_nat i) (Z.min (s + m) (len items))) as [Hin|Hout].
        -- eexists. split; [apply list_elem_of_here|].
           apply (list_elem_of_lookup_2 _ (i - Z.to_nat s)).
           rewrite lookup_take_lt by lia. rewrite lookup_drop, <- Hx. f_equal. lia.
        -- destruct (Hcov i x) as (chunk & Hc & Hxc); [lia|done|].
           exists chunk. split; [by apply list_elem_of_further|done].
    + rewrite window_loop_done in Hr by done. simplify_eq.
      split; [constructor|]. intros i x Hi Hx. apply lookup_lt_Some in Hx.
      unfold len in *. lia.
Qed.

(** The word windows of one text: each holds between one and
    [max_chunk_size] words, and every word of the text is in one. *)
Lemma chunk_text_by_words_windowed (text : pystr) (m o : Z) :
  (0 ≤ o < m)%Z →
  ∃ chunks, _chunk_text_by_words text m o = Some chunks
            ∧ Forall (λ c, (1 ≤ len (split_ws c) ≤ m)%Z) chunks
            ∧ ∀ w, w ∈ split_ws text → ∃ c, c ∈ chunks ∧ w ∈ split_ws c.
Proof.
  intros Hom. destruct (split_ws text) as [|w0 ws0] eqn:Hw.
  { exists []. rewrite chunk_text_by_words_blank by done.
    split; [done|]. split; [constructor|]. intros w Hin. by apply not_elem_of_nil in Hin. }
  assert (Hne : split_ws text ≠ []) by (by rewrite Hw).
  rewrite <- Hw in *. clear Hw w0 ws0.
  assert (Hpos : (1 ≤ len (split_ws text))%Z).
  { destruct (split_ws text); [done|]. unfold len. cbn. lia. }
  destruct (Z.le_gt_cases (len (split_ws text)) m) as [Hfit|Hlong].
  { exists [text]. rewrite chunk_text_by_words_fits by done.
    split; [done|]. split; [by repeat constructor|].
    intros w Hin. exists text. split; [apply list_elem_of_here|done]. }
  rewrite chunk_text_by_words_windows by (done || lia).
  destruct (window_loop_terminates (length (split_ws text)) (split_ws text) m o 0)
    as [r Hr]; [lia|unfold len; lia|].
  rewrite Hr. cbn. eexists. split; [done|].
  destruct (window_loop_sizes _ _ _ _ _ _ Hom (Z.le_refl 0) Hr) as [Hsz _].
  destruct (window_loop_covers _ _ _ _ _ _ Hom (Z.le_refl 0) Hr) as [Hnonempty Hcov].
  assert (Hwords : ∀ chunk, chunk ∈ r → split_ws (join [space] chunk) = chunk).
  { intros chunk Hc. apply (proj1 (Forall_forall _ _) Hsz) in Hc as [_ (i & n & ->)].
    apply split_ws_join_words, sublist_words, split_ws_words. }
  split.
  - apply Forall_fmap, Forall_forall. intros chunk Hc. cbn.
    change (py " ") with [space]. rewrite (Hwords _ Hc).
    pose proof (proj1 (Forall_forall _ _) Hsz _ Hc) as [Hle _].
    pose proof (proj1 (Forall_forall _ _) Hnonempty _ Hc) as Hn.
    split; [|done]. destruct chunk; [done|]. unfold len. cbn. lia.
  - intros w [i Hi]%list_elem_of_lookup_1.
    destruct (Hcov i w) as (chunk & Hc & Hwc); [lia|done|].
    exists (join [space] chunk). split.
    + change (py " ") with [space]. apply list_elem_of_fmap. eauto.
    + by rewrite (Hwords _ Hc).
Qed.

Section ChunkerWindows.

Variable section_regex_match : pystr → bool.
Variable md5_hexdigest : pystr → pystr.

Lemma elem_of_section_words (sections : list Sec.t) (w : pystr) :
  w ∈ section_words sections
  ↔ ∃ section, section ∈ sections ∧ w ∈ split_ws (Sec.content section).
Proof.
  unfold section_words. induction sections as [|s ss IH]; cbn.
  - split; [by intros ?%not_elem_of_nil|by intros (? & ?%not_elem_of_nil & _)].
  - rewrite elem_of_app, IH. split.
    + intros [Hw|(section & Hs & Hw)].
      * exists s. split; [apply list_elem_of_here|done].
      * exists section. split; [by apply list_elem_of_further|done].
    + intros (section & [->|Hs]%elem_of_cons & Hw); [by left|right; eauto].
Qed.

(** The chunks of a list of sections under word windows. *)
Lemma chunk_sections_windowed self doc sections :
  use_token_based self = false →
  (0 ≤ chunk_overlap self < chunk_size self)%Z →
  ∃ chunks, chunk_sections md5_hexdigest self doc sections = Some chunks
            ∧ Forall (λ c, (1 ≤ len (split_ws (content c)) ≤ chunk_size self)%Z) chunks
            ∧ ∀ w, w ∈ section_words sections →
                   ∃ c, c ∈ chunks ∧ w ∈ split_ws (content c).
Proof.
  intros Hwords Hom. induction sections as [|section rest IH].
  - exists []. split; [done|]. split; [constructor|].
    intros w Hin. by apply not_elem_of_nil in Hin.
  - destruct IH as (chunks & Hrun & Hsz & Hcov).
    destruct (chunk_text_by_words_windowed (Sec.content section) _ _ Hom)
      as (cs & Hcs & Hcs_sz & Hcs_cov).
    cbn [chunk_sections]. rewrite chunk_text_word_based, Hcs, Hrun by done. cbn.
    eexists. split; [done|].
    pose proof (section_part_chunks_contents md5_hexdigest doc section cs) as Hcontents.
    split.
    + apply Forall_app. split; [|done].
      rewrite <- Hcontents in Hcs_sz. by apply Forall_fmap in Hcs_sz.
    + intros w Hin.
      apply (proj1 (elem_of_section_words (section :: rest) w)) in Hin as (s & Hs & Hw).
      apply elem_of_cons in Hs as [->|Hs].
      * destruct (Hcs_cov w Hw) as (c & Hc & Hwc).
        rewrite <- Hcontents in Hc. apply list_elem_of_fmap in Hc as (chunk & -> & Hchunk).
        exists chunk. split; [|done]. apply elem_of_app. by left.
      * destruct (Hcov w) as (c & Hc & Hwc); [apply elem_of_section_words; eauto|].
        exists c. split; [|done]. apply elem_of_app. by right.
Qed.

(** A document below the large tier under word windows: [chunk_document]
    returns, each chunk holds between one and [chunk_size] words, every
    word from the first section header on is in a chunk, and so is every
    word of a small document without section header. *)
Lemma chunk_document_windowed (self : MemoryBankChunker) (file_path text : pystr) :
  use_token_based self = false →
  (0 ≤ chunk_overlap self < chunk_size self)%Z →
  (categorize_document self text).1 ≠ Red →
  ∃ chunks,
    chunk_document section_regex_match md5_hexdigest self file_path text = Some chunks
    ∧ Forall (λ c, (1 ≤ len (split_ws (content c)) ≤ chunk_size self)%Z) chunks
    ∧ (∀ w, w ∈ line_words (drop_until section_regex_match (split_lines text)) →
            ∃ c, c ∈ chunks ∧ w ∈ split_ws (content c))
    ∧ ((categorize_document self text).1 = Green →
       _extract_sections section_regex_match text = [] →
       ∀ w, w ∈ split_ws text →
            ∃ c, c ∈ chunks ∧ w ∈ split_ws (content c)).
Proof.
  intros Hwords Hom Htier. unfold chunk_document.
  destruct (categorize_document self text) as [size_category line_count].
  cbn [fst] in *. set (doc := Document.mk _ _ _ _ _).
  rewrite <- extract_sections_words.
  destruct size_category; [done| |].
  - unfold _chunk_medium_file. cbn [Document.content doc].
    destruct (chunk_sections_windowed self doc
                (_extract_sections section_regex_match text) Hwords Hom)
      as (chunks & Hrun & Hsz & Hcov).
    exists chunks. do 3 (split; [done|]). done.
  - unfold _chunk_small_file. cbn [Document.content doc].
    destruct (_extract_sections section_regex_match text) as [|s ss] eqn:E.
    + destruct (chunk_text_by_words_windowed text _ _ Hom)
        as (cs & Hcs & Hcs_sz & Hcs_cov).
      rewrite chunk_text_word_based, Hcs by done. cbn.
      eexists. split; [done|].
      pose proof (content_enumerate
                    (λ i c, _create_chunk md5_hexdigest doc c
                              (py "Content Part " ++ py_str_of_Z (i + 1)) 0
                              (Document.line_count doc)) cs (λ _ _, eq_refl))
        as Hcontents.
      split; [|split].
      * rewrite <- Hcontents in Hcs_sz. by apply Forall_fmap in Hcs_sz.
      * intros w Hin. by apply not_elem_of_nil in Hin.
      * intros _ _ w Hw. destruct (Hcs_cov w Hw) as (c & Hc & Hwc).
        rewrite <- Hcontents in Hc. apply list_elem_of_fmap in Hc as (chunk & -> & Hchunk).
        by exists chunk.
    + destruct (chunk_sections_windowed self doc (s :: ss) Hwords Hom)
        as (chunks & Hrun & Hsz & Hcov).
      exists chunks. do 3 (split; [done|]). done.
Qed.

(** X1. With word windows and [0 <= chunk_overlap < chunk_size],
    [chunk_document] returns for every document, and below the large
    tier each of its chunks holds at least one word and at most
    [chunk_size] words. *)
Theorem chunk_document_chunk_sizes
    (self : MemoryBankChunker) (file_path text : pystr) :
  use_token_based self = false →
  (0 ≤ chunk_overlap self < chunk_size self)%Z →
  ∃ chunks,
    chunk_document section_regex_match md5_hexdigest self file_path text = Some chunks
    ∧ ((categorize_document self text).1 ≠ Red →
       Forall (λ c, (1 ≤ len (split_ws (content c)) ≤ chunk_size self)%Z) chunks).
Proof.
  intros Hwords Hom.
  assert (Hred : (categorize_document self text).1 = Red
                 ∨ (categorize_document self text).1 ≠ Red)
    by (destruct (categorize_document self text).1; auto).
  destruct Hred as [Hred|Hother].
  - unfold chunk_document.
    destruct (categorize_document self text) as [size_category line_count].
    cbn [fst] in *. subst size_category. eexists. split; [done|]. done.
  - destruct (chunk_document_windowed self file_path text Hwords Hom Hother)
      as (chunks & Hrun & Hsz & _).
    exists chunks. split; [done|]. by intros _.
Qed.

(** X2. Below the large tier, under word windows with
    [0 <= chunk_overlap < chunk_size], overlap loses no word: every word
    of the document from its first section header on is a word of some
    chunk, and in a small document without section header every word of
    the document is. *)
Theorem chunk_document_keeps_words
    (self : MemoryBankChunker) (file_path text : pystr) :
  use_token_based self = false →
  (0 ≤ chunk_overlap self < chunk_size self)%Z →
  (categorize_document self text).1 ≠ Red →
  ∃ chunks,
    chunk_document section_regex_match md5_hexdigest self file_path text = Some chunks
    ∧ (∀ w, w ∈ line_words (drop_until section_regex_match (split_lines text)) →
            ∃ c, c ∈ chunks ∧ w ∈ split_ws (content c))
    ∧ ((categorize_document self text).1 = Green →
       _extract_sections section_regex_match text = [] →
       ∀ w, w ∈ split_ws text →
            ∃ c, c ∈ chunks ∧ w ∈ split_ws (content c)).
Proof.
  intros Hwords Hom Htier.
  destruct (chunk_document_windowed self file_path text Hwords Hom Htier)
    as (chunks & Hrun & _ & Hcov & Hall).
  exists chunks. by split.
Qed.

End ChunkerWindows.

Lemma chunk_document_chunk_sizes_witness :
  ∃ chunks,
    chunk_document h2_regex_match id_hash (word_chunker 2 1 400 600) (py "a.md")
      (py "a b c") = Some chunks
    ∧ Forall (λ c, (1 ≤ len (split_ws (content c)) ≤ 2)%Z) chunks.
Proof.
  destruct (chunk_document_chunk_sizes h2_regex_match id_hash (word_chunker 2 1 400 600)
              (py "a.md") (py "a b c")) as (chunks & Hrun & Hsz).
  - reflexivity.
  - cbn. lia.
  - exists chunks. split; [exact Hrun|]. apply Hsz. vm_compute. discriminate.
Defined.

Lemma chunk_document_keeps_words_witness :
  ∃ chunks,
    chunk_document h2_regex_match id_hash (word_chunker 2 1 400 600) (py "a.md")
      (py "## A" ++ [newline] ++ py "one two three") = Some chunks
    ∧ ∃ c, c ∈ chunks ∧ py "three" ∈ split_ws (content c).
Proof.
  destruct (chunk_document_keeps_words h2_regex_match id_hash (word_chunker 2 1 400 600)
              (py "a.md") (py "## A" ++ [newline] ++ py "one two three"))
    as (chunks & Hrun & Hcov & _).
  - reflexivity.
  - cbn. lia.
  - vm_compute. discriminate.
  - exists chunks. split; [exact Hrun|]. apply Hcov.
    refine (bool_decide_unpack _ _). vm_compute. exact I.
Defined.

(** ** Documents without section header *)

Section ChunkerStructure.

Variable section_regex_match : pystr → bool.
Variable md5_hexdigest : pystr → pystr.

Lemma extract_sections_loop_no_header lines i sections current_content :
  Forall (λ line, section_regex_match line = false) lines →
  extract_sections_loop section_regex_match lines i sections None current_content
  = (sections, None, current_content).
Proof.
  intros H. revert i. induction H as [|l ls Hl _ IH]; intros i; [done|].
  cbn [extract_sections_loop]. rewrite Hl. apply IH.
Qed.

Lemma extract_sections_no_header (text : pystr) :
  Forall (λ line, section_regex_match line = false) (split_lines text) →
  _extract_sections section_regex_match text = [].
Proof.
  intros H. unfold _extract_sections.
  by rewrite extract_sections_loop_no_header.
Qed.

(** X3. A document none of whose lines matches the section pattern: in
    the medium tier [chunk_document] returns no chunk at all, in the
    large tier at most one, the executive summary. *)
Theorem chunk_document_without_headers
    (self : MemoryBankChunker) (file_path text : pystr) :
  Forall (λ line, section_regex_match line = false) (split_lines text) →
  ((categorize_document self text).1 = Yellow →
   chunk_document section_regex_match md5_hexdigest self file_path text = Some [])
  ∧ ((categorize_document self text).1 = Red →
     ∃ chunks,
       chunk_document section_regex_match md5_hexdigest self file_path text = Some chunks
       ∧ length chunks ≤ 1
       ∧ Forall (λ c, section_header c = py "Executive Summary") chunks).
Proof.
  intros Hno. apply extract_sections_no_header in Hno.
  unfold chunk_document.
  destruct (categorize_document self text) as [size_category line_count].
  cbn [fst]. split; intros ->.
  - unfold _chunk_medium_file. cbn [Document.content]. by rewrite Hno.
  - unfold _chunk_large_file. cbn [Document.content]. rewrite Hno.
    eexists. split; [done|]. cbn [fmap list_fmap]. rewrite app_nil_r.
    destruct (take_until _ _); cbn; split; try lia; by repeat constructor.
Qed.

(** ** What every chunk carries *)

Lemma create_chunk_of_document (doc : Document.t) (text header : pystr) (s e : Z) :
  chunk_of_document (Document.file_path doc) (Document.size_category doc)
    (Document.line_count doc) (_create_chunk md5_hexdigest doc text header s e).
Proof.
  assert (H1 : py "size_category" ≠ py "line_count") by (vm_compute; discriminate).
  assert (H2 : py "size_category" ≠ py "file_path") by (vm_compute; discriminate).
  assert (H3 : py "line_count" ≠ py "file_path") by (vm_compute; discriminate).
  unfold chunk_of_document, _create_chunk. cbn [document_path navigation_path
    section_header metadata].
  split; [done|]. split.
  { unfold _build_navigation_path. case_bool_decide as Hh; [by rewrite Hh|done]. }
  split.
  { by rewrite lookup_insert_ne, lookup_insert_ne, lookup_insert_eq. }
  split.
  { by rewrite lookup_insert_eq. }
  by rewrite lookup_insert_ne, lookup_insert_eq.
Qed.

Lemma chunk_sections_of_document self doc sections chunks :
  chunk_sections md5_hexdigest self doc sections = Some chunks →
  Forall (chunk_of_document (Document.file_path doc) (Document.size_category doc)
            (Document.line_count doc)) chunks.
Proof.
  revert chunks. induction sections as [|section rest IH]; intros chunks H.
  - cbn in H. simplify_eq. constructor.
  - cbn [chunk_sections] in H.
    destruct (_chunk_text self _ _ _) as [cs|]; [|done]. cbn in H.
    destruct (chunk_sections md5_hexdigest self doc rest) as [chunks'|]; [|done].
    cbn in H. simplify_eq. apply Forall_app. split; [|by apply IH].
    unfold section_part_chunks. apply Forall_fmap, Forall_forall.
    intros [i c] _. apply create_chunk_of_document.
Qed.

(** X4. Whatever the tier and the windowing, every chunk
    [chunk_document] returns names the document it was cut from: its
    [document_path] is the path given, its navigation path is that path,
    an arrow and the section header, and its metadata holds the path, the
    tier and the line count of the document. *)
Theorem chunk_document_provenance
    (self : MemoryBankChunker) (file_path text : pystr) (chunks : list Chunk) :
  chunk_document section_regex_match md5_hexdigest self file_path text = Some chunks →
  Forall (chunk_of_document file_path (categorize_document self text).1
            (len (split_lines text))) chunks.
Proof.
  unfold chunk_document, categorize_document.
  set (line_count := len (split_lines text)).
  set (tier := if (line_count >? medium_threshold self)%Z then Red
               else if (line_count >? small_threshold self)%Z then Yellow else Green).
  assert (Hcat : (if (line_count >? medium_threshold self)%Z then (Red, line_count)
                  else if (line_count >? small_threshold self)%Z then (Yellow, line_count)
                  else (Green, line_count)) = (tier, line_count))
    by (unfold tier; by repeat case_match).
  rewrite Hcat. cbn [fst]. clear Hcat.
  set (doc := Document.mk _ _ _ _ _). intros H.
  change file_path with (Document.file_path doc).
  change tier with (Document.size_category doc).
  change line_count with (Document.line_count doc).
  destruct tier.
  - simplify_eq. unfold _chunk_large_file. apply Forall_app. split.
    + destruct (take_until _ _); [constructor|].
      constructor; [apply create_chunk_of_document|constructor].
    + apply Forall_fmap, Forall_forall. intros section _. apply create_chunk_of_document.
  - by apply chunk_sections_of_document in H.
  - unfold _chunk_small_file in H.
    destruct (_extract_sections section_regex_match (Document.content doc)) eqn:E.
    + destruct (_chunk_text self _ _ _) as [cs|]; [|done]. cbn in H. simplify_eq.
      apply Forall_fmap, Forall_forall. intros [i c] _. apply create_chunk_of_document.
    + by apply chunk_sections_of_document in H.
Qed.

End ChunkerStructure.

Lemma chunk_document_without_headers_witness :
  (categorize_document (word_chunker 512 50 1 5) (py "a" ++ [newline] ++ py "b")).1 = Yellow
  ∧ chunk_document h2_regex_match id_hash (word_chunker 512 50 1 5) (py "a.md")
      (py "a" ++ [newline] ++ py "b") = Some [].
Proof.
  split; [reflexivity|].
  apply (chunk_document_without_headers h2_regex_match id_hash (word_chunker 512 50 1 5)
           (py "a.md") (py "a" ++ [newline] ++ py "b")).
  - cbn. by repeat constructor.
  - reflexivity.
Defined.

Lemma chunk_document_provenance_witness :
  ∃ chunks,
    chunk_document h2_regex_match id_hash (word_chunker 2 1 400 600) (py "a.md")
      (py "a b c") = Some chunks
    ∧ Forall (chunk_of_document (py "a.md") Green 1) chunks.
Proof.
  eexists. split; [reflexivity|].
  apply (chunk_document_provenance h2_regex_match id_hash (word_chunker 2 1 400 600)
           (py "a.md") (py "a b c")).
  reflexivity.
Defined.

(** ** The line ranges of the sections *)

Section SectionRanges.

Variable section_regex_match : pystr → bool.
Variable md5_hexdigest : pystr → pystr.

(** The start lines of the closed sections and of the open one are the
    matching lines seen so far. *)
Lemma extract_sections_loop_starts lines i sections cur cc :
  (Sec.start_line <$> (extract_sections_loop section_regex_match lines i sections cur cc).1.1)
  ++ option_list (snd <$> (extract_sections_loop section_regex_match lines i sections cur cc).1.2)
  = (Sec.start_line <$> sections) ++ option_list (snd <$> cur)
    ++ header_lines section_regex_match lines i.
Proof.
  revert i sections cur cc. induction lines as [|l ls IH]; intros i sections cur cc.
  - cbn. by rewrite app_nil_r.
  - cbn [extract_sections_loop header_lines]. destruct (section_regex_match l).
    + rewrite IH. destruct cur as [[hd st]|]; cbn; [|done].
      rewrite fmap_app. cbn. by rewrite <- app_assoc.
    + destruct cur as [[hd st]|]; by rewrite IH.
Qed.

(** A section is closed on the line before the next matching line. *)
Lemma extract_sections_loop_ends lines i sections cur cc :
  Sec.end_line <$> (extract_sections_loop section_regex_match lines i sections cur cc).1.1
  = (Sec.end_line <$> sections)
    ++ match cur with
       | Some _ => (λ j, (j - 1)%Z) <$> header_lines section_regex_match lines i
       | None => drop 1 ((λ j, (j - 1)%Z) <$> header_lines section_regex_match lines i)
       end.
Proof.
  revert i sections cur cc. induction lines as [|l ls IH]; intros i sections cur cc.
  - cbn. destruct cur; by rewrite app_nil_r.
  - cbn [extract_sections_loop header_lines]. destruct (section_regex_match l).
    + rewrite IH. destruct cur as [[hd st]|]; cbn; [|done].
      rewrite fmap_app. cbn. by rewrite <- app_assoc.
    + destruct cur as [[hd st]|]; by rewrite IH.
Qed.

(** X5. The sections [_extract_sections] returns are, in order, one per
    line that matches the section pattern: the start lines are the
    numbers of the matching lines, and every section ends on the line
    before the next matching line, the last one on the last line of the
    document. *)
Theorem extract_sections_line_ranges (text : pystr) :
  let lines := split_lines text in
  let sections := _extract_sections section_regex_match text in
  Sec.start_line <$> sections = header_lines section_regex_match lines 0
  ∧ Sec.end_line <$> sections
    = drop 1 (((λ j, (j - 1)%Z) <$> header_lines section_regex_match lines 0)
              ++ [(len lines - 1)%Z]).
Proof.
  intros lines sections. subst sections. unfold _extract_sections. fold lines.
  pose proof (extract_sections_loop_starts lines 0 [] None []) as Hs.
  pose proof (extract_sections_loop_ends lines 0 [] None []) as He.
  destruct (extract_sections_loop section_regex_match lines 0 [] None [])
    as [[sections' cur'] cc'].
  cbn in Hs, He. destruct cur' as [[hd st]|]; cbn in Hs.
  - rewrite !fmap_app. cbn. split; [done|]. rewrite He.
    destruct (header_lines section_regex_match lines 0) as [|h hs].
    + by destruct (Sec.start_line <$> sections').
    + done.
  - rewrite app_nil_r in Hs. split; [done|]. rewrite <- Hs in He |- *.
    assert (Hnone : sections' = []).
    { apply (f_equal length) in He.
      rewrite length_drop, !length_fmap in He. destruct sections'; [done|cbn in He; lia]. }
    by rewrite Hnone.
Qed.

Lemma py_slice_one (lines : list pystr) (i : Z) (line : pystr) :
  (0 ≤ i)%Z → lines !! Z.to_nat i = Some line → py_slice lines i (i + 1) = [line].
Proof.
  intros Hi Hl. pose proof (lookup_lt_Some _ _ _ Hl) as Hlt.
  rewrite py_slice_inside by (unfold len; lia).
  replace (Z.to_nat (i + 1 - i)) with 1 by lia.
  rewrite (drop_S _ _ _ Hl). done.
Qed.

Lemma py_slice_snoc (lines : list pystr) (st i : Z) (line : pystr) :
  (0 ≤ st ≤ i)%Z → lines !! Z.to_nat i = Some line →
  py_slice lines st (i + 1) = py_slice lines st i ++ [line].
Proof.
  intros Hi Hl. pose proof (lookup_lt_Some _ _ _ Hl) as Hlt.
  rewrite !py_slice_inside by (unfold len; lia).
  replace (Z.to_nat (i + 1 - st)) with (S (Z.to_nat (i - st))) by lia.
  apply take_S_r. rewrite lookup_drop, <- Hl. f_equal. lia.
Qed.

(** The loop keeps the closed sections on their lines and the open
    section on the lines read so far. *)
Lemma extract_sections_loop_spans (lines : list pystr) rest :
  ∀ seen i sections cur cc,
    lines = seen ++ rest → i = len seen →
    Forall (section_spans_lines section_regex_match lines) sections →
    open_section section_regex_match lines i cur cc →
    Forall (section_spans_lines section_regex_match lines)
      (extract_sections_loop section_regex_match rest i sections cur cc).1.1
    ∧ open_section section_regex_match lines (len lines)
        (extract_sections_loop section_regex_match rest i sections cur cc).1.2
        (extract_sections_loop section_regex_match rest i sections cur cc).2.
Proof.
  induction rest as [|l rest IH]; intros seen i sections cur cc Hlines Hi Hsec Hopen.
  - cbn. rewrite app_nil_r in Hlines. subst. done.
  - assert (Hl : lines !! Z.to_nat i = Some l).
    { subst. unfold len. rewrite Nat2Z.id. by rewrite list_lookup_middle. }
    assert (Hi0 : (0 ≤ i)%Z) by (subst; unfold len; lia).
    assert (Hlen : (i < len lines)%Z).
    { apply lookup_lt_Some in Hl. unfold len in *. lia. }
    assert (Hnext : lines = (seen ++ [l]) ++ rest) by (by rewrite <- app_assoc).
    assert (Hi' : (i + 1)%Z = len (seen ++ [l])).
    { subst i. unfold len. rewrite length_app. cbn. lia. }
    cbn [extract_sections_loop]. destruct (section_regex_match l) eqn:Hmatch.
    + apply (IH (seen ++ [l])); [done|done| |].
      * destruct cur as [[hd st]|]; [|done].
        destruct Hopen as (line & Hline & Hm & -> & Hst & ->).
        apply Forall_app. split; [done|]. repeat constructor.
        exists line. cbn. replace (i - 1 + 1)%Z with i by lia.
        do 3 (split; [done|]). split; [lia|]. split; [lia|done].
      * exists l. do 3 (split; [done|]). split; [lia|]. by rewrite (py_slice_one lines i l).
    + destruct cur as [[hd st]|].
      * apply (IH (seen ++ [l])); [done|done|done|].
        destruct Hopen as (line & Hline & Hm & -> & Hst & ->).
        exists line. do 3 (split; [done|]). split; [lia|].
        by rewrite (py_slice_snoc lines st i l) by (done || lia).
      * by apply (IH (seen ++ [l])).
Qed.

Lemma extract_sections_spans (text : pystr) :
  Forall (section_spans_lines section_regex_match (split_lines text))
    (_extract_sections section_regex_match text).
Proof.
  unfold _extract_sections.
  destruct (extract_sections_loop_spans (split_lines text) (split_lines text)
              [] 0 [] None []) as [Hsec Hopen]; [done|done|constructor|done|].
  destruct (extract_sections_loop section_regex_match (split_lines text) 0 [] None [])
    as [[sections' cur'] cc'].
  cbn in Hsec, Hopen. destruct cur' as [[hd st]|]; [|done].
  destruct Hopen as (line & Hline & Hm & -> & Hst & ->).
  apply Forall_app. split; [done|]. repeat constructor.
  exists line. cbn. replace (len (split_lines text) - 1 + 1)%Z with (len (split_lines text)) by lia.
  do 3 (split; [done|]). split; [lia|]. split; [lia|done].
Qed.

(** X6. Every section [_extract_sections] returns starts on a line that
    matches the section pattern, has that line, stripped, as its header,
    lies inside the document, and has as content the lines from its
    start line to its end line, joined by newlines. *)
Theorem extract_sections_contents (text : pystr) :
  Forall (section_spans_lines section_regex_match (split_lines text))
    (_extract_sections section_regex_match text).
Proof. apply extract_sections_spans. Qed.

End SectionRanges.

(** ** Large files: the summary and the section previews *)

Lemma split_lines_no_newline (s : pystr) : Forall (λ l, newline ∉ l) (split_lines s).
Proof.
  induction s as [|c t IH]; [repeat constructor; apply not_elem_of_nil|].
  cbn [split_lines]. destruct (N.eqb_spec c newline) as [->|Hne].
  - constructor; [apply not_elem_of_nil|done].
  - destruct (split_lines t) as [|l ls];
      [repeat constructor; by intros [?|?%not_elem_of_nil]%elem_of_cons|].
    inversion IH as [|? ? Hl Hls]; subst. constructor; [|done].
    by intros [?|?]%elem_of_cons.
Qed.

Lemma filter_newline_none (l : pystr) : newline ∉ l → filter (λ c, c = newline) l = [].
Proof.
  induction l as [|c l IH]; intros H; [done|].
  apply not_elem_of_cons in H as [Hc Hl].
  rewrite filter_cons_False by congruence. auto.
Qed.

(** Joining lines that hold no newline gives a text of as many lines. *)
Lemma newlines_join (ls : list pystr) :
  Forall (λ l, newline ∉ l) ls →
  length (filter (λ c, c = newline) (join [newline] ls)) = length ls - 1.
Proof.
  induction 1 as [|l ls Hl Hls IH]; [done|]. destruct ls as [|l' ls'].
  - cbn. by rewrite filter_newline_none.
  - change (join [newline] (l :: l' :: ls'))
      with (l ++ newline :: join [newline] (l' :: ls')).
    rewrite filter_app, filter_cons_True by done.
    rewrite filter_newline_none by done. cbn [app length]. rewrite IH. cbn. lia.
Qed.

Lemma elem_of_lstrip (c : N) (s : pystr) : c ∈ lstrip s → c ∈ s.
Proof.
  induction s as [|x s IH]; cbn; [done|].
  destruct (isspace x); [|done]. intros H. apply list_elem_of_further. auto.
Qed.

Lemma elem_of_strip (c : N) (s : pystr) : c ∈ strip s → c ∈ s.
Proof.
  unfold strip, rstrip. rewrite elem_of_reverse. intros H.
  apply elem_of_lstrip in H. rewrite elem_of_reverse in H. by apply elem_of_lstrip.
Qed.

Lemma Forall_py_slice {A} (P : A → Prop) (l : list A) (a b : Z) :
  Forall P l → Forall P (py_slice l a b).
Proof. intros H. unfold py_slice. by apply Forall_take, Forall_drop. Qed.

Lemma length_py_slice_prefix {A} (l : list A) (n : Z) :
  (0 ≤ n)%Z → (len (py_slice l 0 n) ≤ n)%Z.
Proof.
  intros Hn. unfold py_slice, slice_index, len.
  destruct (Z.ltb_spec n 0); [lia|]. cbn [Z.ltb Z.compare].
  rewrite length_take. lia.
Qed.

Lemma Forall_take_until {A} (P : A → Prop) (stop : A → bool) (l : list A) :
  Forall P l → Forall P (take_until stop l).
Proof.
  induction 1 as [|x l Hx Hl IH]; [constructor|].
  cbn. destruct (stop x); by constructor.
Qed.

Lemma length_take_until {A} (stop : A → bool) (l : list A) :
  length (take_until stop l) ≤ length l.
Proof. induction l as [|x l IH]; cbn; [lia|]. destruct (stop x); cbn; lia. Qed.

Section LargeFiles.

Variable section_regex_match : pystr → bool.
Variable md5_hexdigest : pystr → pystr.

(** X7. A document of the large tier, chunked by a chunker built from
    any configuration: [chunk_document] returns at most one summary
    chunk, of at most [executive_summary_lines] lines, followed by one
    preview chunk per section, each of at least two and at most
    [1 + section_preview_lines] lines; and the constructor has clamped
    the first setting to at most 1000 and the second to at most 50. *)
Theorem large_file_chunks_bounded
    (tok : option Tokenizer) (config : ChunkingConfig.t) (file_path text : pystr) :
  let self := MemoryBankChunker_init tok config in
  (categorize_document self text).1 = Red →
  ∃ summary previews,
    chunk_document section_regex_match md5_hexdigest self file_path text
    = Some (summary ++ previews)
    ∧ length summary ≤ 1
    ∧ length previews = length (_extract_sections section_regex_match text)
    ∧ Forall (λ c, (len (split_lines (content c)) ≤ executive_summary_lines self)%Z)
        summary
    ∧ Forall (λ c, (2 ≤ len (split_lines (content c)) ≤ 1 + section_preview_lines self)%Z)
        previews
    ∧ (executive_summary_lines self ≤ 1000)%Z
    ∧ (section_preview_lines self ≤ 50)%Z.
Proof.
  intros self Hred.
  assert (Hexec : (10 ≤ executive_summary_lines self ≤ 1000)%Z).
  { cbn. unfold py_maxZ, py_minZ. repeat case_match; lia. }
  assert (Hprev : (1 ≤ section_preview_lines self ≤ 50)%Z).
  { cbn. unfold py_maxZ, py_minZ. repeat case_match; lia. }
  unfold chunk_document.
  destruct (categorize_document self text) as [size_category line_count].
  cbn [fst] in Hred. subst size_category.
  set (doc := Document.mk _ _ _ _ _). unfold _chunk_large_file.
  cbn [Document.content doc].
  eexists _, _. split; [done|]. split; [destruct (take_until _ _); cbn; lia|].
  split; [by rewrite length_fmap|]. split; [|split; [|lia]].
  - set (lines := py_slice (split_lines text) 0 (executive_summary_lines self)).
    assert (Hlen : (len (take_until (λ line, startswith line (py "## ")) lines)
                    ≤ executive_summary_lines self)%Z).
    { pose proof (length_take_until (λ line, startswith line (py "## ")) lines).
      pose proof (length_py_slice_prefix (split_lines text) (executive_summary_lines self)).
      unfold len in *. fold lines in H0. lia. }
    assert (Hnl : Forall (λ l, newline ∉ l)
                    (take_until (λ line, startswith line (py "## ")) lines)).
    { apply Forall_take_until, Forall_py_slice, split_lines_no_newline. }
    destruct (take_until (λ line, startswith line (py "## ")) lines) as [|x xs] eqn:E;
      [constructor|].
    repeat constructor. cbn [content _create_chunk]. unfold len.
    rewrite length_split_lines, newlines_join by done.
    unfold len in Hlen. cbn [length] in *. lia.
  - apply Forall_fmap, Forall_forall. intros section Hin.
    unfold compose. cbn [content _create_chunk].
    pose proof (proj1 (Forall_forall _ _) (extract_sections_spans section_regex_match text)
                  _ Hin) as (line & Hline & _ & Hheader & _).
    assert (Hh : newline ∉ Sec.header section).
    { rewrite Hheader. intros Hc. apply elem_of_strip in Hc.
      apply list_elem_of_lookup_2 in Hline.
      by apply (proj1 (Forall_forall _ _) (split_lines_no_newline text) _ Hline). }
    set (section_lines := py_slice (split_lines (Sec.content section)) 0
                            (section_preview_lines self)).
    assert (Hsl : Forall (λ l, newline ∉ l) section_lines)
      by apply Forall_py_slice, split_lines_no_newline.
    pose proof (length_py_slice_prefix (split_lines (Sec.content section))
                  (section_preview_lines self) ltac:(lia)) as Hshort.
    fold section_lines in Hshort |- *.
    unfold len in *. rewrite length_split_lines, !filter_app, !length_app.
    rewrite (filter_newline_none _ Hh), newlines_join by done.
    rewrite filter_cons_True by done. rewrite filter_nil. cbn [length]. lia.
Qed.

End LargeFiles.

Lemma large_file_chunks_bounded_witness :
  ∃ summary previews,
    chunk_document h2_regex_match id_hash (word_chunker 512 50 0 1) (py "a.md")
      (py "## A" ++ [newline] ++ py "b") = Some (summary ++ previews)
    ∧ length summary ≤ 1
    ∧ length previews = 1.
Proof.
  destruct (large_file_chunks_bounded h2_regex_match id_hash None
              (ChunkingConfig.mk 512 50 0 1 None None None None) (py "a.md")
              (py "## A" ++ [newline] ++ py "b"))
    as (summary & previews & Hrun & Hsum & Hprev & _); [reflexivity|].
  exists summary, previews. split; [exact Hrun|]. split; [exact Hsum|exact Hprev].
Defined.

(** * Further properties of the embedder *)

Lemma zip3_thirds {A B C} (a : list A) (b : list B) (c : list C) :
  length a = length c → length b = length c →
  (λ x : A * B * C, x.2) <$> zip3 a b c = c.
Proof.
  revert a b. induction c as [|z c IH]; intros [|x a] [|y b] Ha Hb; try done.
  cbn in *. f_equal. apply IH; lia.
Qed.

Lemma batch_loop_sizes fuel (texts : list pystr) (i batch_size : Z) :
  (0 < batch_size)%Z → (0 ≤ i)%Z →
  Forall (λ b, (1 ≤ len b ≤ batch_size)%Z) (batch_loop fuel texts i batch_size).
Proof.
  intros Hbs. revert i. induction fuel as [|fuel IH]; intros i Hi; [constructor|].
  cbn [batch_loop]. destruct (Z.ltb_spec i (len texts)) as [Hlt|Hge]; [|constructor].
  constructor; [|apply IH; lia].
  unfold py_slice, slice_index.
  destruct (Z.ltb_spec i 0); [lia|]. destruct (Z.ltb_spec (i + batch_size) 0); [lia|].
  unfold len in *. rewrite length_take, length_drop. lia.
Qed.

Section EmbedderResults.

Variable md5_hexdigest : pystr → pystr.
Variable model_encode : list pystr → list Embedding.

(** The provider answers a batch with one embedding per text. *)
Hypothesis model_encode_length : ∀ batch, length (model_encode batch) = length batch.

Let hash_of (c : Chunk) : pystr := _get_content_hash md5_hexdigest (content c).

Lemma check_cache_length cache chunks i :
  length (check_cache md5_hexdigest cache chunks i).1.1 = length chunks.
Proof.
  revert i. induction chunks as [|c rest IH]; intros i; [done|].
  cbn [check_cache]. specialize (IH (S i)).
  destruct (check_cache md5_hexdigest cache rest (S i)) as [[e todo] idx].
  destruct (cache !! _); cbn in *; by rewrite IH.
Qed.

(** The first loop leaves the cached embedding of a chunk, or the
    placeholder, in the place of the chunk. *)
Lemma check_cache_lookup cache chunks i j c :
  chunks !! j = Some c →
  (check_cache md5_hexdigest cache chunks i).1.1 !! j = Some (cache !! hash_of c).
Proof.
  revert i j. induction chunks as [|c0 rest IH]; intros i j Hj; [done|].
  cbn [check_cache]. specialize (IH (S i)).
  destruct (check_cache md5_hexdigest cache rest (S i)) as [[e todo] idx].
  destruct j as [|j]; cbn in Hj.
  - simplify_eq. unfold hash_of. by destruct (cache !! _).
  - specialize (IH j Hj). by destruct (cache !! _get_content_hash md5_hexdigest (content c0)).
Qed.

(** The indices it collects are the places of the chunks that miss. *)
Lemma check_cache_indices cache chunks i j :
  j ∈ (check_cache md5_hexdigest cache chunks i).2
  ↔ ∃ k c, j = i + k ∧ chunks !! k = Some c ∧ cache !! hash_of c = None.
Proof.
  revert i. induction chunks as [|c0 rest IH]; intros i.
  - cbn. split; [by intros ?%not_elem_of_nil|by intros (k & c & _ & ? & _)].
  - cbn [check_cache]. specialize (IH (S i)).
    destruct (check_cache md5_hexdigest cache rest (S i)) as [[e todo] idx].
    cbn [snd] in IH.
    destruct (cache !! _get_content_hash md5_hexdigest (content c0)) eqn:E; cbn [snd].
    + rewrite IH. split.
      * intros (k & c & -> & Hk & Hc). exists (S k), c. split; [lia|done].
      * intros (k & c & -> & Hk & Hc). destruct k as [|k]; cbn in Hk.
        -- simplify_eq. unfold hash_of in Hc. congruence.
        -- exists k, c. split; [lia|done].
    + rewrite elem_of_cons, IH. split.
      * intros [->|(k & c & -> & Hk & Hc)].
        -- exists 0, c0. split; [lia|done].
        -- exists (S k), c. split; [lia|done].
      * intros (k & c & -> & Hk & Hc). destruct k as [|k]; cbn in Hk.
        -- left. lia.
        -- right. exists k, c. split; [lia|done].
Qed.

(** The second loop fills the places it is given and no other. *)
Lemma commit_embeddings_lookup cache embs (items : list (Chunk * Embedding * nat)) j :
  length (foldl (commit_embedding md5_hexdigest) (cache, embs) items).2 = length embs
  ∧ (j ∉ items.*2 →
     (foldl (commit_embedding md5_hexdigest) (cache, embs) items).2 !! j = embs !! j)
  ∧ (j ∈ items.*2 → j < length embs →
     ∃ e, (foldl (commit_embedding md5_hexdigest) (cache, embs) items).2 !! j
          = Some (Some e)).
Proof.
  revert cache embs. induction items as [|[[c e] i] items IH]; intros cache embs.
  - cbn. split; [done|]. split; [done|]. by intros ?%not_elem_of_nil.
  - cbn [foldl commit_embedding fst snd fmap list_fmap].
    destruct (IH (<[_get_content_hash md5_hexdigest (content c) := e]> cache)
                 (<[i := Some e]> embs)) as (Hlen & Hout & Hin).
    rewrite length_insert in Hlen, Hin. split; [done|]. split.
    + intros Hj. apply not_elem_of_cons in Hj as [Hne Hj].
      rewrite (Hout Hj). by apply list_lookup_insert_ne.
    + intros Hj Hlt. destruct (decide (j ∈ items.*2)) as [Hrest|Hrest]; [by apply Hin|].
      apply elem_of_cons in Hj as [->|Hj]; [|done].
      rewrite (Hout Hrest). exists e. by apply list_lookup_insert_eq.
Qed.

(** X8. With a positive batch size and a provider that answers every
    batch with one embedding per text, [embed_chunks] returns one
    embedding per chunk, no placeholder is left in the list, and a
    chunk whose content hash was in the cache gets the cached
    embedding. *)
Theorem embed_chunks_complete (self : LocalEmbedder) (chunks : list Chunk) :
  (0 < batch_size self)%Z →
  ∃ embeddings self',
    embed_chunks md5_hexdigest model_encode self chunks = Some (embeddings, self')
    ∧ length embeddings = length chunks
    ∧ Forall is_Some embeddings
    ∧ ∀ j c e, chunks !! j = Some c →
               embedding_cache self !! _get_content_hash md5_hexdigest (content c) = Some e →
               embeddings !! j = Some (Some e).
Proof.
  intros Hbs. unfold embed_chunks.
  pose proof (check_cache_length (embedding_cache self) chunks 0) as Hlen.
  pose proof (check_cache_lookup (embedding_cache self) chunks 0) as Hlook.
  pose proof (check_cache_indices (embedding_cache self) chunks 0) as Hidx.
  pose proof (check_cache_lengths md5_hexdigest (embedding_cache self) chunks 0) as Hsame.
  destruct (check_cache md5_hexdigest (embedding_cache self) chunks 0)
    as [[embeddings todo] idx].
  cbn [fst snd] in *.
  assert (Hhit : ∀ j c e, chunks !! j = Some c →
                          embedding_cache self !! hash_of c = Some e → j ∉ idx).
  { intros j c e Hj He (k & c' & -> & Hk & Hc')%Hidx. cbn in Hj. congruence. }
  destruct todo as [|c0 todo'] eqn:Etodo.
  - eexists _, _. split; [done|]. split; [done|].
    destruct idx; [|done]. split.
    + apply Forall_lookup. intros j x Hx.
      destruct (lookup_lt_is_Some_2 chunks j) as [c Hc];
        [apply lookup_lt_Some in Hx; lia|].
      rewrite (Hlook j c Hc) in Hx. simplify_eq.
      destruct (embedding_cache self !! hash_of c) eqn:E; [eauto|].
      exfalso. apply (not_elem_of_nil j), Hidx. exists j, c. done.
    + intros j c e Hj He. rewrite (Hlook j c Hj). by rewrite <- He.
  - rewrite <- Etodo in *. clear Etodo c0 todo'.
    destruct (batch_encode_positive model_encode model_encode_length self
                (content <$> todo) Hbs) as (new & batches & -> & Hconcat & Hnew).
    cbn [mbind option_bind]. rewrite length_fmap in Hnew.
    assert (Hitems : (zip3 todo new idx).*2 = idx) by (apply zip3_thirds; lia).
    assert (Hcommit := λ j, commit_embeddings_lookup (embedding_cache self) embeddings
                              (zip3 todo new idx) j).
    destruct (foldl _ _ _) as [cache' embeddings']. cbn [snd] in Hcommit.
    rewrite Hitems in Hcommit.
    eexists _, _. split; [done|]. split; [by rewrite (proj1 (Hcommit 0)), Hlen|]. split.
    + apply Forall_lookup. intros j x Hx.
      destruct (Hcommit j) as (Hl & Hout & Hin).
      destruct (lookup_lt_is_Some_2 chunks j) as [c Hc];
        [apply lookup_lt_Some in Hx; lia|].
      destruct (embedding_cache self !! hash_of c) as [e|] eqn:E.
      * rewrite (Hout (Hhit j c e Hc E)), (Hlook j c Hc), E in Hx. simplify_eq. eauto.
      * destruct Hin as [e He].
        -- apply Hidx. exists j, c. done.
        -- apply lookup_lt_Some in Hc. lia.
        -- rewrite He in Hx. simplify_eq. eauto.
    + intros j c e Hj He. destruct (Hcommit j) as (_ & Hout & _).
      rewrite (Hout (Hhit j c e Hj He)), (Hlook j c Hj). by rewrite <- He.
Qed.

(** X9. When the content hash of every chunk is in the cache,
    [embed_chunks] returns the cached embeddings, in the order of the
    chunks, and leaves the embedder as it was: the provider is not
    called, whatever the batch size. *)
Theorem embed_chunks_all_cached (self : LocalEmbedder) (chunks : list Chunk) :
  (∀ c, c ∈ chunks →
        is_Some (embedding_cache self !! _get_content_hash md5_hexdigest (content c))) →
  embed_chunks md5_hexdigest model_encode self chunks
  = Some ((λ c, embedding_cache self !! _get_content_hash md5_hexdigest (content c))
          <$> chunks, self).
Proof.
  intros Hall. unfold embed_chunks.
  pose proof (check_cache_length (embedding_cache self) chunks 0) as Hlen.
  pose proof (check_cache_lookup (embedding_cache self) chunks 0) as Hlook.
  pose proof (check_cache_todo md5_hexdigest (embedding_cache self) chunks 0) as Htodo.
  destruct (check_cache md5_hexdigest (embedding_cache self) chunks 0)
    as [[embeddings todo] idx].
  cbn [fst snd] in *.
  assert (Hnone : todo = []).
  { rewrite Htodo. destruct (filter _ chunks) as [|c l] eqn:E; [done|].
    assert (Hc : c ∈ filter (λ c, embedding_cache self
                                   !! _get_content_hash md5_hexdigest (content c) = None)
                   chunks) by (rewrite E; apply list_elem_of_here).
    apply list_elem_of_filter in Hc as [Hmiss Hc].
    destruct (Hall c Hc) as [e He]. congruence. }
  rewrite Hnone. do 2 f_equal. apply list_eq. intros j.
  rewrite list_lookup_fmap. destruct (chunks !! j) as [c|] eqn:Hc.
  - by rewrite (Hlook j c Hc).
  - apply lookup_ge_None. apply lookup_ge_None in Hc. lia.
Qed.

(** X10. When some chunk misses the cache: with a batch size of 0
    [embed_chunks] raises, and with a negative batch size it returns
    without calling the provider, the embedder unchanged, and the list
    it returns holds a placeholder for every chunk that missed. *)
Theorem embed_chunks_degenerate_batch_size (self : LocalEmbedder) (chunks : list Chunk) :
  (∃ c, c ∈ chunks
        ∧ embedding_cache self !! _get_content_hash md5_hexdigest (content c) = None) →
  (batch_size self = 0%Z →
   embed_chunks md5_hexdigest model_encode self chunks = None)
  ∧ ((batch_size self < 0)%Z →
     embed_chunks md5_hexdigest model_encode self chunks
     = Some ((λ c, embedding_cache self !! _get_content_hash md5_hexdigest (content c))
             <$> chunks, self)).
Proof.
  intros (c & Hc & Hmiss). unfold embed_chunks.
  pose proof (check_cache_length (embedding_cache self) chunks 0) as Hlen.
  pose proof (check_cache_lookup (embedding_cache self) chunks 0) as Hlook.
  pose proof (check_cache_todo md5_hexdigest (embedding_cache self) chunks 0) as Htodo.
  destruct (check_cache md5_hexdigest (embedding_cache self) chunks 0)
    as [[embeddings todo] idx].
  cbn [fst snd] in *.
  assert (Hin : c ∈ todo) by (rewrite Htodo; by apply list_elem_of_filter).
  assert (Hembs : embeddings
                  = (λ c, embedding_cache self
                          !! _get_content_hash md5_hexdigest (content c)) <$> chunks).
  { apply list_eq. intros j.
    rewrite list_lookup_fmap. destruct (chunks !! j) as [c'|] eqn:Hc'.
    - by rewrite (Hlook j c' Hc').
    - apply lookup_ge_None. apply lookup_ge_None in Hc'. lia. }
  destruct todo as [|c0 todo']; [by apply not_elem_of_nil in Hin|].
  unfold _batch_encode. split.
  - intros ->. done.
  - intros Hneg. destruct (Z.eqb_spec (batch_size self) 0); [lia|].
    destruct (Z.ltb_spec (batch_size self) 0); [|lia].
    cbn. rewrite app_nil_r, Hembs. by destruct self.
Qed.

(** X11. With a positive batch size, [embed_chunks] hands the provider
    exactly the contents of the chunks that miss the cache, in their
    order, cut into batches of at least one and at most [batch_size]
    texts. *)
Theorem embed_chunks_batches (self : LocalEmbedder) (chunks : list Chunk) :
  (0 < batch_size self)%Z →
  ∃ embeddings self' batches,
    embed_chunks md5_hexdigest model_encode self chunks = Some (embeddings, self')
    ∧ encoded_batches self' = encoded_batches self ++ batches
    ∧ concat batches
      = content <$> filter (λ c, embedding_cache self
                                 !! _get_content_hash md5_hexdigest (content c) = None)
                      chunks
    ∧ Forall (λ b, (1 ≤ len b ≤ batch_size self)%Z) batches.
Proof.
  intros Hbs. unfold embed_chunks.
  pose proof (check_cache_todo md5_hexdigest (embedding_cache self) chunks 0) as Htodo.
  destruct (check_cache md5_hexdigest (embedding_cache self) chunks 0)
    as [[embeddings todo] idx].
  cbn [fst snd] in *. rewrite <- Htodo. clear Htodo.
  destruct todo as [|c0 todo'] eqn:Etodo.
  - exists embeddings, self, []. rewrite app_nil_r. by repeat split.
  - rewrite <- Etodo. clear Etodo c0 todo'. unfold _batch_encode.
    destruct (Z.eqb_spec (batch_size self) 0); [lia|].
    destruct (Z.ltb_spec (batch_size self) 0); [lia|].
    cbn [mbind option_bind]. destruct (foldl _ _ _) as [cache' embeddings'].
    eexists _, _, _. split; [done|]. split; [done|]. split.
    + rewrite batch_loop_concat by (unfold len; lia). done.
    + apply batch_loop_sizes; lia.
Qed.

End EmbedderResults.

Lemma embed_chunks_complete_witness :
  ∃ embeddings self',
    embed_chunks id_hash null_encode (mkEmbedder 32 ∅ [])
      [example_chunk "A" 0; example_chunk "B" 5] = Some (embeddings, self')
    ∧ length embeddings = 2
    ∧ Forall is_Some embeddings.
Proof.
  destruct (embed_chunks_complete id_hash null_encode null_encode_length
              (mkEmbedder 32 ∅ []) [example_chunk "A" 0; example_chunk "B" 5])
    as (embeddings & self' & Hrun & Hlen & Hsome & _); [reflexivity|].
  exists embeddings, self'. split; [exact Hrun|]. split; [exact Hlen|exact Hsome].
Defined.

Lemma embed_chunks_all_cached_witness :
  embed_chunks id_hash null_encode (mkEmbedder 0 {[py "same text" := [1%Q]]} [])
    [example_chunk "A" 0; example_chunk "B" 5]
  = Some ([Some [1%Q]; Some [1%Q]], mkEmbedder 0 {[py "same text" := [1%Q]]} []).
Proof.
  etrans.
  - apply (embed_chunks_all_cached id_hash null_encode
             (mkEmbedder 0 {[py "same text" := [1%Q]]} [])
             [example_chunk "A" 0; example_chunk "B" 5]).
    intros c Hc. exists [1%Q].
    apply elem_of_cons in Hc as [->|Hc]; [reflexivity|].
    apply elem_of_cons in Hc as [->|Hc]; [reflexivity|].
    by apply not_elem_of_nil in Hc.
  - reflexivity.
Defined.

Lemma embed_chunks_degenerate_batch_size_witness :
  embed_chunks id_hash null_encode (mkEmbedder 0 ∅ []) [example_chunk "A" 0] = None
  ∧ embed_chunks id_hash null_encode (mkEmbedder (-1) ∅ []) [example_chunk "A" 0]
    = Some ([None], mkEmbedder (-1) ∅ []).
Proof.
  split.
  - apply (embed_chunks_degenerate_batch_size id_hash null_encode (mkEmbedder 0 ∅ [])
             [example_chunk "A" 0]); [|reflexivity].
    exists (example_chunk "A" 0). split; [apply list_elem_of_here|reflexivity].
  - etrans.
    + apply (embed_chunks_degenerate_batch_size id_hash null_encode (mkEmbedder (-1) ∅ [])
               [example_chunk "A" 0]); [|reflexivity].
      exists (example_chunk "A" 0). split; [apply list_elem_of_here|reflexivity].
    + reflexivity.
Defined.

Lemma embed_chunks_batches_witness :
  ∃ embeddings self' batches,
    embed_chunks id_hash null_encode (mkEmbedder 1 ∅ [])
      [example_chunk "A" 0; example_chunk "B" 5] = Some (embeddings, self')
    ∧ encoded_batches self' = [] ++ batches
    ∧ Forall (λ b, (1 ≤ len b ≤ 1)%Z) batches.
Proof.
  destruct (embed_chunks_batches id_hash null_encode (mkEmbedder 1 ∅ [])
              [example_chunk "A" 0; example_chunk "B" 5])
    as (embeddings & self' & batches & Hrun & Henc & _ & Hsz); [reflexivity|].
  exists embeddings, self', batches. split; [exact Hrun|]. split; [exact Henc|exact Hsz].
Defined.

(** * Further properties of the searcher *)

(** ** The order of the fused results *)

Lemma result_ids_omap (st : store) (l : list nat) :
  result_ids st l = omap (id_at st) l.
Proof.
  unfold result_ids, deref, id_at. induction l as [|x l IH]; [done|].
  cbn. destruct (st !! x); cbn; by rewrite IH.
Qed.

Lemma first_hits_ext (st st' : store) (seen : list pystr) (l : list nat) :
  (∀ y, id_at st' y = id_at st y) → first_hits st' seen l = first_hits st seen l.
Proof.
  intros Hids. revert seen. induction l as [|x l IH]; intros seen; [done|].
  cbn. rewrite Hids. destruct (id_at st x); [|done]. case_decide; by rewrite IH.
Qed.

Lemma first_hits_app (st : store) (seen : list pystr) (a b : list nat) :
  first_hits st seen (a ++ b)
  = first_hits st seen a
    ++ first_hits st (seen ++ omap (id_at st) (first_hits st seen a)) b.
Proof.
  revert seen. induction a as [|x a IH]; intros seen; [by rewrite app_nil_r|].
  cbn. destruct (id_at st x) as [cid|] eqn:Hx; [|done].
  case_decide; [done|]. cbn. rewrite Hx, IH. cbn. by rewrite <- app_assoc.
Qed.

(** The ids of the first hits, after the ids seen before, are distinct,
    and they are the ids of the list. *)
Lemma first_hits_ids (st : store) (seen : list pystr) (l : list nat) :
  NoDup seen →
  NoDup (seen ++ omap (id_at st) (first_hits st seen l))
  ∧ ∀ cid, cid ∈ seen ++ omap (id_at st) (first_hits st seen l)
           ↔ cid ∈ seen ∨ cid ∈ omap (id_at st) l.
Proof.
  revert seen. induction l as [|x l IH]; intros seen Hnd.
  - cbn. rewrite app_nil_r. split; [done|]. intros cid. split; [by left|].
    by intros [?|?%not_elem_of_nil].
  - cbn. destruct (id_at st x) as [c|] eqn:Hx; [|by apply IH].
    case_decide as Hc.
    + destruct (IH seen Hnd) as [Hnd' Hin]. split; [done|].
      intros cid. rewrite Hin, elem_of_cons. split; [intros [?|?]; auto|].
      intros [?|[->|?]]; auto.
    + cbn. rewrite Hx.
      destruct (IH (seen ++ [c])) as [Hnd' Hin].
      { apply NoDup_app. split; [done|]. split; [|apply NoDup_singleton].
        intros y Hy ->%list_elem_of_singleton. done. }
      rewrite <- app_assoc in Hnd', Hin. cbn in Hnd', Hin. split; [done|].
      intros cid. rewrite Hin, elem_of_app, list_elem_of_singleton, elem_of_cons.
      split; [intros [[?|?]|?]; auto|intros [?|[?|?]]; auto].
Qed.

Section FusionOrder.

Variable alpha : Q.

Lemma combine_semantic_step (st : store) (m : combined) (x : nat) :
  (∀ y, id_at (combine_semantic alpha (st, m) x).1 y = id_at st y)
  ∧ (combine_semantic alpha (st, m) x).2
    = m ++ match id_at st x with
           | Some cid => if decide (cid ∈ m.*1) then [] else [(cid, x)]
           | None => []
           end.
Proof.
  unfold combine_semantic, id_at. destruct (st !! x) as [r|] eqn:Hx; cbn;
    [|by rewrite app_nil_r].
  destruct (dict_get m (chunk_id (chunk r))) as [target|] eqn:Hget.
  - rewrite decide_True by (by eapply fusion_key_elem, dict_get_Some_elem).
    rewrite app_nil_r. destruct (st !! target) as [r0|] eqn:Ht; cbn; [|done].
    split; [|done]. intros y. by apply (id_at_insert_same _ _ _ r0).
  - rewrite decide_False by (by apply dict_get_None). cbn.
    split; [|done]. intros y. by apply (id_at_insert_same _ _ _ r).
Qed.

Lemma combine_keyword_step (st : store) (m : combined) (x : nat) :
  (∀ y, id_at (combine_keyword alpha (st, m) x).1 y = id_at st y)
  ∧ (combine_keyword alpha (st, m) x).2
    = m ++ match id_at st x with
           | Some cid => if decide (cid ∈ m.*1) then [] else [(cid, x)]
           | None => []
           end.
Proof.
  unfold combine_keyword, id_at. destruct (st !! x) as [r|] eqn:Hx; cbn;
    [|by rewrite app_nil_r].
  destruct (dict_get m (chunk_id (chunk r))) as [target|] eqn:Hget.
  - rewrite decide_True by (by eapply fusion_key_elem, dict_get_Some_elem).
    rewrite app_nil_r. destruct (st !! target) as [r0|] eqn:Ht; cbn; [|done].
    split; [|done]. intros y. by apply (id_at_insert_same _ _ _ r0).
  - rewrite decide_False by (by apply dict_get_None). cbn.
    split; [|done]. intros y. by apply (id_at_insert_same _ _ _ r).
Qed.

(** A loop whose body enters a result under its chunk id unless the id
    is a key already, and never changes a chunk id of the store. *)
Lemma combine_fold (step : store * combined → nat → store * combined) :
  (∀ st m x,
     (∀ y, id_at (step (st, m) x).1 y = id_at st y)
     ∧ (step (st, m) x).2
       = m ++ match id_at st x with
              | Some cid => if decide (cid ∈ m.*1) then [] else [(cid, x)]
              | None => []
              end) →
  ∀ l st m,
    (∀ y, id_at (foldl step (st, m) l).1 y = id_at st y)
    ∧ (foldl step (st, m) l).2.*2 = m.*2 ++ first_hits st m.*1 l
    ∧ (foldl step (st, m) l).2.*1 = m.*1 ++ omap (id_at st) (first_hits st m.*1 l).
Proof.
  intros Hstep. induction l as [|x l IH]; intros st m.
  - cbn. by rewrite !app_nil_r.
  - cbn [foldl]. destruct (Hstep st m x) as [Hids Hm].
    destruct (step (st, m) x) as [st1 m1]. cbn [fst snd] in Hids, Hm.
    destruct (IH st1 m1) as (Hids' & Hvals & Hkeys).
    split; [intros y; by rewrite Hids', Hids|].
    rewrite Hvals, Hkeys, (first_hits_ext st st1) by done.
    rewrite (list_omap_ext (id_at st1) (id_at st) _ (first_hits st m1.*1 l))
      by (apply Forall2_same_length_lookup; split; [done|]; intros; simplify_eq; apply Hids).
    subst m1. cbn [first_hits]. destruct (id_at st x) as [cid|] eqn:Hx;
      [|by rewrite app_nil_r].
    case_decide; [by rewrite app_nil_r|].
    rewrite !fmap_app. cbn. rewrite Hx. by rewrite <- !app_assoc.
Qed.

(** X12. For any two lists of results, [_combine_results] returns the
    first reference met for each chunk id, going through the semantic
    list and then the keyword list; no chunk id occurs twice in what it
    returns, and the ids returned are the ids of the two lists. *)
Theorem combine_results_first_hits (st : store) (sem kw : list nat) :
  (_combine_results st sem kw alpha).2 = first_hits st [] (sem ++ kw)
  ∧ NoDup (result_ids (_combine_results st sem kw alpha).1
             (_combine_results st sem kw alpha).2)
  ∧ ∀ cid, cid ∈ result_ids (_combine_results st sem kw alpha).1
                   (_combine_results st sem kw alpha).2
           ↔ cid ∈ result_ids st sem ∨ cid ∈ result_ids st kw.
Proof.
  unfold _combine_results.
  destruct (combine_fold (combine_semantic alpha) combine_semantic_step sem st [])
    as (Hids1 & Hvals1 & Hkeys1).
  destruct (foldl (combine_semantic alpha) (st, []) sem) as [st1 m1].
  cbn [fst snd fmap list_fmap app] in Hids1, Hvals1, Hkeys1.
  destruct (combine_fold (combine_keyword alpha) combine_keyword_step kw st1 m1)
    as (Hids2 & Hvals2 & Hkeys2).
  destruct (foldl (combine_keyword alpha) (st1, m1) kw) as [st2 m2].
  cbn [fst snd] in *.
  assert (Hout : m2.*2 = first_hits st [] (sem ++ kw)).
  { rewrite Hvals2, Hvals1, Hkeys1, first_hits_app.
    by rewrite (first_hits_ext st st1). }
  assert (Hsame : omap (id_at st2) m2.*2 = omap (id_at st) m2.*2).
  { apply list_omap_ext, Forall2_same_length_lookup. split; [done|].
    intros i x y Hx Hy. simplify_eq. by rewrite Hids2, Hids1. }
  rewrite !result_ids_omap, Hsame, Hout.
  destruct (first_hits_ids st [] (sem ++ kw) NoDup_nil_2) as [Hnd Hin].
  cbn [app] in Hnd, Hin. split; [done|]. split; [done|].
  intros cid. rewrite Hin, omap_app, elem_of_app. split; [|by right].
  intros [Hn|?]; [by apply not_elem_of_nil in Hn|done].
Qed.

End FusionOrder.

(** ** The ranking of the results of a search *)

Lemma Forall_sublist_of {A} (P : A → Prop) (l k : list A) :
  l `sublist_of` k → Forall P k → Forall P l.
Proof.
  induction 1 as [|x l k _ IH|x l k _ IH]; intros H; [done| |].
  - inversion H; subst. constructor; auto.
  - inversion H; subst. auto.
Qed.

Lemma ranked_sublist (l k : list SearchResult) :
  l `sublist_of` k → ranked k → ranked l.
Proof.
  induction 1 as [|x l k Hsub IH|x l k Hsub IH]; cbn; [done| |].
  - intros [Hx Hk]. split; [by eapply Forall_sublist_of|auto].
  - intros [_ Hk]. auto.
Qed.

Lemma Forall_insert_by_enhanced (P : SearchResult → Prop) x l :
  P x → Forall P l → Forall P (insert_by_enhanced x l).
Proof.
  intros Hx. induction 1 as [|y l Hy Hl IH]; cbn; [by repeat constructor|].
  destruct (Qle_bool _ _); repeat constructor; done.
Qed.

Lemma ranked_insert_by_enhanced x l : ranked l → ranked (insert_by_enhanced x l).
Proof.
  induction l as [|y l IH]; cbn; [by repeat constructor|].
  intros [Hy Hl]. destruct (Qle_bool (enhanced_score y) (enhanced_score x)) eqn:E.
  - apply Qle_bool_iff in E. cbn. split; [|done]. constructor; [done|].
    eapply Forall_impl; [exact Hy|]. intros z Hz. cbn in Hz. by apply (Qle_trans _ (enhanced_score y)).
  - cbn. split; [|auto]. apply Forall_insert_by_enhanced; [|done].
    apply Qlt_le_weak, Qnot_le_lt. intros H. apply Qle_bool_iff in H. congruence.
Qed.

Lemma ranked_sort_by_enhanced l : ranked (sort_by_enhanced l).
Proof.
  unfold sort_by_enhanced. induction l as [|x l IH]; cbn; [done|].
  by apply ranked_insert_by_enhanced.
Qed.

Lemma py_slice_sublist {A} (l : list A) (a b : Z) : py_slice l a b `sublist_of` l.
Proof. unfold py_slice. etrans; [apply sublist_take|apply sublist_drop]. Qed.

Section SearchRanking.

Context {Collection ProviderFailure Filters : Type}.
Variable _semantic_search :
  Collection → pystr → option pystr → option Filters
  → ProviderFailure + list SearchResult.
Variable _keyword_search :
  Collection → pystr → option pystr → ProviderFailure + list SearchResult.
Variable _apply_domain_boost : list SearchResult → pystr → list SearchResult.
Variable _apply_intelligence_boost :
  list SearchResult → pystr → option Filters → list SearchResult.

(** X13. Whatever the two legs return and whatever the boosts do, the
    list [search] returns is in descending order of enhanced score,
    holds no result below the relevance threshold and, for a
    non-negative [top_k], at most [top_k] results. *)
Theorem search_results_ranked (self : HybridSearcher Collection) (query : pystr)
    (domain : option pystr) (filters intelligence_filters : option Filters)
    (results : list SearchResult) :
  search Collection ProviderFailure Filters _semantic_search _keyword_search
    _apply_domain_boost _apply_intelligence_boost self query domain filters
    intelligence_filters = inr results →
  ranked results
  ∧ Forall (λ r, (relevance_threshold self <= enhanced_score r)%Q) results
  ∧ ((0 ≤ top_k self)%Z → (len results ≤ top_k self)%Z).
Proof.
  unfold search. destruct (collection self) as [c|]; [|done].
  destruct (_semantic_search c _ domain filters) as [e|semantic_values]; [done|].
  destruct (_keyword_search c _ domain) as [e|keyword_values]; [done|].
  unfold alloc. destruct (_combine_results _ _ _ _) as [st combined].
  set (boosted := if intelligence_enabled self then _ else _).
  intros H. simplify_eq. split; [|split].
  - eapply ranked_sublist; [apply py_slice_sublist|].
    eapply ranked_sublist; [apply sublist_filter|]. apply ranked_sort_by_enhanced.
  - eapply Forall_sublist_of; [apply py_slice_sublist|].
    apply Forall_forall. intros r [Hr _]%list_elem_of_filter. by apply Qle_bool_iff.
  - apply length_py_slice_prefix.
Qed.

End SearchRanking.

Lemma search_results_ranked_witness :
  ∃ results,
    search unit unit unit example_semantic_search example_keyword_search
      no_domain_boost no_intelligence_boost
      (mkSearcher (Some tt) 2 (3 # 10)%Q (7 # 10)%Q false (IntelligenceConfig.mk None None))
      (py "query") None None None = inr results
    ∧ ranked results
    ∧ (len results ≤ 2)%Z.
Proof.
  eexists. split; [reflexivity|].
  destruct (search_results_ranked example_semantic_search example_keyword_search
              no_domain_boost no_intelligence_boost
              (mkSearcher (Some tt) 2 (3 # 10)%Q (7 # 10)%Q false
                 (IntelligenceConfig.mk None None))
              (py "query") None None None _ eq_refl) as (Hranked & _ & Hlen).
  split; [exact Hranked|]. apply Hlen. cbn. lia.
Defined.

(** ** The sanitized query *)

Lemma join_space_cons (w : pystr) (ws : list pystr) :
  ws ≠ [] → join [space] (w :: ws) = w ++ space :: join [space] ws.
Proof. by destruct ws. Qed.

(** Joining the words of a text by single spaces does not make it
    longer; a leading whitespace character is saved. *)
Lemma length_join_split_ws (s : pystr) :
  length (join [space] (split_ws s)) ≤ length s
  ∧ ∀ c t, s = c :: t → isspace c = true →
           length (join [space] (split_ws s)) ≤ length t.
Proof.
  induction s as [|c t [IH1 IH2]]; [done|].
  split.
  - cbn [split_ws]. destruct (isspace c) eqn:Hc; [cbn; lia|].
    destruct t as [|c' t']; [done|]. destruct (isspace c') eqn:Hc'.
    + specialize (IH2 c' t' eq_refl Hc').
      destruct (split_ws (c' :: t')) as [|w ws] eqn:E; [cbn; lia|].
      rewrite join_space_cons by done. cbn [app length] in *. lia.
    + destruct (split_ws_head_nonspace c' t' Hc') as (w & ws & E). rewrite E in *.
      assert (Hj : join [space] ((c :: c' :: w) :: ws)
                   = c :: join [space] ((c' :: w) :: ws)) by (by destruct ws).
      rewrite Hj. cbn [length] in *. lia.
  - intros c0 t0 Heq Hc0. simplify_eq. cbn [split_ws]. by rewrite Hc0.
Qed.

Lemma split_ws_Forall (P : N → Prop) (s : pystr) :
  Forall P s → Forall (Forall P) (split_ws s).
Proof.
  induction 1 as [|c t Hc Ht IH]; [constructor|].
  cbn [split_ws]. destruct (isspace c); [done|].
  destruct t as [|c' t']; [by repeat constructor|].
  destruct (isspace c'); [by repeat constructor|].
  destruct (split_ws (c' :: t')) as [|w ws]; [by repeat constructor|].
  inversion IH; subst. by repeat constructor.
Qed.

Lemma join_Forall (P : N → Prop) (ws : list pystr) :
  P space → Forall (Forall P) ws → Forall P (join [space] ws).
Proof.
  intros Hsp. induction 1 as [|w ws Hw Hws IH]; [constructor|].
  destruct ws as [|w' ws']; [done|].
  rewrite join_space_cons by done. apply Forall_app. split; [done|]. by constructor.
Qed.

Lemma lstrip_word_head (s : pystr) :
  match s with [] => True | c :: _ => isspace c = false end → lstrip s = s.
Proof. destruct s as [|c t]; [done|]. cbn. by intros ->. Qed.

(** A text that is words joined by single spaces has nothing to strip. *)
Lemma strip_join_words (ws : list pystr) :
  Forall is_word ws → strip (join [space] ws) = join [space] ws.
Proof.
  intros Hws. unfold strip, rstrip.
  assert (Hhead : match join [space] ws with [] => True | c :: _ => isspace c = false end).
  { destruct Hws as [|w ws [Hne Hw] Hws]; [done|].
    destruct w as [|c w]; [done|]. inversion Hw; subst.
    by destruct ws. }
  rewrite (lstrip_word_head _ Hhead).
  assert (Hlast : match reverse (join [space] ws) with
                  | [] => True | c :: _ => isspace c = false end).
  { clear Hhead. induction Hws as [|w ws [Hne Hw] Hws IH]; [done|].
    destruct ws as [|w' ws'].
    - change (join [space] [w]) with w.
      apply Forall_reverse in Hw. destruct (reverse w) as [|c u] eqn:E; [done|].
      by inversion Hw.
    - rewrite join_space_cons by done. rewrite reverse_app, reverse_cons.
      destruct (reverse (join [space] (w' :: ws'))) as [|c u] eqn:E.
      + apply (f_equal reverse) in E. rewrite reverse_involutive in E.
        inversion Hws as [|? ? [Hne' _] _]; subst.
        destruct w' as [|? ?]; [done|]. by destruct ws'.
      + done. }
  rewrite (lstrip_word_head _ Hlast). apply reverse_involutive.
Qed.

Lemma filter_Forall_id {A} (P : A → Prop) `{∀ x, Decision (P x)} (l : list A) :
  Forall P l → filter P l = l.
Proof.
  induction 1 as [|x l Hx Hl IH]; [done|]. by rewrite filter_cons_True, IH.
Qed.

(** What [_sanitize_query] returns: words joined by single spaces. *)
Lemma sanitize_query_words (query : pystr) :
  ∃ ws, Forall is_word ws
        ∧ _sanitize_query query = join [space] ws
        ∧ Forall (Forall (λ c, c ∉ [60; 62; 34; 39]%N)) ws
        ∧ (len (join [space] ws) ≤ 1000)%Z.
Proof.
  unfold _sanitize_query. destruct query as [|c0 q0] eqn:E; cbn [truthy negb].
  { exists []. by repeat split. }
  rewrite <- E. clear E c0 q0.
  set (kept := filter (λ c, c ∉ [60; 62; 34; 39]%N) query).
  set (cut := if (len kept >? 1000)%Z then py_slice kept 0 1000 else kept).
  assert (Hkept : Forall (λ c, c ∉ [60; 62; 34; 39]%N) kept).
  { apply Forall_forall. by intros c [Hc _]%list_elem_of_filter. }
  assert (Hcut : Forall (λ c, c ∉ [60; 62; 34; 39]%N) cut).
  { unfold cut. case_match; [by apply Forall_py_slice|done]. }
  assert (Hlen : (len cut ≤ 1000)%Z).
  { unfold cut. destruct (Z.gtb_spec (len kept) 1000); [|lia].
    by apply length_py_slice_prefix. }
  exists (split_ws cut). change (py " ") with [space].
  split; [apply split_ws_words|].
  split; [apply strip_join_words, split_ws_words|].
  split; [by apply split_ws_Forall|].
  pose proof (proj1 (length_join_split_ws cut)). unfold len in *. lia.
Qed.

(** X14. What [_sanitize_query] returns holds none of the characters
    [<], [>], the double quote or the single quote, is at most 1000
    characters long, is its own words joined by single spaces (no
    leading, trailing or repeated whitespace), and is left unchanged by
    sanitizing it again. *)
Theorem sanitize_query_normal_form (query : pystr) :
  Forall (λ c, c ∉ [60; 62; 34; 39]%N) (_sanitize_query query)
  ∧ (len (_sanitize_query query) ≤ 1000)%Z
  ∧ _sanitize_query query = join [space] (split_ws (_sanitize_query query))
  ∧ _sanitize_query (_sanitize_query query) = _sanitize_query query.
Proof.
  destruct (sanitize_query_words query) as (ws & Hws & -> & Hclean & Hlen).
  assert (Hall : Forall (λ c, c ∉ [60; 62; 34; 39]%N) (join [space] ws)).
  { apply join_Forall; [|done]. vm_compute. intros H.
    repeat (apply elem_of_cons in H as [H|H]; [discriminate|]).
    by apply not_elem_of_nil in H. }
  split; [done|]. split; [done|].
  split; [by rewrite split_ws_join_words|].
  unfold _sanitize_query. destruct (join [space] ws) as [|c0 q0] eqn:E; [done|].
  cbn [truthy negb]. rewrite <- E in *. clear E c0 q0.
  rewrite (filter_Forall_id _ _ Hall).
  destruct (Z.gtb_spec (len (join [space] ws)) 1000); [lia|].
  change (py " ") with [space]. rewrite split_ws_join_words by done.
  by apply strip_join_words.
Qed.

(** ** The query-specific boost *)

Section BoostProperties.

Variable lower : pystr → pystr.



End BoostProperties.


(** ** The intelligence boost and the keyword leg *)

Section LegProperties.

Variable lower : pystr → pystr.
Variable domains : gmap pystr DomainConfig.t.

(** What the loop of [_apply_intelligence_boost] does with one result. *)
Lemma intelligence_boost_one (result : SearchResult) (query : pystr)
    (filters : option (gmap pystr MetaVal)) :
  _apply_intelligence_boost lower [result] query filters = []
  ∨ ∃ e, _apply_intelligence_boost lower [result] query filters
         = [set_enhanced_score result e].
Proof.
  unfold _apply_intelligence_boost. cbn [omap list_omap].
  destruct (intelligence_boost_attempt lower result query filters) as [[r'|]|] eqn:E;
    [|by left|right; by eexists].
  right. unfold intelligence_boost_attempt in E.
  destruct (meta_number _) as [factor|]; [|done]. cbn [mbind option_bind] in E.
  destruct (_apply_query_specific_boost _ _ _ _ _ _) as [e|]; [|done]. cbn [mbind option_bind] in E.
  destruct (match filters with Some _ => _ | None => _ end) as [[|]|]; cbn [mbind option_bind] in E;
    simplify_eq. by eexists.
Qed.

Lemma apply_intelligence_boost_cons (result : SearchResult) (results : list SearchResult)
    (query : pystr) (filters : option (gmap pystr MetaVal)) :
  _apply_intelligence_boost lower (result :: results) query filters
  = _apply_intelligence_boost lower [result] query filters
    ++ _apply_intelligence_boost lower results query filters.
Proof.
  unfold _apply_intelligence_boost. cbn [omap list_omap].
  by destruct (match intelligence_boost_attempt lower result query filters with
               | Some outcome => outcome
               | None => _
               end).
Qed.

(** A result is dropped only when the filters are given, not empty, and
    the check of the filters returns [False]. *)
Lemma intelligence_boost_dropped (result : SearchResult) (query : pystr)
    (filters : option (gmap pystr MetaVal)) :
  _apply_intelligence_boost lower [result] query filters = [] →
  ∃ f, filters = Some f ∧ f ≠ ∅
       ∧ _passes_intelligence_filters (metadata (chunk result)) f = Some false.
Proof.
  unfold _apply_intelligence_boost. cbn [omap list_omap].
  destruct (intelligence_boost_attempt lower result query filters) as [[r'|]|] eqn:E;
    [done| |done].
  intros _. unfold intelligence_boost_attempt in E.
  destruct (meta_number _) as [factor|]; [|done]. cbn [mbind option_bind] in E.
  destruct (_apply_query_specific_boost _ _ _ _ _ _) as [e|]; [|done]. cbn [mbind option_bind] in E.
  destruct filters as [f|]; [|done]. case_bool_decide as Hf; [|done].
  destruct (_passes_intelligence_filters _ f) as [[|]|] eqn:Hp; try done.
  by exists f.
Qed.

(** X16. [_apply_intelligence_boost] changes nothing of a result but
    its enhanced score, keeps the order and only drops results; without
    filters, or with empty ones, it drops none; a result is dropped only
    if the check of the filters returns [False] for it (a check that
    raises keeps it); and a result whose stored boost is not a number is
    kept with its score as enhanced score. *)
Theorem intelligence_boost_keeps (results : list SearchResult) (query : pystr)
    (filters : option (gmap pystr MetaVal)) :
  (unenhanced <$> _apply_intelligence_boost lower results query filters)
    `sublist_of` (unenhanced <$> results)
  ∧ (filters = None ∨ filters = Some ∅ →
     unenhanced <$> _apply_intelligence_boost lower results query filters
     = unenhanced <$> results)
  ∧ (∀ r f, r ∈ results → filters = Some f →
            _passes_intelligence_filters (metadata (chunk r)) f ≠ Some false →
            ∃ r', r' ∈ _apply_intelligence_boost lower results query filters
                  ∧ unenhanced r' = unenhanced r)
  ∧ (∀ r, r ∈ results →
          meta_number (default (MNum 1) (metadata (chunk r) !! py "intelligence_boost"))
          = None →
          set_enhanced_score r (score r)
          ∈ _apply_intelligence_boost lower results query filters).
Proof.
  split; [|split; [|split]].
  - induction results as [|r results IH]; [done|].
    rewrite apply_intelligence_boost_cons.
    destruct (intelligence_boost_one r query filters) as [->|[e ->]]; cbn.
    + by apply sublist_cons.
    + by apply sublist_skip.
  - intros Hnone. induction results as [|r results IH]; [done|].
    rewrite apply_intelligence_boost_cons.
    destruct (intelligence_boost_one r query filters) as [Hdrop|[e ->]].
    + apply intelligence_boost_dropped in Hdrop as (f & Hf & Hne & _).
      destruct Hnone; congruence.
    + cbn. by rewrite IH.
  - intros r f Hr -> Hpass. induction results as [|r0 results IH];
      [by apply not_elem_of_nil in Hr|].
    rewrite apply_intelligence_boost_cons.
    apply elem_of_cons in Hr as [->|Hr].
    + destruct (intelligence_boost_one r0 query (Some f)) as [Hdrop|[e ->]].
      * apply intelligence_boost_dropped in Hdrop as (f' & Hf & _ & Hfalse).
        by simplify_eq.
      * eexists. split; [apply list_elem_of_here|done].
    + destruct (IH Hr) as (r' & Hin & Heq). exists r'. split; [|done].
      apply elem_of_app. by right.
  - intros r Hr Hboost. induction results as [|r0 results IH];
      [by apply not_elem_of_nil in Hr|].
    rewrite apply_intelligence_boost_cons. apply elem_of_app.
    apply elem_of_cons in Hr as [->|Hr]; [left|right; by apply IH].
    unfold _apply_intelligence_boost, intelligence_boost_attempt. cbn [omap list_omap].
    rewrite Hboost. cbn. apply list_elem_of_here.
Qed.





End LegProperties.


(** ** From the stored metadata to the enhanced score *)

Section StoredBoost.

Context {Collection : Type}.
Variable lower : pystr → pystr.
Variable parse_chunk_status : pystr → option StatusInfo.t.
Variable extract_temporal_context : pystr → pystr → option TemporalContext.t.
Variable extract_priority_markers : pystr → pystr → option PriorityMarkers.t.

(** A query without trigger terms leaves the score as it is, whatever
    the metadata holds. *)
Lemma query_specific_boost_no_trigger (base_score : Q) (query : pystr)
    (status_type current_relevance urgency_score : MetaVal) :
  contains_any (lower query) trigger_terms = false →
  _apply_query_specific_boost lower base_score query status_type current_relevance
    urgency_score = Some base_score.
Proof.
  intros H. unfold _apply_query_specific_boost.
  assert (Hterms : contains_any (lower query) trigger_terms
                   = contains_any (lower query)
                       [py "current"; py "active"; py "now"; py "today"]
                     || contains_any (lower query)
                          [py "urgent"; py "priority"; py "critical"; py "deadline"]
                     || contains_any (lower query)
                          [py "andrew"; py "client"; py "engagement"; py "sprint"]
                     || contains_any (lower query)
                          [py "completed"; py "done"; py "finished"]).
  { unfold contains_any, trigger_terms.
    change [py "current"; py "active"; py "now"; py "today";
            py "urgent"; py "priority"; py "critical"; py "deadline";
            py "andrew"; py "client"; py "engagement"; py "sprint";
            py "completed"; py "done"; py "finished"]
      with ([py "current"; py "active"; py "now"; py "today"]
            ++ [py "urgent"; py "priority"; py "critical"; py "deadline"]
            ++ [py "andrew"; py "client"; py "engagement"; py "sprint"]
            ++ [py "completed"; py "done"; py "finished"]).
    by rewrite !existsb_app, !orb_assoc. }
  rewrite Hterms in H.
  apply orb_false_elim in H as [H H4]. apply orb_false_elim in H as [H H3].
  apply orb_false_elim in H as [H1 H2].
  by rewrite H1, H2, H3, H4.
Qed.

(** The boost [process_chunk_intelligence] computes is capped, or it is
    the 1.0 of the default metadata. *)
Lemma process_chunk_intelligence_boost (config : IntelligenceConfig.t)
    (text document_path : pystr) :
  (overall_boost (process_chunk_intelligence parse_chunk_status extract_temporal_context
                    extract_priority_markers config text document_path)
   <= default 3 (IntelligenceConfig.boost_cap config))%Q
  ∨ overall_boost (process_chunk_intelligence parse_chunk_status extract_temporal_context
                     extract_priority_markers config text document_path) = 1%Q.
Proof.
  unfold process_chunk_intelligence.
  destruct (negb _); [by right|].
  destruct (parse_chunk_status text); [|by right].
  destruct (extract_temporal_context text document_path); [|by right].
  destruct (extract_priority_markers text document_path); [|by right].
  left. cbn. unfold _calculate_overall_boost. apply py_minQ_le_l.
Qed.

(** X18. A result whose chunk carries the metadata [add_chunks] stored
    for a chunk goes through [_apply_intelligence_boost] without an
    exception and is kept when no filters are given; for a query without
    trigger terms its enhanced score is its score times the stored
    boost: 1.0 when the searcher that indexed had intelligence
    disabled, else the overall boost of the chunk, which is at most the
    configured cap or is the 1.0 of the default metadata. *)
Theorem stored_metadata_boost (self : HybridSearcher Collection) (c : Chunk)
    (r : SearchResult) (query : pystr) :
  metadata (chunk r)
  = chunk_metadata Collection parse_chunk_status extract_temporal_context
      extract_priority_markers self c →
  let stored :=
    if intelligence_enabled self
    then overall_boost
           (process_chunk_intelligence parse_chunk_status extract_temporal_context
              extract_priority_markers (intelligence_config self)
              (content c) (document_path c))
    else 1%Q in
  ∃ e, _apply_intelligence_boost lower [r] query None = [set_enhanced_score r e]
       ∧ (contains_any (lower query) trigger_terms = false → e = (score r * stored)%Q)
       ∧ ((stored <= default 3 (IntelligenceConfig.boost_cap (intelligence_config self)))%Q
          ∨ stored = 1%Q).
Proof.
  intros Hmeta stored.
  assert (Hcap : (stored <= default 3 (IntelligenceConfig.boost_cap (intelligence_config self)))%Q
                 ∨ stored = 1%Q).
  { unfold stored. destruct (intelligence_enabled self); [|by right].
    apply process_chunk_intelligence_boost. }
  unfold _apply_intelligence_boost, intelligence_boost_attempt. cbn [omap list_omap].
  rewrite Hmeta. unfold chunk_metadata. fold stored.
  destruct (intelligence_enabled self) eqn:Hen.
  - set (im := process_chunk_intelligence _ _ _ _ _ _) in *.
    assert (Hb : ∀ m : gmap pystr MetaVal,
              <[py "priority_level" :=
                  MInt (PriorityMarkers.business_hierarchy_level (priority_markers im))]>
              (<[py "urgency_score" :=
                   MNum (TemporalContext.urgency_score (temporal_context im))]>
              (<[py "current_relevance" :=
                   MNum (TemporalContext.current_relevance (temporal_context im))]>
              (<[py "status_type" :=
                   MStr (StatusType_value (StatusInfo.status_type (status_info im)))]>
              (<[py "intelligence_boost" := MNum (overall_boost im)]> m))))
              !! py "intelligence_boost" = Some (MNum (overall_boost im))).
    { intros m. rewrite !lookup_insert_ne by (vm_compute; discriminate).
      apply lookup_insert_eq. }
    assert (Hr : ∀ m : gmap pystr MetaVal,
              <[py "priority_level" :=
                  MInt (PriorityMarkers.business_hierarchy_level (priority_markers im))]>
              (<[py "urgency_score" :=
                   MNum (TemporalContext.urgency_score (temporal_context im))]>
              (<[py "current_relevance" :=
                   MNum (TemporalContext.current_relevance (temporal_context im))]> m))
              !! py "current_relevance"
              = Some (MNum (TemporalContext.current_relevance (temporal_context im)))).
    { intros m. rewrite !lookup_insert_ne by (vm_compute; discriminate).
      apply lookup_insert_eq. }
    assert (Hu : ∀ m : gmap pystr MetaVal,
              <[py "priority_level" :=
                  MInt (PriorityMarkers.business_hierarchy_level (priority_markers im))]>
              (<[py "urgency_score" :=
                   MNum (TemporalContext.urgency_score (temporal_context im))]> m)
              !! py "urgency_score"
              = Some (MNum (TemporalContext.urgency_score (temporal_context im)))).
    { intros m. rewrite !lookup_insert_ne by (vm_compute; discriminate).
      apply lookup_insert_eq. }
    rewrite Hb, Hr, Hu. cbn [from_option id meta_number mbind option_bind].
    match goal with
    | |- context [_apply_query_specific_boost ?l ?b ?q ?s ?cr ?us] =>
        destruct (_apply_query_specific_boost l b q s cr us) as [e|] eqn:E
    end.
    + cbn [mbind option_bind]. exists e. split; [done|]. split; [|done].
      intros Hq. rewrite query_specific_boost_no_trigger in E by done. by simplify_eq.
    + exfalso. unfold _apply_query_specific_boost in E.
      repeat (destruct (contains_any _ _); cbn [meta_number mbind option_bind] in E);
        done.
  - assert (Hnone : ∀ k, k ∈ [py "intelligence_boost"; py "status_type";
                              py "current_relevance"; py "urgency_score"] →
              (<[py "size_category" :=
                   default (MStr (size_category_str Green))
                     (metadata c !! py "size_category")]>
               (<[py "end_line" := MInt (end_line c)]>
               (<[py "start_line" := MInt (start_line c)]>
               (<[py "navigation_path" := MStr (navigation_path c)]>
               (<[py "section_header" := MStr (section_header c)]>
               (<[py "document_path" := MStr (document_path c)]>
                  (∅ : gmap pystr MetaVal)))))))
              !! k = None).
    { intros k Hk.
      repeat (apply elem_of_cons in Hk as [->|Hk];
              [rewrite !lookup_insert_ne by (vm_compute; discriminate);
               apply lookup_empty|]).
      by apply not_elem_of_nil in Hk. }
    rewrite !Hnone by (repeat constructor). cbn [from_option id meta_number mbind option_bind].
    match goal with
    | |- context [_apply_query_specific_boost ?l ?b ?q ?s ?cr ?us] =>
        destruct (_apply_query_specific_boost l b q s cr us) as [e|] eqn:E
    end.
    + cbn [mbind option_bind]. exists e. split; [done|]. split; [|done].
      intros Hq. rewrite query_specific_boost_no_trigger in E by done. by simplify_eq.
    + exfalso. unfold _apply_query_specific_boost in E.
      repeat (destruct (contains_any _ _); cbn [meta_number mbind option_bind] in E);
        done.
Qed.

End StoredBoost.

Lemma stored_metadata_boost_witness :
  ∃ e, _apply_intelligence_boost ascii_lower [stored_result (example_chunk "A" 0) 1]
         (py "query") None
       = [set_enhanced_score (stored_result (example_chunk "A" 0) 1) e]
       ∧ e = (1 * 1)%Q.
Proof.
  destruct (stored_metadata_boost ascii_lower no_status no_temporal no_priority
              plain_searcher (example_chunk "A" 0)
              (stored_result (example_chunk "A" 0) 1) (py "query") eq_refl)
    as (e & Hrun & Hplain & _).
  exists e. split; [exact Hrun|]. apply Hplain. vm_compute. reflexivity.
Defined.

(** * Further properties of the indexer *)

Lemma detect_changes_of_empty (current : gmap pystr FileMeta.t) :
  detect_changes_of current ∅ = (elements (dom current), [], []).
Proof.
  unfold detect_changes_of.
  rewrite dom_empty_L, difference_empty_L, empty_difference_L, elements_empty.
  by rewrite (right_absorb_L ∅ (∩)), elements_empty.
Qed.

Section IndexerPasses.

Context {Collection ProviderFailure : Type}.
Variable section_regex_match : pystr → bool.
Variable md5_hexdigest : pystr → pystr.
Variable model_encode : list pystr → list Embedding.
Variable collection_add : Collection → list AddRow → ProviderFailure + Collection.
Variable collection_ids_of_document : Collection → pystr → ProviderFailure + list pystr.
Variable collection_delete : Collection → list pystr → ProviderFailure + Collection.
Variable parse_chunk_status : pystr → option StatusInfo.t.
Variable extract_temporal_context : pystr → pystr → option TemporalContext.t.
Variable extract_priority_markers : pystr → pystr → option PriorityMarkers.t.

Let run :=
  incremental_index Collection ProviderFailure section_regex_match md5_hexdigest
    model_encode collection_add collection_ids_of_document collection_delete
    parse_chunk_status extract_temporal_context extract_priority_markers.
Let do_index_file :=
  index_file Collection ProviderFailure section_regex_match md5_hexdigest
    model_encode collection_add parse_chunk_status extract_temporal_context
    extract_priority_markers.
Let do_index_files :=
  index_files Collection ProviderFailure section_regex_match md5_hexdigest
    model_encode collection_add parse_chunk_status extract_temporal_context
    extract_priority_markers.
Let do_delete_documents :=
  delete_documents Collection ProviderFailure collection_ids_of_document
    collection_delete.

(** Removing the chunks of a list of files traces one removal per file. *)
Lemma delete_documents_trace (self self' : IncrementalIndexer Collection)
    (files : list pystr) :
  do_delete_documents self files = inr self' →
  same_files self' self
  ∧ index_state_file self' = index_state_file self
  ∧ chunk_ops self' = chunk_ops self ++ (RemovedChunks <$> files).
Proof.
  unfold do_delete_documents. revert self.
  induction files as [|p files IH]; intros self H.
  - cbn in H. simplify_eq. by rewrite app_nil_r.
  - cbn [delete_documents] in H.
    destruct (delete_document _ _ _ _ _ _) as [e|s]; [done|].
    apply IH in H as ([H1 [H2 H3]] & H4 & H5). cbn in *.
    split; [done|]. split; [done|]. by rewrite H5, <- app_assoc.
Qed.

(** Indexing one file counts 0 or 1 and traces an addition exactly when
    it counts 1. *)
Lemma index_file_trace (self self' : IncrementalIndexer Collection)
    (current_state : gmap pystr FileMeta.t) (p : pystr) (n : Z) :
  do_index_file self current_state p = Some (self', n) →
  same_files self' self
  ∧ index_state_file self' = index_state_file self
  ∧ ((n = 0%Z ∧ chunk_ops self' = chunk_ops self)
     ∨ (n = 1%Z ∧ chunk_ops self' = chunk_ops self ++ [AddedChunks p])).
Proof.
  unfold do_index_file, index_file. intros H.
  destruct (current_state !! p) as [meta|];
    [|simplify_eq; repeat split; by left].
  destruct (file_text _) as [text|]; [|simplify_eq; repeat split; by left].
  destruct (negb _); [simplify_eq; repeat split; by left|].
  destruct (chunk_document _ _ _ _ _) as [chunks|]; [|done]. cbn in H.
  destruct chunks as [|c chunks]; [simplify_eq; repeat split; by left|].
  destruct (embed_chunks _ _ _ _) as [[embeddings embedder']|];
    [|simplify_eq; repeat split; by left].
  destruct (add_chunks _ _ _ _ _ _ _ _ _) as [e|s]; simplify_eq; cbn.
  - repeat split. by left.
  - repeat split. by right.
Qed.

Lemma index_files_trace (self self' : IncrementalIndexer Collection)
    (current_state : gmap pystr FileMeta.t) (files : list pystr) (k n : Z) :
  do_index_files self current_state files k = Some (self', n) →
  same_files self' self
  ∧ index_state_file self' = index_state_file self
  ∧ ∃ added, added `sublist_of` files
             ∧ chunk_ops self' = chunk_ops self ++ (AddedChunks <$> added)
             ∧ n = (k + len added)%Z.
Proof.
  unfold do_index_files. revert self k.
  induction files as [|p files IH]; intros self k H.
  - cbn in H. simplify_eq. repeat split. exists []. rewrite app_nil_r.
    split; [done|]. split; [done|]. unfold len. cbn. lia.
  - cbn [index_files] in H.
    destruct (index_file _ _ _ _ _ _ _ _ _ _ _ _) as [[self1 m]|] eqn:E; [|done].
    cbn in H. apply index_file_trace in E as ([H1 [H2 H3]] & H4 & Hm).
    apply IH in H as ([H1' [H2' H3']] & H4' & added & Hsub & Hops & Hn).
    split; [repeat split; congruence|]. split; [congruence|].
    destruct Hm as [[-> Hm]|[-> Hm]].
    + exists added. split; [by apply sublist_cons|]. split; [congruence|lia].
    + exists (p :: added). split; [by apply sublist_skip|]. split.
      * rewrite Hops, Hm. cbn. by rewrite <- app_assoc.
      * unfold len in *. cbn [length]. lia.
Qed.

(** A pass of [incremental_index] that returns leaves the scan of
    the file system alone, counts at most the new and modified files,
    and traces first one removal for every deleted and every modified
    file and then one addition for each file it counted, in the order
    of the new and modified files. If there was any change, the scan is
    stored as the index state, also for the files that were skipped or
    failed; and then a second pass finds no change: it returns 0 and
    leaves the indexer as the first pass left it. *)
Lemma incremental_index_returns (self self' : IncrementalIndexer Collection) (n : Z) :
  run self = Returned (n, self') →
  let new_files := (detect_changes Collection self).1.1 in
  let modified_files := (detect_changes Collection self).1.2 in
  let deleted_files := (detect_changes Collection self).2 in
  same_files self' self
  ∧ (0 ≤ n ≤ len new_files + len modified_files)%Z
  ∧ (∃ added,
       added `sublist_of` (new_files ++ modified_files) ∧ len added = n
       ∧ chunk_ops self'
         = chunk_ops self ++ (RemovedChunks <$> deleted_files ++ modified_files)
           ++ (AddedChunks <$> added))
  ∧ (detect_changes Collection self ≠ ([], [], []) →
     index_state_file self' = StateStored (scan self))
  ∧ (index_state_file self = StateStored (scan self)
     ∨ detect_changes Collection self ≠ ([], [], []) →
     run self' = Returned (0%Z, self')).
Proof.
  unfold run. intros H. cbv zeta. unfold incremental_index in H.
  destruct (detect_changes Collection self) as [[new_files modified_files] deleted_files]
    eqn:Hd.
  cbn [fst snd].
  assert (Hsame : ∀ s : IncrementalIndexer Collection,
            index_state_file s = StateStored (scan s) →
            incremental_index Collection ProviderFailure section_regex_match md5_hexdigest
              model_encode collection_add collection_ids_of_document collection_delete
              parse_chunk_status extract_temporal_context extract_priority_markers s
            = Returned (0%Z, s)).
  { intros s Hs. unfold incremental_index, detect_changes, _load_index_state,
      _scan_memory_bank. by rewrite Hs, detect_changes_same_state. }
  destruct (Z.eqb_spec (len new_files + len modified_files + len deleted_files) 0)
    as [Hzero|Hsome].
  - simplify_eq.
    assert (new_files = [] ∧ modified_files = [] ∧ deleted_files = []) as (-> & -> & ->).
    { unfold len in Hzero. destruct new_files, modified_files, deleted_files;
        cbn in Hzero; try lia. done. }
    split; [done|]. split; [done|]. split.
    { exists []. cbn. rewrite app_nil_r. by repeat split. }
    split; [done|]. intros [Hstored|Hne]; [by apply Hsame|done].
  - destruct (delete_documents _ _ _ _ self deleted_files) as [e|self1] eqn:E1; [done|].
    destruct (delete_documents _ _ _ _ self1 modified_files) as [e|self2] eqn:E2; [done|].
    destruct (index_files _ _ _ _ _ _ _ _ _ self2 _ _ 0) as [[self3 m]|] eqn:E3; [|done].
    simplify_eq.
    apply delete_documents_trace in E1 as ([A1 [A2 A3]] & A4 & A5).
    apply delete_documents_trace in E2 as ([B1 [B2 B3]] & B4 & B5).
    apply index_files_trace in E3 as ([C1 [C2 C3]] & C4 & added & Hsub & C5 & Hn).
    assert (Hscan : scan self3 = scan self) by congruence.
    split; [repeat split; cbn; congruence|].
    assert (Hlen : (len added ≤ len new_files + len modified_files)%Z).
    { apply sublist_length in Hsub. unfold len. rewrite length_app in Hsub. lia. }
    split; [unfold len in *; lia|]. split.
    { exists added. split; [done|]. split; [lia|]. cbn.
      rewrite C5, B5, A5, fmap_app. by rewrite <- !app_assoc. }
    unfold _scan_memory_bank. rewrite B2, A2.
    split; [by intros _|].
    intros _. apply Hsame. cbn. congruence.
Qed.

(** X19. A pass of [incremental_index] that returns leaves the scan of
    the file system alone, counts at most the new and modified files,
    and traces first one removal for every deleted and every modified
    file and then one addition for each file it counted, in the order
    of the new and modified files. If there was any change, the scan is
    stored as the index state, also for the files that were skipped or
    failed; and then a second pass finds no change: it returns 0 and
    leaves the indexer as the first pass left it. *)
Theorem incremental_index_pass (self self' : IncrementalIndexer Collection) (n : Z) :
  run self = Returned (n, self') →
  let new_files := (detect_changes Collection self).1.1 in
  let modified_files := (detect_changes Collection self).1.2 in
  let deleted_files := (detect_changes Collection self).2 in
  same_files self' self
  ∧ (0 ≤ n ≤ len new_files + len modified_files)%Z
  ∧ (∃ added,
       added `sublist_of` (new_files ++ modified_files) ∧ len added = n
       ∧ chunk_ops self'
         = chunk_ops self ++ (RemovedChunks <$> deleted_files ++ modified_files)
           ++ (AddedChunks <$> added))
  ∧ (detect_changes Collection self ≠ ([], [], []) →
     index_state_file self' = StateStored (scan self))
  ∧ (index_state_file self = StateStored (scan self)
     ∨ detect_changes Collection self ≠ ([], [], []) →
     run self' = Returned (0%Z, self')).
Proof. apply incremental_index_returns. Qed.

(** X20. With a missing or unreadable state file every scanned file is
    new and no file is modified or deleted; a pass that returns then
    removes nothing from the collection: it only traces additions, of
    scanned files. *)
Theorem incremental_index_without_state (self : IncrementalIndexer Collection) :
  index_state_file self = StateMissing ∨ index_state_file self = StateUnreadable →
  detect_changes Collection self = (elements (dom (scan self)), [], [])
  ∧ ∀ n self',
      run self = Returned (n, self') →
      ∃ added, added `sublist_of` elements (dom (scan self))
               ∧ chunk_ops self' = chunk_ops self ++ (AddedChunks <$> added).
Proof.
  intros Hstate.
  assert (Hd : detect_changes Collection self = (elements (dom (scan self)), [], [])).
  { unfold detect_changes, _load_index_state, _scan_memory_bank.
    destruct Hstate as [-> | ->]; apply detect_changes_of_empty. }
  split; [done|]. intros n self' Hrun.
  destruct (incremental_index_returns self self' n Hrun) as (_ & _ & Hops & _).
  rewrite Hd in Hops. cbn in Hops. destruct Hops as (added & Hsub & _ & Hops).
  exists added. by rewrite app_nil_r in Hsub.
Qed.

(** X21. [incremental_index] does not index, and does not touch the
    embedder or the collection for, a file that cannot be read, a file
    with nothing but whitespace, or a medium-tier file none of whose
    lines matches the section pattern: the loop body counts 0 and leaves
    the indexer as it was. *)
Theorem index_file_skips (self : IncrementalIndexer Collection)
    (current_state : gmap pystr FileMeta.t) (p : pystr) (meta : FileMeta.t) :
  current_state !! p = Some meta →
  match file_text (read_file self (FileMeta.absolute_path meta)) with
  | None => True
  | Some text =>
      split_ws text = []
      ∨ ((categorize_document (chunker self) text).1 = Yellow
         ∧ Forall (λ line, section_regex_match line = false) (split_lines text))
  end →
  do_index_file self current_state p = Some (self, 0%Z).
Proof.
  intros Hp Hskip. unfold do_index_file, index_file. rewrite Hp.
  destruct (file_text _) as [text|]; [|done].
  destruct (negb (truthy (strip text))) eqn:Hblank; [done|].
  destruct Hskip as [Hnone|[Htier Hno]].
  { apply strip_blank_iff in Hnone. by rewrite Hnone in Hblank. }
  unfold chunk_document.
  destruct (categorize_document (chunker self) text) as [size_category line_count].
  cbn [fst] in Htier. subst size_category.
  unfold _chunk_medium_file. cbn [Document.content].
  by rewrite (extract_sections_no_header section_regex_match text Hno).
Qed.

End IndexerPasses.

Lemma incremental_index_pass_witness :
  ∃ self',
    incremental_index unit unit h2_regex_match id_hash null_encode null_add null_ids
      null_delete no_status no_temporal no_priority (example_indexer StateMissing)
    = Returned (1%Z, self')
    ∧ index_state_file self' = StateStored example_scan
    ∧ incremental_index unit unit h2_regex_match id_hash null_encode null_add null_ids
        null_delete no_status no_temporal no_priority self'
      = Returned (0%Z, self').
Proof.
  eexists. split; [vm_compute; reflexivity|].
  match goal with
  | |- index_state_file ?s = _ ∧ _ =>
      destruct (incremental_index_pass h2_regex_match id_hash null_encode null_add
                  null_ids null_delete no_status no_temporal no_priority
                  (example_indexer StateMissing) s 1)
        as (_ & _ & _ & Hstate & Hagain); [vm_compute; reflexivity|]
  end.
  split.
  - apply Hstate. vm_compute. discriminate.
  - apply Hagain. right. vm_compute. discriminate.
Defined.

Lemma incremental_index_without_state_witness :
  detect_changes unit (example_indexer StateUnreadable)
  = (elements (dom example_scan), [], []).
Proof.
  apply (incremental_index_without_state h2_regex_match id_hash null_encode null_add
           null_ids null_delete no_status no_temporal no_priority
           (example_indexer StateUnreadable)).
  by right.
Defined.

Lemma index_file_skips_witness :
  index_file unit unit h2_regex_match id_hash null_encode null_add no_status no_temporal
    no_priority
    (mkIndexer (word_chunker 512 50 0 5) (mkEmbedder 32 ∅ [])
       plain_searcher example_scan (λ _, ReadText (py "no header here")) StateMissing [])
    example_scan (py "a.md")
  = Some (mkIndexer (word_chunker 512 50 0 5) (mkEmbedder 32 ∅ [])
            plain_searcher example_scan (λ _, ReadText (py "no header here"))
            StateMissing [], 0%Z).
Proof.
  apply (index_file_skips h2_regex_match id_hash null_encode null_add no_status
           no_temporal no_priority
           (mkIndexer (word_chunker 512 50 0 5) (mkEmbedder 32 ∅ [])
              plain_searcher example_scan (λ _, ReadText (py "no header here"))
              StateMissing [])
           example_scan (py "a.md")
           (FileMeta.mk (py "/bank/a.md") (py "0cc175b9") 1%Q 50%Z)).
  - reflexivity.
  - right. split; [reflexivity|]. cbn. by repeat constructor.
Defined.

(** ** The report of [verify_index] *)

Lemma filter_not_elem_of_nil (a b : gset pystr) :
  filter (λ p, p ∉ b) (elements a) = [] ↔ a ⊆ b.
Proof.
  split.
  - intros H p Hp. destruct (decide (p ∈ b)) as [|Hn]; [done|].
    exfalso. apply (filter_nil_not_elem_of _ _ p H Hn). by apply elem_of_elements.
  - intros Hsub. destruct (filter _ (elements a)) as [|p l] eqn:E; [done|].
    assert (Hin : p ∈ filter (λ p, p ∉ b) (elements a))
      by (rewrite E; apply list_elem_of_here).
    apply list_elem_of_filter in Hin as [Hn Hp]. apply elem_of_elements in Hp.
    exfalso. apply Hn. by apply Hsub.
Qed.

Section VerifyIndexProperties.

Context {Collection Statistics : Type}.
Variable get_statistics : HybridSearcher Collection → option Statistics.

(** X22. When the statistics can be read, [verify_index] returns a
    report that is valid exactly when the state file exists and every
    path of the stored state is still scanned, and that has no issue
    exactly when, besides, every scanned path is in the stored state. A
    state that is the scan gives a valid report without issues; a state
    file that exists but cannot be read gives a valid report. *)
Theorem verify_index_report (self : IncrementalIndexer Collection) (stats : Statistics) :
  get_statistics (searcher self) = Some stats →
  ∃ valid issues,
    verify_index Collection Statistics get_statistics self = Some (valid, issues, stats)
    ∧ (valid = true
       ↔ index_state_file self ≠ StateMissing
         ∧ dom (_load_index_state Collection self) ⊆ dom (scan self))
    ∧ (issues = []
       ↔ index_state_file self ≠ StateMissing
         ∧ dom (_load_index_state Collection self) = dom (scan self))
    ∧ (index_state_file self = StateStored (scan self) → valid = true ∧ issues = [])
    ∧ (index_state_file self = StateUnreadable → valid = true).
Proof.
  intros Hstats. unfold verify_index. rewrite Hstats. cbn [mbind option_bind].
  unfold _scan_memory_bank.
  set (state := _load_index_state Collection self).
  pose proof (filter_not_elem_of_nil (dom state) (dom (scan self))) as Hgone.
  pose proof (filter_not_elem_of_nil (dom (scan self)) (dom state)) as Hnew.
  set (gone := filter (λ p, p ∉ dom (scan self)) (elements (dom state))) in *.
  set (unindexed := filter (λ p, p ∉ dom state) (elements (dom (scan self)))) in *.
  assert (Hvalid : ∀ valid0 : bool,
            match gone with [] => valid0 | _ => false end = true
            ↔ valid0 = true ∧ dom state ⊆ dom (scan self)).
  { intros valid0. rewrite <- Hgone. destruct gone; [|split; [done|by intros [_ ?]]].
    split; [done|by intros [? _]]. }
  assert (Hissues : ∀ issues0 : list Issue,
            issues0 ++ (IndexedFileNoLongerExists <$> gone) ++ (FileNotIndexed <$> unindexed)
            = []
            ↔ issues0 = [] ∧ dom state = dom (scan self)).
  { intros issues0. rewrite !app_nil, set_eq_subseteq, <- Hgone, <- Hnew.
    split.
    - intros (? & ?%fmap_nil_inv & ?%fmap_nil_inv). done.
    - intros (? & -> & ->). done. }
  destruct (index_state_file self) as [| |stored] eqn:Hfile.
  - eexists _, _. split; [by rewrite <- app_assoc|].
    split; [rewrite Hvalid; split; [by intros [? _]|by intros [? _]]|].
    split; [rewrite Hissues; split; [by intros [? _]|by intros [? _]]|]. done.
  - eexists _, _. split; [by rewrite <- app_assoc|].
    split; [rewrite Hvalid; split; [by intros [_ ?]|by intros [_ ?]]|].
    split; [rewrite Hissues; split; [by intros [_ ?]|by intros [_ ?]]|].
    split; [done|]. intros _. apply Hvalid. split; [done|].
    unfold state, _load_index_state. rewrite Hfile, dom_empty_L. apply empty_subseteq.
  - eexists _, _. split; [by rewrite <- app_assoc|].
    split; [rewrite Hvalid; split; [by intros [_ ?]|by intros [_ ?]]|].
    split; [rewrite Hissues; split; [by intros [_ ?]|by intros [_ ?]]|].
    split; [|done]. intros Heq. simplify_eq.
    assert (Hstate : state = scan self) by (unfold state, _load_index_state; by rewrite Hfile).
    split; [apply Hvalid; by rewrite Hstate|apply Hissues; by rewrite Hstate].
Qed.

End VerifyIndexProperties.

Lemma verify_index_report_witness :
  ∃ valid issues,
    verify_index unit unit (λ _, Some tt) (example_indexer (StateStored example_scan))
    = Some (valid, issues, tt)
    ∧ valid = true ∧ issues = [].
Proof.
  destruct (verify_index_report (λ _ : HybridSearcher unit, Some tt)
              (example_indexer (StateStored example_scan)) tt eq_refl)
    as (valid & issues & Hrun & _ & _ & Hstored & _).
  exists valid, issues. split; [exact Hrun|]. by apply Hstored.
Defined.

(** * Further properties of the boosts and of the extractors *)

(** ** The domain boost *)


(** ** The priority multiplier *)

Lemma py_minQ_ge (a b c : Q) : (c <= a)%Q → (c <= b)%Q → (c <= py_minQ a b)%Q.
Proof. intros Ha Hb. unfold py_minQ. by destruct (Qle_bool a b). Qed.

Lemma py_max_list_ge (first : Q) (rest : list Q) (c : Q) :
  (c <= first)%Q → (c <= py_max_list first rest)%Q.
Proof.
  unfold py_max_list. revert first. induction rest as [|x rest IH]; intros first H; [done|].
  cbn. apply IH. destruct (Qle_bool x first) eqn:E; [done|].
  assert (Hlt : (first < x)%Q).
  { apply Qnot_le_lt. intros Hle. apply Qle_bool_iff in Hle. congruence. }
  lra.
Qed.

Lemma Qmult_ge_1 (a b : Q) : (1 <= a)%Q → (1 <= b)%Q → (1 <= a * b)%Q.
Proof. intros. nra. Qed.

Lemma hierarchy_boost_ge_1 (level : Z) : (1 <= hierarchy_boost level)%Q.
Proof. unfold hierarchy_boost. repeat case_match; lra. Qed.

(** X24. When every detected priority keyword has a product of
    multiplier and confidence of at least 1, and in particular when no
    keyword was detected, [calculate_priority_multiplier] is at least 1
    and at most 3: the hierarchy, client and urgency factors never lower
    a score. *)
Theorem priority_multiplier_range (priority_markers : PriorityMarkers.t) :
  Forall (λ kw, (1 <= PriorityKeyword.boost_multiplier kw
                      * PriorityKeyword.confidence kw)%Q)
    (PriorityMarkers.priority_keywords priority_markers) →
  (1 <= calculate_priority_multiplier priority_markers)%Q
  ∧ (calculate_priority_multiplier priority_markers <= 3)%Q.
Proof.
  intros Hkw. split; [|apply calculate_priority_multiplier_capped].
  unfold calculate_priority_multiplier. apply py_minQ_ge; [lra|].
  set (base1 := match _ <$> PriorityMarkers.priority_keywords priority_markers with
                | [] => 1%Q
                | first :: rest => (1 * py_max_list first rest)%Q
                end).
  assert (H1 : (1 <= base1)%Q).
  { unfold base1. destruct Hkw as [|kw kws Hk Hks]; cbn; [lra|].
    pose proof (py_max_list_ge _
                  ((λ keyword, PriorityKeyword.boost_multiplier keyword
                               * PriorityKeyword.confidence keyword)%Q <$> kws) 1 Hk).
    lra. }
  set (base2 := (base1 * hierarchy_boost _)%Q).
  assert (H2 : (1 <= base2)%Q) by (apply Qmult_ge_1; [done|apply hierarchy_boost_ge_1]).
  set (base3 := if Qle_bool _ 1 then base2 else _).
  assert (H3 : (1 <= base3)%Q).
  { unfold base3.
    destruct (Qle_bool (PriorityMarkers.client_relevance_score priority_markers) 1) eqn:E;
      [done|].
    apply Qmult_ge_1; [done|]. apply py_minQ_ge; [lra|].
    apply Qlt_le_weak, Qnot_le_lt. intros Hle. apply Qle_bool_iff in Hle. congruence. }
  destruct (PriorityMarkers.urgency_indicators priority_markers) as [|u us]; [done|].
  apply Qmult_ge_1; [done|]. apply py_minQ_ge; [lra|].
  assert (Hn : (0 <= inject_Z (len (u :: us)))%Q).
  { rewrite <- (Zle_Qle 0). unfold len. lia. }
  nra.
Qed.

Lemma priority_multiplier_range_witness :
  (1 <= calculate_priority_multiplier (PriorityMarkers.mk [] 1 2 [py "urgent"]))%Q
  ∧ (calculate_priority_multiplier (PriorityMarkers.mk [] 1 2 [py "urgent"]) <= 3)%Q.
Proof.
  apply (priority_multiplier_range (PriorityMarkers.mk [] 1 2 [py "urgent"])).
  constructor.
Defined.

(** ** The hierarchy level and the keyword confidence *)

Section PriorityProperties.

Variable lower : pystr → pystr.

(** X25. [_determine_hierarchy_level] returns 1, 2 or 3, and the
    minimum of the levels it collects is the level the comments
    describe: 1 for a strategic pattern, or for [quarter] when no
    tactical pattern matched; else 2 for a tactical pattern, or for
    [week] when no operational pattern matched; else 3 for an
    operational pattern; else the level of the document path. *)
Theorem hierarchy_level_cascade (content document_path : pystr) :
  _determine_hierarchy_level lower content document_path
  = spec_hierarchy_level lower content document_path
  ∧ (1 ≤ _determine_hierarchy_level lower content document_path ≤ 3)%Z.
Proof.
  assert (E : _determine_hierarchy_level lower content document_path
              = spec_hierarchy_level lower content document_path).
  { unfold _determine_hierarchy_level, spec_hierarchy_level.
    destruct (contains_any (lower content)
                [py "strategic"; py "vision"; py "philosophy"; py "long-term"]);
      destruct (contains_any (lower content)
                  [py "quarterly"; py "milestone"; py "project"; py "client engagement"]);
      destruct (contains_any (lower content)
                  [py "weekly"; py "daily"; py "operational"; py "todo"]);
      destruct (contains (lower content) (py "quarter"));
      destruct (contains (lower content) (py "week"));
      reflexivity. }
  split; [done|]. rewrite E. unfold spec_hierarchy_level.
  repeat case_match; lia.
Qed.


End PriorityProperties.

(** ** Substrings and stripping *)

Lemma startswith_spec (s p : pystr) :
  startswith s p = true ↔ ∃ l2, s = p ++ l2.
Proof.
  revert s. induction p as [|a p IH]; intros s; cbn.
  - split; [intros _; by exists s|done].
  - destruct s as [|b s].
    + split; [done|]. by intros [l2 ?].
    + rewrite andb_true_iff, N.eqb_eq, IH. split.
      * intros [-> [l2 ->]]. by exists l2.
      * intros [l2 H]. simplify_eq. split; [done|by exists l2].
Qed.

Lemma contains_spec (s p : pystr) :
  contains s p = true ↔ ∃ l1 l2, s = l1 ++ p ++ l2.
Proof.
  induction s as [|c s IH].
  - cbn [contains]. rewrite orb_false_r, startswith_spec. split.
    + intros [l2 H]. by exists [], l2.
    + intros (l1 & l2 & H). symmetry in H. apply app_nil in H as [-> H].
      by exists l2.
  - cbn [contains]. rewrite orb_true_iff, startswith_spec, IH. split.
    + intros [[l2 H]|(l1 & l2 & H)].
      * by exists [], l2.
      * exists (c :: l1), l2. by rewrite H.
    + intros (l1 & l2 & H). destruct l1 as [|x l1].
      * left. by exists l2.
      * right. exists l1, l2. cbn in H. by simplify_eq.
Qed.

Lemma contains_reverse (s p : pystr) :
  contains (reverse s) (reverse p) = contains s p.
Proof.
  apply Bool.eq_iff_eq_true. rewrite !contains_spec. split.
  - intros (l1 & l2 & H). exists (reverse l2), (reverse l1).
    apply (f_equal reverse) in H. rewrite reverse_involutive in H.
    by rewrite H, !reverse_app, reverse_involutive, (assoc_L (++)).
  - intros (l1 & l2 & ->). exists (reverse l2), (reverse l1).
    by rewrite !reverse_app, (assoc_L (++)).
Qed.

Lemma contains_lstrip (s : pystr) (c : N) (p : pystr) :
  isspace c = false → contains (lstrip s) (c :: p) = contains s (c :: p).
Proof.
  intros Hc. induction s as [|x s IH]; [done|].
  cbn [lstrip]. destruct (isspace x) eqn:Hx; [|done].
  rewrite IH. cbn [contains startswith].
  destruct (c =? x)%N eqn:E; [|done].
  apply N.eqb_eq in E. congruence.
Qed.

Lemma contains_rstrip (s : pystr) (p : pystr) (c : N) :
  isspace c = false → contains (rstrip s) (p ++ [c]) = contains s (p ++ [c]).
Proof.
  intros Hc. unfold rstrip.
  rewrite <- (contains_reverse s), <- (contains_reverse (reverse _)).
  rewrite reverse_involutive, reverse_app. cbn [reverse rev_append app].
  by apply contains_lstrip.
Qed.

(** A literal whose first and last code points are not white space is
    found in a line exactly when it is found in the stripped line. *)
Lemma contains_strip (s : pystr) (a : N) (p : pystr) (c : N) :
  isspace a = false → isspace c = false →
  contains (strip s) (a :: p ++ [c]) = contains s (a :: p ++ [c]).
Proof.
  intros Ha Hc. unfold strip.
  rewrite (contains_rstrip _ (a :: p) c Hc). by apply contains_lstrip.
Qed.

Lemma contains_strip_one (s : pystr) (a : N) :
  isspace a = false → contains (strip s) [a] = contains s [a].
Proof.
  intros Ha. unfold strip.
  rewrite (contains_rstrip _ [] a Ha). by apply contains_lstrip.
Qed.

Lemma matches_completed_strip (line : pystr) :
  matches_completed (strip line) = matches_completed line.
Proof.
  unfold matches_completed.
  rewrite (contains_strip line 91 [120%N] 93 eq_refl eq_refl
           : contains (strip line) (py "[x]") = contains line (py "[x]")).
  rewrite (contains_strip line 91 [88%N] 93 eq_refl eq_refl
           : contains (strip line) (py "[X]") = contains line (py "[X]")).
  by rewrite (contains_strip_one line 9989 eq_refl).
Qed.

Lemma matches_in_progress_strip (line : pystr) :
  matches_in_progress (strip line) = matches_in_progress line.
Proof.
  unfold matches_in_progress.
  rewrite (contains_strip line 91 [45%N] 93 eq_refl eq_refl
           : contains (strip line) (py "[-]") = contains line (py "[-]")).
  rewrite (contains_strip line 91 [126%N] 93 eq_refl eq_refl
           : contains (strip line) (py "[~]") = contains line (py "[~]")).
  by rewrite (contains_strip_one line 128260 eq_refl).
Qed.

(** ** The status of a chunk *)

Lemma length_filter_all {A} (P : A → Prop) `{!∀ x, Decision (P x)} (l : list A) :
  length (filter P l) = length l ↔ Forall P l.
Proof.
  induction l as [|x l IH]; [by split; [constructor|]|].
  pose proof (length_filter P l) as Hle.
  rewrite filter_cons. destruct (decide (P x)) as [Hx|Hx]; cbn.
  - rewrite Forall_cons. split.
    + intros Hl. split; [done|]. apply IH. lia.
    + intros [_ Hl]. apply IH in Hl. lia.
  - split; [lia|]. intros Hl. by apply Forall_cons in Hl as [? _].
Qed.

Section StatusProperties.

Variable upper : pystr → pystr.
Variable percentage_match : pystr → option Z.
Variable progress_pattern_matches : pystr → list pystr.

Lemma determine_status_type_completed (checkboxes : list CheckboxStatus.t)
    (content : pystr) :
  contains_any (upper content) in_progress_keywords = false →
  checkboxes ≠ [] →
  (_determine_status_type upper checkboxes content).1 = COMPLETED
  ↔ Forall (λ cb, matches_completed (CheckboxStatus.text cb) = true) checkboxes.
Proof.
  intros Hk Hne. unfold _determine_status_type. rewrite Hk.
  destruct checkboxes as [|cb0 cbs]; [done|].
  set (cs := cb0 :: cbs). cbv zeta.
  rewrite <- (length_filter_all _ cs). unfold len.
  destruct (Z.eqb_spec
              (Z.of_nat (length (filter (λ cb, matches_completed (CheckboxStatus.text cb)
                                               = true) cs)))
              (Z.of_nat (length cs))) as [E|E].
  - split; [intros _; lia|done].
  - split; [|intros H; lia]. repeat case_match; done.
Qed.


Lemma extract_checkboxes_lines (content : pystr) :
  Forall (λ cb, ∃ line,
            split_lines content !! Z.to_nat (CheckboxStatus.line_number cb) = Some line
            ∧ CheckboxStatus.text cb = strip line
            ∧ CheckboxStatus.is_completed cb = matches_completed line
            ∧ matches_completed line || matches_in_progress line
              || matches_pending line = true)
    (_extract_checkboxes content).
Proof.
  unfold _extract_checkboxes. apply Forall_forall. intros cb Hin.
  apply list_elem_of_omap in Hin as ([i line] & Hin & Hcb).
  unfold enumerate in Hin. apply elem_of_lookup_imap in Hin as (n & line' & E & Hn).
  injection E as -> ->. exists line'.
  unfold checkbox_of_line in Hcb.
  destruct (matches_completed line') eqn:E1;
    [|destruct (matches_in_progress line') eqn:E2;
      [|destruct (matches_pending line') eqn:E3; [|done]]];
    injection Hcb as <-; cbn [CheckboxStatus.line_number CheckboxStatus.text
                              CheckboxStatus.is_completed];
    by rewrite Nat2Z.id.
Qed.

(** X28. [parse_chunk_status]: every checkbox it reports is a line of
    the content, stripped, that matches one of the checkbox patterns,
    flagged completed exactly when it matches a completed pattern.
    Without an explicit percentage in the content, the completion
    percentage is missing exactly when there is no checkbox, it lies
    between 0 and 1 otherwise, and, when the content holds no
    in-progress keyword, it is 1 exactly when the status is COMPLETED. *)
Theorem parse_chunk_status_checkboxes (content : pystr) :
  let info := parse_chunk_status upper percentage_match progress_pattern_matches content in
  Forall (λ cb, ∃ line,
            split_lines content !! Z.to_nat (CheckboxStatus.line_number cb) = Some line
            ∧ CheckboxStatus.text cb = strip line
            ∧ CheckboxStatus.is_completed cb = matches_completed line
            ∧ matches_completed line || matches_in_progress line
              || matches_pending line = true)
    (StatusInfo.checkbox_indicators info)
  ∧ (percentage_match content = None →
     match StatusInfo.completion_percentage info with
     | None => StatusInfo.checkbox_indicators info = []
     | Some p =>
         StatusInfo.checkbox_indicators info ≠ []
         ∧ (0 <= p)%Q ∧ (p <= 1)%Q
         ∧ (contains_any (upper content) in_progress_keywords = false →
            (p == 1)%Q ↔ StatusInfo.status_type info = COMPLETED)
     end).
Proof.
  intros info.
  assert (Hcb : StatusInfo.checkbox_indicators info = _extract_checkboxes content).
  { unfold info, parse_chunk_status. by destruct (_determine_status_type _ _ _). }
  assert (Hst : StatusInfo.status_type info
                = (_determine_status_type upper (_extract_checkboxes content) content).1).
  { unfold info, parse_chunk_status. by destruct (_determine_status_type _ _ _). }
  assert (Hcp : StatusInfo.completion_percentage info
                = _calculate_completion_percentage percentage_match
                    (_extract_checkboxes content) content).
  { unfold info, parse_chunk_status. by destruct (_determine_status_type _ _ _). }
  rewrite Hcb, Hst, Hcp. clear Hcb Hst Hcp info.
  pose proof (extract_checkboxes_lines content) as Hlines.
  split; [done|]. intros Hpm. unfold _calculate_completion_percentage. rewrite Hpm.
  destruct (_extract_checkboxes content) as [|cb0 cbs] eqn:Ecs; [done|].
  rewrite <- Ecs in *. set (cs := _extract_checkboxes content) in *.
  assert (Hne : cs ≠ []) by (by rewrite Ecs).
  set (a := len (filter (λ cb, CheckboxStatus.is_completed cb = true) cs)).
  set (b := len cs).
  assert (Hb : (0 < b)%Z) by (unfold b, len; rewrite Ecs; cbn; lia).
  assert (Ha : (0 ≤ a ≤ b)%Z).
  { unfold a, b, len.
    pose proof (length_filter (λ cb, CheckboxStatus.is_completed cb = true) cs). lia. }
  assert (HbQ : (0 < inject_Z b)%Q) by (by rewrite <- (Zlt_Qlt 0)).
  split; [done|]. split; [|split].
  - apply Qle_shift_div_l; [done|]. rewrite Qmult_0_l, <- (Zle_Qle 0). lia.
  - apply Qle_shift_div_r; [done|]. rewrite Qmult_1_l, <- Zle_Qle. lia.
  - intros Hk. rewrite (determine_status_type_completed cs content Hk Hne).
    assert (Hall : Forall (λ cb, matches_completed (CheckboxStatus.text cb) = true) cs
                   ↔ Forall (λ cb, CheckboxStatus.is_completed cb = true) cs).
    { rewrite !Forall_forall. split; intros H cb Hin.
      - pose proof (proj1 (Forall_forall _ _) Hlines cb Hin) as (line & _ & Ht & Hc & _).
        rewrite Hc, <- matches_completed_strip, <- Ht. by apply H.
      - pose proof (proj1 (Forall_forall _ _) Hlines cb Hin) as (line & _ & Ht & Hc & _).
        rewrite Ht, matches_completed_strip, <- Hc. by apply H. }
    rewrite Hall, <- (length_filter_all _ cs). fold a.
    split.
    + intros Hp.
      assert (Hab : (inject_Z a == inject_Z b)%Q).
      { rewrite <- (Qmult_div_r (inject_Z a) (inject_Z b)) by lra.
        rewrite Hp. lra. }
      pose proof (proj1 (inject_Z_injective a b) Hab) as Hab'.
      unfold a, b, len in Hab'. lia.
    + intros Hlen.
      assert (Hab : a = b) by (unfold a, b, len; lia).
      rewrite Hab. field. lra.
Qed.

End StatusProperties.

(** ** The temporal context *)

Lemma foldl_Qle_lower {A} (f : Q → A → Q) (l : list A) (init c : Q) :
  (∀ acc x, x ∈ l → (acc <= f acc x)%Q) → (c <= init)%Q → (c <= foldl f init l)%Q.
Proof.
  revert init. induction l as [|x l IH]; intros init Hf Hc; [done|].
  cbn. apply IH.
  - intros acc y Hy. apply Hf. by apply list_elem_of_further.
  - eapply Qle_trans; [exact Hc|]. apply Hf. apply list_elem_of_here.
Qed.

Section TemporalProperties.

Variable lower : pystr → pystr.
Variable business_phases : list pystr.
Variable parsed_critical_dates : list Z.
Variable days_until : Z → Z.
Variable same_date : Z → Z → bool.
Variable has_iso_date : pystr → bool.
Variable mentions_current : pystr → bool.
Variable find_time_markers : pystr → list (pystr * TimeContextType).
Variable _parse_date_from_marker : pystr → option Z.
Variable _extract_relative_time : pystr → pystr → option pystr.
Variable _extract_phase_context : pystr → option pystr.

Lemma marker_confidence_range (marker_text content : pystr) :
  (5 # 10 <= _calculate_marker_confidence business_phases has_iso_date mentions_current
               marker_text content)%Q
  ∧ (_calculate_marker_confidence business_phases has_iso_date mentions_current
       marker_text content <= 1)%Q.
Proof.
  unfold _calculate_marker_confidence. split; [|apply py_minQ_le_l].
  apply py_minQ_ge; [lra|]. repeat case_match; lra.
Qed.

(** X29. [extract_temporal_context]: every time marker has a
    confidence between 0.5 and 1, the current relevance lies between
    0.5 and 1 and the urgency score between 0 and 1, whatever the
    content, the configured phases and dates and the current date. *)
Theorem temporal_context_bounds (content document_path : pystr) :
  let tc :=
    extract_temporal_context lower business_phases parsed_critical_dates days_until
      same_date has_iso_date mentions_current find_time_markers _parse_date_from_marker
      _extract_relative_time _extract_phase_context content document_path in
  Forall (λ m, (5 # 10 <= TimeMarker.confidence m)%Q ∧ (TimeMarker.confidence m <= 1)%Q)
    (TemporalContext.time_markers tc)
  ∧ (5 # 10 <= TemporalContext.current_relevance tc)%Q
  ∧ (TemporalContext.current_relevance tc <= 1)%Q
  ∧ (0 <= TemporalContext.urgency_score tc)%Q
  ∧ (TemporalContext.urgency_score tc <= 1)%Q.
Proof.
  cbv zeta. unfold extract_temporal_context.
  cbn [TemporalContext.time_markers TemporalContext.current_relevance
       TemporalContext.urgency_score].
  assert (Hm : Forall (λ m, (5 # 10 <= TimeMarker.confidence m)%Q
                            ∧ (TimeMarker.confidence m <= 1)%Q)
                 (_extract_time_markers business_phases has_iso_date mentions_current
                    find_time_markers _parse_date_from_marker _extract_relative_time
                    content)).
  { unfold _extract_time_markers. apply Forall_fmap, Forall_forall.
    intros [marker_text ty] _. cbn. apply marker_confidence_range. }
  split; [done|]. split; [|split; [apply py_minQ_le_l|split; [|apply py_minQ_le_l]]].
  - unfold _calculate_current_relevance. apply py_minQ_ge; [lra|].
    apply foldl_Qle_lower.
    + intros acc m Hin. apply (proj1 (Forall_forall _ _) Hm) in Hin as [H1 H2].
      repeat case_match; nra.
    + repeat case_match; lra.
  - unfold _calculate_urgency_score. apply py_minQ_ge; [lra|].
    apply foldl_Qle_lower.
    + intros acc m _. repeat case_match; lra.
    + repeat case_match; lra.
Qed.

End TemporalProperties.

(** ** A full reindex *)

Section FullIndexProperties.

Context {Collection ProviderFailure : Type}.
Variable section_regex_match : pystr → bool.
Variable md5_hexdigest : pystr → pystr.
Variable model_encode : list pystr → list Embedding.
Variable collection_add : Collection → list AddRow → ProviderFailure + Collection.
Variable collection_ids_of_document : Collection → pystr → ProviderFailure + list pystr.
Variable collection_delete : Collection → list pystr → ProviderFailure + Collection.
Variable parse_chunk_status : pystr → option StatusInfo.t.
Variable extract_temporal_context : pystr → pystr → option TemporalContext.t.
Variable extract_priority_markers : pystr → pystr → option PriorityMarkers.t.

(** X30. A [full_index] that returns, over the scanned paths in any
    order, leaves the scan of the file system alone, counts at most the
    scanned files, and removes nothing from the collection: it only
    traces one addition for each file it counted, in the order of the
    scan, so the chunks of a file that was indexed before are added a
    second time. It stores the scan as the index state, also for the
    files that were skipped or failed, and a pass of
    [incremental_index] after it finds no change: it returns 0 and
    leaves the indexer as it was. *)
Theorem full_index_pass (self self' : IncrementalIndexer Collection)
    (scan_order : list pystr) (n : Z) :
  scan_order ≡ₚ elements (dom (scan self)) →
  full_index Collection ProviderFailure section_regex_match md5_hexdigest model_encode
    collection_add parse_chunk_status extract_temporal_context extract_priority_markers
    self scan_order = Some (n, self') →
  same_files self' self
  ∧ (0 ≤ n ≤ Z.of_nat (size (dom (scan self))))%Z
  ∧ (∃ added,
       added `sublist_of` scan_order ∧ len added = n
       ∧ chunk_ops self' = chunk_ops self ++ (AddedChunks <$> added))
  ∧ index_state_file self' = StateStored (scan self)
  ∧ incremental_index Collection ProviderFailure section_regex_match md5_hexdigest
      model_encode collection_add collection_ids_of_document collection_delete
      parse_chunk_status extract_temporal_context extract_priority_markers self'
    = Returned (0%Z, self').
Proof.
  intros Hperm H. unfold full_index, _scan_memory_bank in H.
  destruct (index_files _ _ _ _ _ _ _ _ _ self _ _ 0) as [[self1 m]|] eqn:E; [|done].
  cbn in H. simplify_eq.
  apply (index_files_trace section_regex_match md5_hexdigest model_encode collection_add
           parse_chunk_status extract_temporal_context extract_priority_markers) in E
    as ([C1 [C2 C3]] & C4 & added & Hsub & C5 & Hn).
  split; [repeat split; cbn; congruence|].
  assert (Hlen : (len added ≤ Z.of_nat (size (dom (scan self))))%Z).
  { apply sublist_length in Hsub. apply Permutation_length in Hperm.
    unfold size, set_size. cbn. unfold len. lia. }
  split; [unfold len in *; lia|]. split.
  { exists added. split; [done|]. split; [lia|]. cbn. exact C5. }
  split; [done|].
  unfold incremental_index, detect_changes, _load_index_state, _scan_memory_bank.
  cbn [index_state_file _save_index_state scan]. rewrite C2.
  by rewrite detect_changes_same_state.
Qed.

End FullIndexProperties.

Lemma full_index_pass_witness :
  ∃ self',
    full_index unit unit h2_regex_match id_hash null_encode null_add no_status
      no_temporal no_priority (example_indexer StateMissing) [py "a.md"]
    = Some (1%Z, self')
    ∧ index_state_file self' = StateStored example_scan
    ∧ incremental_index unit unit h2_regex_match id_hash null_encode null_add null_ids
        null_delete no_status no_temporal no_priority self'
      = Returned (0%Z, self').
Proof.
  eexists. split; [vm_compute; reflexivity|].
  match goal with
  | |- index_state_file ?s = _ ∧ _ =>
      destruct (full_index_pass h2_regex_match id_hash null_encode null_add
                  null_ids null_delete no_status no_temporal no_priority
                  (example_indexer StateMissing) s [py "a.md"] 1)
        as (_ & _ & _ & Hstate & Hagain);
        [change (scan (example_indexer StateMissing)) with example_scan;
         unfold example_scan; by rewrite dom_singleton_L, elements_singleton
        |vm_compute; reflexivity|]
  end.
  by split.
Defined.
